(** * Google Calendar provider adapter: conversions between the provider's wire
    shapes and the provider-agnostic domain model.

    The development embeds the conversion functions of the adapter and proves
    the properties its specification states about them. *)

From Stdlib Require Import String Ascii List Bool Arith ZArith Lia.
Import ListNotations.
Open Scope string_scope.

(** ** JavaScript values used by the adapter

    A string is a sequence of code units; the model keeps the code units below
    256, one per [ascii].  A property that may be missing or [undefined] is an
    [option]; reading it yields [None] in both cases. *)
Module Js.

(** Truthiness of a possibly undefined string: the empty string is falsy. *)
Definition truthy (s : option string) : bool :=
  match s with
  | Some (String _ _) => true
  | _ => false
  end.

(** Truthiness of a possibly undefined boolean. *)
Definition truthyb (b : option bool) : bool :=
  match b with
  | Some true => true
  | _ => false
  end.

(** [a || b] on strings. *)
Definition or_else (a : option string) (b : option string) : option string :=
  if truthy a then a else b.

(** [a ?? b]. *)
Definition nullish {A : Type} (a : option A) (b : A) : A :=
  match a with
  | Some v => v
  | None => b
  end.

(** [c && { ...fields }] spread into an object literal: the fields are on the
    object only when [c] is truthy. *)
Definition spread_if (c : option string) (v : option string) : option string :=
  if truthy c then v else None.

(** [s.startsWith(p)]. *)
Definition startsWith (s p : string) : bool := String.prefix p s.

(** [s.includes(sub)]. *)
Fixpoint includes (s sub : string) : bool :=
  String.prefix sub s ||
  match s with
  | EmptyString => false
  | String _ s' => includes s' sub
  end.

(** Lower-casing of one code unit below 256: A-Z and the Latin-1 capitals
    (0xC0-0xDE except the multiplication sign 0xD7) move up by 32. *)
Definition lower_unit (c : ascii) : ascii :=
  let n := nat_of_ascii c in
  if (((65 <=? n) && (n <=? 90)) ||
      ((192 <=? n) && (n <=? 222) && negb (n =? 215)))%nat
  then ascii_of_nat (n + 32)
  else c.

(** [s.toLowerCase()]. *)
Fixpoint toLowerCase (s : string) : string :=
  match s with
  | EmptyString => EmptyString
  | String c s' => String (lower_unit c) (toLowerCase s')
  end.

(** [s.split(sep)[0]] for a one-unit separator: the text before its first
    occurrence, the whole text when it does not occur. *)
Fixpoint split_head (sep : ascii) (s : string) : string :=
  match s with
  | EmptyString => EmptyString
  | String c s' => if Ascii.eqb c sep then EmptyString
                   else String c (split_head sep s')
  end.

End Js.

(** ** The URL pattern of the fallback scan

    The pattern of [extractUrls], with flags g and i, is the scheme http or
    https, a colon and two slashes, then one or more units that are neither
    white space nor one of: angle brackets, double quote, single quote, braces,
    vertical bar, backslash, caret, backquote, square brackets.  It is applied
    with [String.prototype.match]: every match, left to right, none
    overlapping. *)
Module UrlRegex.

(** [\s] on code units below 256: TAB, LF, VT, FF, CR, space, NBSP. *)
Definition is_space (c : ascii) : bool :=
  let n := nat_of_ascii c in
  (((9 <=? n) && (n <=? 13)) || (n =? 32) || (n =? 160))%nat.

(** The units the class excludes besides white space, by code:
    60 and 62 (angle brackets), 34 and 39 (quotes), 123 and 125 (braces),
    124 (bar), 92 (backslash), 94 (caret), 96 (backquote), 91 and 93
    (square brackets). *)
Definition is_delimiter (c : ascii) : bool :=
  let n := nat_of_ascii c in
  ((n =? 60) || (n =? 62) || (n =? 34) || (n =? 39) || (n =? 123) ||
   (n =? 125) || (n =? 124) || (n =? 92) || (n =? 94) || (n =? 96) ||
   (n =? 91) || (n =? 93))%nat.

(** One unit of the negated class. *)
Definition url_unit (c : ascii) : bool :=
  negb (is_space c || is_delimiter c).

(** A literal letter under the [i] flag. *)
Definition same_letter (lower : ascii) (c : ascii) : bool :=
  Ascii.eqb (Js.lower_unit c) lower.

(** The longest run of [url_unit]s at the head of the text. *)
Fixpoint url_run (s : string) : string :=
  match s with
  | String c s' => if url_unit c then String c (url_run s') else EmptyString
  | EmptyString => EmptyString
  end.

(** [strip p s]: the text after the literal [p] when [s] starts with it. *)
Fixpoint strip (p s : string) : option string :=
  match p, s with
  | EmptyString, _ => Some s
  | String a p', String b s' => if Ascii.eqb a b then strip p' s' else None
  | String _ _, EmptyString => None
  end.

(** The letters [http] at the head of the text, in either case: the
    letters as written and the rest. *)
Definition http_at (s : string) : option (string * string) :=
  match s with
  | String h (String t1 (String t2 (String p rest))) =>
      if same_letter "h"%char h && same_letter "t"%char t1 &&
         same_letter "t"%char t2 && same_letter "p"%char p
      then Some (String h (String t1 (String t2 (String p EmptyString))), rest)
      else None
  | _ => None
  end.

(** The optional s, the colon and the two slashes after the letters: the
    optional s is tried first, and the pattern without it when that fails. *)
Definition colon_slashes_at (s : string) : option (string * string) :=
  let with_s :=
    match s with
    | String c s' =>
        if same_letter "s"%char c
        then option_map (fun r => (String c "://", r)) (strip "://" s')
        else None
    | EmptyString => None
    end in
  match with_s with
  | Some r => Some r
  | None => option_map (fun r => ("://", r)) (strip "://" s)
  end.

(** One match of the whole pattern at the head of the text. *)
Definition match_at (s : string) : option string :=
  match http_at s with
  | Some (letters, rest) =>
      match colon_slashes_at rest with
      | Some (sep, rest') =>
          match url_run rest' with
          | EmptyString => None
          | run => Some (letters ++ sep ++ run)
          end
      | None => None
      end
  | None => None
  end.

(** All matches from left to right; after a match the search resumes behind
    it ([skip] counts the units of the last match still to pass). *)
Fixpoint scan (skip : nat) (s : string) : list string :=
  match s with
  | EmptyString => []
  | String _ s' =>
      match skip with
      | S k => scan k s'
      | O =>
          match match_at s with
          | Some m => m :: scan (String.length m - 1) s'
          | None => scan 0 s'
          end
      end
  end.

(** [text.match(urlRegex) || []]. *)
Definition extractUrls (text : string) : list string := scan 0 text.

End UrlRegex.

(** ** Libraries the adapter calls

    The adapter is written against three collaborators that are not part of
    it; each is an interface here, and every result below holds for any
    implementation of them. *)

(** temporal-polyfill.  A [from] that returns [None] throws a [RangeError];
    so does [toZonedDateTimeISO] on a zone id it does not know. *)
Class Temporal := {
  PlainDate : Type;
  Instant : Type;
  ZonedDateTime : Type;
  PlainDate_from : string -> option PlainDate;
  Instant_from : string -> option Instant;
  toZonedDateTimeISO : Instant -> string -> option ZonedDateTime;
  PlainDate_toString : PlainDate -> string;
  Instant_toString : Instant -> string;
  (** [toString({ timeZoneName: never, offset: auto })] *)
  ZonedDateTime_toString : ZonedDateTime -> string;
  timeZoneId : ZonedDateTime -> string
}.

(** What the meeting-link detector returns for a URL it recognises. *)
Module MeetingService.
Record t := { id : string; name : string; joinUrl : string }.
End MeetingService.

(** @analog/meeting-links. *)
Class MeetingLinks := {
  detectMeetingLink : string -> option MeetingService.t
}.

(** The parts of a parsed URL that [toJoinUrl] reads. *)
Module URL.
Record t := { hostname : string; pathname : string }.
End URL.

(** The JavaScript runtime: the [URL] constructor ([None] when it throws),
    and [String(value)] on the values of [Conference.extra], whose type is
    [unknown]. *)
Class Runtime := {
  Unknown : Type;
  String_ : Unknown -> string;
  new_URL : string -> option URL.t
}.

(** A value of [Temporal.PlainDate | Temporal.Instant | Temporal.ZonedDateTime],
    told apart with [instanceof]. *)
Inductive DateValue `{Temporal} : Type :=
| OfPlainDate (d : PlainDate)
| OfInstant (i : Instant)
| OfZonedDateTime (z : ZonedDateTime).

(** ** Domain model (interfaces/) *)

Module Calendar.
Record t := {
  id : string;
  providerId : string;
  name : option string;
  description : option string;
  timeZone : option string;
  primary : option bool;
  accountId : string;
  color : option string;
  readOnly : bool
}.
End Calendar.

(** [Attendee["type"]]. *)
Inductive AttendeeType := required | optional | resource.

Module Attendee.
Record t := {
  id : option string;
  email : option string;
  name : option string;
  status : option string;
  type : AttendeeType;
  comment : option string;
  additionalGuests : option Z
}.
End Attendee.

(** The members of [AttendeeStatus]. *)
Definition AttendeeStatus : list string :=
  ["accepted"; "tentative"; "declined"; "unknown"].

(** The members of [GoogleCalendarEventAttendeeResponseStatus]. *)
Definition GoogleCalendarEventAttendeeResponseStatus : list string :=
  ["needsAction"; "declined"; "tentative"; "accepted"].

Module JoinUrl.
Record t := { label : option string; value : string }.
End JoinUrl.

Module ConferenceEntryPoint.
Record t := {
  joinUrl : JoinUrl.t;
  meetingCode : option string;
  accessCode : option string;
  password : option string
}.
End ConferenceEntryPoint.

Module Conference.
Record t `{Runtime} := {
  id : option string;
  conferenceId : option string;
  name : option string;
  video : option ConferenceEntryPoint.t;
  sip : option ConferenceEntryPoint.t;
  phone : option (list ConferenceEntryPoint.t);
  extra : option (list (string * Unknown))
}.
End Conference.

(** [CalendarEvent["response"]]. *)
Module Response.
Record t := { status : option string; comment : option string }.
End Response.

Module CalendarEvent.
(** [response] is [None] when the object has no such key. *)
Record t `{Temporal} `{Runtime} := {
  id : option string;
  title : option string;
  description : option string;
  start : DateValue;
  end_ : DateValue;
  allDay : bool;
  location : option string;
  status : option string;
  attendees : list Attendee.t;
  url : option string;
  providerId : string;
  accountId : string;
  calendarId : string;
  readOnly : bool;
  conference : option Conference.t;
  response : option Response.t
}.
End CalendarEvent.

Module Task.
Record t `{Temporal} := {
  id : option string;
  title : option string;
  completed : option PlainDate;
  description : option string;
  due : option PlainDate;
  providerId : string;
  accountId : string;
  taskCollectionId : string
}.
End Task.

(** ** Input schemas (schemas/): a create input has no [id] key, an update
    input has one. *)

Module EventInput.
Record t `{Temporal} `{Runtime} := {
  id : option string;
  title : option string;
  description : option string;
  location : option string;
  start : DateValue;
  end_ : DateValue;
  conference : option Conference.t
}.
End EventInput.

Module TaskInput.
Record t `{Temporal} := {
  id : option string;
  title : option string;
  description : option string;
  due : option PlainDate;
  completed : option PlainDate;
  taskCollectionId : option string
}.
End TaskInput.

(** ** Provider shapes (google-calendar/interfaces) *)

(** [event.start] and [event.end]: [GoogleCalendarDate] has [date],
    [GoogleCalendarDateTime] has [dateTime] and an optional [timeZone]. *)
Module GoogleCalendarDate.
Record t := {
  date : option string;
  dateTime : option string;
  timeZone : option string
}.
End GoogleCalendarDate.

Module GoogleCalendarEventAttendee.
Record t := {
  id : option string;
  email : option string;
  displayName : option string;
  self : option bool;
  responseStatus : option string;
  comment : option string;
  resource : option bool;
  optional : option bool;
  additionalGuests : option Z
}.
End GoogleCalendarEventAttendee.

Module EntryPoint.
Record t := {
  entryPointType : option string;
  uri : option string;
  label : option string;
  meetingCode : option string;
  accessCode : option string;
  password : option string;
  passcode : option string;
  pin : option string
}.
End EntryPoint.

Module ConferenceSolution.
(** [key_type] is [key.type]. *)
Record t := { name : option string; key_type : option string }.
End ConferenceSolution.

Module GoogleCalendarEventConferenceData.
(** [parameters] is [parameters.addOnParameters.parameters]. *)
Record t := {
  conferenceId : option string;
  conferenceSolution : option ConferenceSolution.t;
  entryPoints : option (list EntryPoint.t);
  parameters : option (list (string * string))
}.
End GoogleCalendarEventConferenceData.

Module GoogleCalendarEvent.
(** [source_url] is [source?.url], [gadget_link] is [gadget?.link], and an
    attachment is kept as its [fileUrl]. *)
Record t := {
  id : option string;
  summary : option string;
  description : option string;
  start : option GoogleCalendarDate.t;
  end_ : option GoogleCalendarDate.t;
  location : option string;
  status : option string;
  attendees : option (list GoogleCalendarEventAttendee.t);
  htmlLink : option string;
  conferenceData : option GoogleCalendarEventConferenceData.t;
  hangoutLink : option string;
  source_url : option string;
  attachments : option (list (option string));
  gadget_link : option string
}.
End GoogleCalendarEvent.

Module GoogleCalendarEventCreateParams.
Record t := {
  id : option string;
  summary : option string;
  description : option string;
  location : option string;
  start : GoogleCalendarDate.t;
  end_ : GoogleCalendarDate.t;
  conferenceData : option GoogleCalendarEventConferenceData.t;
  conferenceDataVersion : Z
}.
End GoogleCalendarEventCreateParams.

Module GoogleCalendarCalendarListEntry.
Record t := {
  id : option string;
  summary : option string;
  summaryOverride : option string;
  description : option string;
  timeZone : option string;
  primary : option bool;
  accessRole : option string;
  backgroundColor : option string
}.
End GoogleCalendarCalendarListEntry.

Module GoogleTask.
Record t := {
  id : option string;
  title : option string;
  completed : option string;
  notes : option string;
  due : option string
}.
End GoogleTask.

Module GoogleTaskUpdateParams.
Record t := {
  id : option string;
  title : option string;
  notes : option string;
  due : option string;
  status : string;
  completed : option string;
  tasklist : option string
}.
End GoogleTaskUpdateParams.

(** ** Effects

    The adapter throws, asks the meeting-link detector, and prints one debug
    line.  A computation is the list of the external calls it makes, in order,
    with its outcome. *)

Inductive exn :=
| Error (message : string)   (* [throw new Error(message)] *)
| TypeError                  (* raised by the runtime or by Temporal *)
| RangeError.                (* raised by Temporal *)

Inductive effect :=
| ConsoleLog (payload : option GoogleCalendarEventConferenceData.t)
| Detect (url : string).

Definition M (A : Type) : Type := list effect * (exn + A).

Definition ret {A : Type} (a : A) : M A := ([], inr a).

Definition throw {A : Type} (e : exn) : M A := ([], inl e).

Definition bind {A B : Type} (c : M A) (k : A -> M B) : M B :=
  match c with
  | (t, inl e) => (t, inl e)
  | (t, inr a) => let (t', r) := k a in ((t ++ t')%list, r)
  end.

Declare Scope adapter_scope.
Delimit Scope adapter_scope with adapter.
Notation "x <- c ;; k" := (bind c (fun x => k))
  (at level 61, c at next level, right associativity) : adapter_scope.
Open Scope adapter_scope.

(** The calls a computation made. *)
Definition trace {A : Type} (c : M A) : list effect := fst c.

(** The URLs the detector was asked about, in order. *)
Definition detector_calls {A : Type} (c : M A) : list string :=
  flat_map (fun e => match e with Detect u => [u] | ConsoleLog _ => [] end)
           (trace c).

(** The value a computation returned, if it did not throw. *)
Definition returned {A : Type} (c : M A) : option A :=
  match snd c with
  | inr a => Some a
  | inl _ => None
  end.

(** A computation that throws nothing of its own making: whatever it raises
    comes from the runtime or from Temporal. *)
Definition no_Error {A : Type} (c : M A) : Prop :=
  forall message, snd c <> inl (Error message).

(** A computation that does not throw at all. *)
Definition total {A : Type} (c : M A) : Prop := exists a, snd c = inr a.

(** [if (x) { body }] inside a function that returns from [body] on a hit:
    [None] means control falls through. *)
Definition if_truthy {A : Type} (x : option string)
    (body : string -> M (option A)) : M (option A) :=
  match x with
  | Some (String _ _ as v) => body v
  | _ => ret None
  end.

(** Sequencing of two such blocks: the second runs only when the first fell
    through. *)
Definition or_continue {A : Type} (step next : M (option A)) : M (option A) :=
  r <- step ;;
  match r with
  | Some a => ret (Some a)
  | None => next
  end.

(** [e.entryPointType === kind]. *)
Definition has_type (kind : string) (e : EntryPoint.t) : bool :=
  match EntryPoint.entryPointType e with
  | Some k => String.eqb k kind
  | None => false
  end.

(** ** Conversions that need no collaborator *)

Definition toGoogleCalendarAttendeeResponseStatus (status : string) : string :=
  if String.eqb status "unknown" then "needsAction" else status.

Definition parseGoogleCalendarAttendeeStatus (status : string) : string :=
  if String.eqb status "needsAction" then "unknown" else status.

Definition parseGoogleCalendarAttendeeType
    (attendee : GoogleCalendarEventAttendee.t) : AttendeeType :=
  if Js.truthyb (GoogleCalendarEventAttendee.resource attendee) then resource
  else if Js.truthyb (GoogleCalendarEventAttendee.optional attendee) then optional
  else required.

(** The status is read through a cast from [string | undefined]; [undefined]
    is not [needsAction] and comes back unchanged. *)
Definition parseGoogleCalendarAttendee
    (attendee : GoogleCalendarEventAttendee.t) : Attendee.t :=
  {| Attendee.id := GoogleCalendarEventAttendee.id attendee;
     Attendee.email := GoogleCalendarEventAttendee.email attendee;
     Attendee.name := GoogleCalendarEventAttendee.displayName attendee;
     Attendee.status :=
       option_map parseGoogleCalendarAttendeeStatus
                  (GoogleCalendarEventAttendee.responseStatus attendee);
     Attendee.type := parseGoogleCalendarAttendeeType attendee;
     Attendee.comment := GoogleCalendarEventAttendee.comment attendee;
     Attendee.additionalGuests :=
       GoogleCalendarEventAttendee.additionalGuests attendee |}.

Definition parseResponseStatus (event : GoogleCalendarEvent.t)
  : option Response.t :=
  let selfAttendee :=
    match GoogleCalendarEvent.attendees event with
    | Some l => find (fun a => Js.truthyb (GoogleCalendarEventAttendee.self a)) l
    | None => None
    end in
  match selfAttendee with
  | None => None
  | Some a =>
      Some {| Response.status :=
                option_map parseGoogleCalendarAttendeeStatus
                           (GoogleCalendarEventAttendee.responseStatus a);
              Response.comment := GoogleCalendarEventAttendee.comment a |}
  end.

Definition parseGoogleCalendarCalendarListEntry
    (accountId : string) (entry : GoogleCalendarCalendarListEntry.t)
  : M Calendar.t :=
  match GoogleCalendarCalendarListEntry.id entry with
  | Some (String _ _ as id) =>
      let accessRole := GoogleCalendarCalendarListEntry.accessRole entry in
      ret {| Calendar.id := id;
             Calendar.name :=
               match GoogleCalendarCalendarListEntry.summaryOverride entry with
               | Some n => Some n
               | None => GoogleCalendarCalendarListEntry.summary entry
               end;
             Calendar.description :=
               GoogleCalendarCalendarListEntry.description entry;
             Calendar.timeZone := GoogleCalendarCalendarListEntry.timeZone entry;
             Calendar.primary := GoogleCalendarCalendarListEntry.primary entry;
             Calendar.readOnly :=
               match accessRole with
               | Some r => String.eqb r "reader" || String.eqb r "freeBusyReader"
               | None => false
               end;
             Calendar.providerId := "google";
             Calendar.accountId := accountId;
             Calendar.color :=
               GoogleCalendarCalendarListEntry.backgroundColor entry |}
  | _ => throw (Error "Calendar ID is missing")
  end.

(** ** Conversions over the collaborators *)

Section Adapter.

Context {T : Temporal} {L : MeetingLinks} {R : Runtime}.

(** A call of the detector. *)
Definition detect (url : string) : M (option MeetingService.t) :=
  ([Detect url], inr (detectMeetingLink url)).

(** [console.log(JSON.stringify(data, null, 2))]. *)
Definition console_log (data : option GoogleCalendarEventConferenceData.t)
  : M unit :=
  ([ConsoleLog data], inr tt).

Definition toGoogleCalendarDate (value : DateValue) : GoogleCalendarDate.t :=
  match value with
  | OfPlainDate d =>
      {| GoogleCalendarDate.date := Some (PlainDate_toString d);
         GoogleCalendarDate.dateTime := None;
         GoogleCalendarDate.timeZone := None |}
  | OfInstant i =>
      {| GoogleCalendarDate.date := None;
         GoogleCalendarDate.dateTime := Some (Instant_toString i);
         GoogleCalendarDate.timeZone := None |}
  | OfZonedDateTime z =>
      {| GoogleCalendarDate.date := None;
         GoogleCalendarDate.dateTime := Some (ZonedDateTime_toString z);
         GoogleCalendarDate.timeZone := Some (timeZoneId z) |}
  end.

(** [Temporal.PlainDate.from(x)]: a [TypeError] on [undefined], a
    [RangeError] on a string that is no date. *)
Definition PlainDate_from_value (x : option string) : M PlainDate :=
  match x with
  | None => throw TypeError
  | Some s =>
      match PlainDate_from s with
      | Some d => ret d
      | None => throw RangeError
      end
  end.

(** [Temporal.Instant.from(x)]. *)
Definition Instant_from_value (x : option string) : M Instant :=
  match x with
  | None => throw TypeError
  | Some s =>
      match Instant_from s with
      | Some i => ret i
      | None => throw RangeError
      end
  end.

(** The argument is [event.start] or [event.end] under a cast; destructuring
    [undefined] is a [TypeError]. *)
Definition parseDate (arg : option GoogleCalendarDate.t) : M PlainDate :=
  match arg with
  | None => throw TypeError
  | Some d => PlainDate_from_value (GoogleCalendarDate.date d)
  end.

Definition parseDateTime (arg : option GoogleCalendarDate.t) : M DateValue :=
  match arg with
  | None => throw TypeError
  | Some d =>
      instant <- Instant_from_value (GoogleCalendarDate.dateTime d) ;;
      match GoogleCalendarDate.timeZone d with
      | Some (String _ _ as timeZone) =>
          match toZonedDateTimeISO instant timeZone with
          | Some z => ret (OfZonedDateTime z)
          | None => throw RangeError
          end
      | _ => ret (OfInstant instant)
      end
  end.

Definition toJoinUrl (joinUrl : string) : string :=
  match new_URL joinUrl with
  | Some url => URL.hostname url ++ URL.pathname url
  | None => joinUrl
  end.

(** The entry point pushed for [conference.video]. *)
Definition videoEntryPoint (video : ConferenceEntryPoint.t) : EntryPoint.t :=
  let joinUrl := ConferenceEntryPoint.joinUrl video in
  let meetingCode := ConferenceEntryPoint.meetingCode video in
  let password := ConferenceEntryPoint.password video in
  {| EntryPoint.entryPointType := Some "video";
     EntryPoint.uri := Some (JoinUrl.value joinUrl);
     EntryPoint.meetingCode := Js.spread_if meetingCode meetingCode;
     EntryPoint.accessCode := Js.spread_if meetingCode meetingCode;
     EntryPoint.password := Js.spread_if password password;
     EntryPoint.passcode := Js.spread_if password password;
     EntryPoint.pin := None;
     EntryPoint.label :=
       Js.or_else (JoinUrl.label joinUrl) (Some (toJoinUrl (JoinUrl.value joinUrl))) |}.

(** The entry point pushed for [conference.sip]. *)
Definition sipEntryPoint (sip : ConferenceEntryPoint.t) : EntryPoint.t :=
  let joinUrl := ConferenceEntryPoint.joinUrl sip in
  let meetingCode := ConferenceEntryPoint.meetingCode sip in
  let password := ConferenceEntryPoint.password sip in
  {| EntryPoint.entryPointType := Some "sip";
     EntryPoint.uri := Some (JoinUrl.value joinUrl);
     EntryPoint.meetingCode := Js.spread_if meetingCode meetingCode;
     EntryPoint.accessCode := Js.spread_if meetingCode meetingCode;
     EntryPoint.password := Js.spread_if password password;
     EntryPoint.passcode := Js.spread_if password password;
     EntryPoint.pin := None;
     EntryPoint.label := JoinUrl.label joinUrl |}.

(** The entry point pushed for one element of [conference.phone]. *)
Definition phoneEntryPoint (phoneEntry : ConferenceEntryPoint.t)
  : EntryPoint.t :=
  let joinUrl := ConferenceEntryPoint.joinUrl phoneEntry in
  let accessCode := ConferenceEntryPoint.accessCode phoneEntry in
  {| EntryPoint.entryPointType := Some "phone";
     EntryPoint.uri :=
       Some (if Js.startsWith (JoinUrl.value joinUrl) "tel:"
             then JoinUrl.value joinUrl
             else "tel:" ++ JoinUrl.value joinUrl);
     EntryPoint.label :=
       Js.or_else (JoinUrl.label joinUrl) (Some (JoinUrl.value joinUrl));
     EntryPoint.accessCode := Js.spread_if accessCode accessCode;
     EntryPoint.pin := Js.spread_if accessCode accessCode;
     EntryPoint.meetingCode := None;
     EntryPoint.password := None;
     EntryPoint.passcode := None |}.

(** The [entryPoints] array after the three pushes. *)
Definition outboundEntryPoints (conference : Conference.t)
  : list EntryPoint.t :=
  (match Conference.video conference with
   | Some video =>
       if Js.truthy (Some (JoinUrl.value (ConferenceEntryPoint.joinUrl video)))
       then [videoEntryPoint video] else []
   | None => []
   end ++
   match Conference.sip conference with
   | Some sip =>
       if Js.truthy (Some (JoinUrl.value (ConferenceEntryPoint.joinUrl sip)))
       then [sipEntryPoint sip] else []
   | None => []
   end ++
   match Conference.phone conference with
   | Some phone => map phoneEntryPoint phone
   | None => []
   end)%list.

Definition conferenceSolutionType (conference : Conference.t) : string :=
  match Conference.name conference with
  | Some (String _ _ as name) =>
      if Js.includes (Js.toLowerCase name) "google"
      then "hangoutsMeet"
      else "addOn"
  | _ => "hangoutsMeet"
  end.

Definition toGoogleCalendarConferenceData (conference : Conference.t)
  : GoogleCalendarEventConferenceData.t :=
  let entryPoints := outboundEntryPoints conference in
  {| GoogleCalendarEventConferenceData.conferenceId :=
       Conference.conferenceId conference;
     GoogleCalendarEventConferenceData.conferenceSolution :=
       Some {| ConferenceSolution.name :=
                 Some (Js.nullish (Conference.name conference) "Google Meet");
               ConferenceSolution.key_type :=
                 Some (conferenceSolutionType conference) |};
     GoogleCalendarEventConferenceData.entryPoints :=
       match entryPoints with
       | [] => None
       | _ :: _ => Some entryPoints
       end;
     GoogleCalendarEventConferenceData.parameters :=
       option_map (map (fun kv => (fst kv, String_ (snd kv))))
                  (Conference.extra conference) |}.

Definition toGoogleCalendarEvent (event : EventInput.t)
  : GoogleCalendarEventCreateParams.t :=
  {| GoogleCalendarEventCreateParams.id := EventInput.id event;
     GoogleCalendarEventCreateParams.summary := EventInput.title event;
     GoogleCalendarEventCreateParams.description :=
       EventInput.description event;
     GoogleCalendarEventCreateParams.location := EventInput.location event;
     GoogleCalendarEventCreateParams.start :=
       toGoogleCalendarDate (EventInput.start event);
     GoogleCalendarEventCreateParams.end_ :=
       toGoogleCalendarDate (EventInput.end_ event);
     GoogleCalendarEventCreateParams.conferenceData :=
       option_map toGoogleCalendarConferenceData (EventInput.conference event);
     GoogleCalendarEventCreateParams.conferenceDataVersion := 1%Z |}.

Definition extractUrls (text : string) : list string :=
  UrlRegex.extractUrls text.

(** The object [checkMeetingLink] returns for a recognised service. *)
Definition meetingLinkConference (service : MeetingService.t) : Conference.t :=
  {| Conference.id := Some (MeetingService.id service);
     Conference.name := Some (MeetingService.name service);
     Conference.video :=
       Some {| ConferenceEntryPoint.joinUrl :=
                 {| JoinUrl.label := None;
                    JoinUrl.value := MeetingService.joinUrl service |};
               ConferenceEntryPoint.meetingCode :=
                 Some (MeetingService.id service);
               ConferenceEntryPoint.accessCode := None;
               ConferenceEntryPoint.password := None |};
     Conference.conferenceId := None;
     Conference.sip := None;
     Conference.phone := None;
     Conference.extra := None |}.

Definition checkMeetingLink (url : string) : M (option Conference.t) :=
  service <- detect url ;;
  match service with
  | Some service => ret (Some (meetingLinkConference service))
  | None => ret None
  end.

(** [for (const url of urls) { ...; if (service) return service; }] *)
Fixpoint check_each (urls : list string) : M (option Conference.t) :=
  match urls with
  | [] => ret None
  | url :: rest => or_continue (checkMeetingLink url) (check_each rest)
  end.

(** The loop over [event.attachments], which skips an attachment without a
    [fileUrl]. *)
Fixpoint check_attachments (attachments : list (option string))
  : M (option Conference.t) :=
  match attachments with
  | [] => ret None
  | fileUrl :: rest =>
      or_continue (if_truthy fileUrl checkMeetingLink) (check_attachments rest)
  end.

Definition parseGoogleCalendarConferenceFallback (event : GoogleCalendarEvent.t)
  : M (option Conference.t) :=
  (* 1. hangoutLink *)
  or_continue (if_truthy (GoogleCalendarEvent.hangoutLink event) checkMeetingLink)
  (* 2. description *)
  (or_continue (if_truthy (GoogleCalendarEvent.description event)
                          (fun text => check_each (extractUrls text)))
  (* 3. location *)
  (or_continue (if_truthy (GoogleCalendarEvent.location event)
                          (fun text => check_each (extractUrls text)))
  (* 4. source.url *)
  (or_continue (if_truthy (GoogleCalendarEvent.source_url event) checkMeetingLink)
  (* 6. attachments *)
  (or_continue (match GoogleCalendarEvent.attachments event with
                | Some attachments => check_attachments attachments
                | None => ret None
                end)
  (* 7. gadget.link *)
  (or_continue (if_truthy (GoogleCalendarEvent.gadget_link event) checkMeetingLink)
  (ret None)))))).

(** The domain entry point built from a provider entry point whose [uri] is
    [value]. *)
Definition inboundEntryPoint (value : string) (entryPoint : EntryPoint.t)
  : ConferenceEntryPoint.t :=
  {| ConferenceEntryPoint.joinUrl :=
       {| JoinUrl.label := EntryPoint.label entryPoint;
          JoinUrl.value := value |};
     ConferenceEntryPoint.meetingCode := EntryPoint.meetingCode entryPoint;
     ConferenceEntryPoint.accessCode := EntryPoint.accessCode entryPoint;
     ConferenceEntryPoint.password := EntryPoint.password entryPoint |}.

(** [e && e.uri && { key: entry }]: the entry when [e] exists and its [uri]
    is truthy. *)
Definition inboundOptional (e : option EntryPoint.t)
  : option ConferenceEntryPoint.t :=
  match e with
  | Some e =>
      match EntryPoint.uri e with
      | Some (String _ _ as uri) => Some (inboundEntryPoint uri e)
      | _ => None
      end
  | None => None
  end.

(** The structured branch, on the non-empty [entryPoints] of
    [conferenceData]. *)
Definition parseStructured (conferenceData : GoogleCalendarEventConferenceData.t)
    (entryPoints : list EntryPoint.t) : M (option Conference.t) :=
  let videoEntryPoint := find (has_type "video") entryPoints in
  let sipEntryPoint := find (has_type "sip") entryPoints in
  let phoneEntryPoints :=
    filter (fun e => has_type "phone" e && Js.truthy (EntryPoint.uri e))
           entryPoints in
  id <- match videoEntryPoint with
        | Some e =>
            match EntryPoint.uri e with
            | Some (String _ _ as uri) =>
                service <- detect uri ;;
                ret (option_map MeetingService.id service)
            | _ => ret None
            end
        | None => ret None
        end ;;
  ret (Some {| Conference.id := id;
               Conference.conferenceId :=
                 GoogleCalendarEventConferenceData.conferenceId conferenceData;
               Conference.name :=
                 match GoogleCalendarEventConferenceData.conferenceSolution
                         conferenceData with
                 | Some solution => ConferenceSolution.name solution
                 | None => None
                 end;
               Conference.video := inboundOptional videoEntryPoint;
               Conference.sip := inboundOptional sipEntryPoint;
               Conference.phone :=
                 match phoneEntryPoints with
                 | [] => None
                 | _ :: _ =>
                     Some (map (fun e =>
                                  inboundEntryPoint
                                    (Js.nullish (EntryPoint.uri e) "") e)
                               phoneEntryPoints)
                 end;
               Conference.extra := None |}).

Definition parseGoogleCalendarConferenceData (event : GoogleCalendarEvent.t)
  : M (option Conference.t) :=
  _ <- console_log (GoogleCalendarEvent.conferenceData event) ;;
  match GoogleCalendarEvent.conferenceData event with
  | Some conferenceData =>
      match GoogleCalendarEventConferenceData.entryPoints conferenceData with
      | Some ((_ :: _) as entryPoints) =>
          parseStructured conferenceData entryPoints
      | _ => parseGoogleCalendarConferenceFallback event
      end
  | None => parseGoogleCalendarConferenceFallback event
  end.

(** [!event.start?.dateTime]. *)
Definition isAllDay (event : GoogleCalendarEvent.t) : bool :=
  negb (Js.truthy match GoogleCalendarEvent.start event with
                  | Some start => GoogleCalendarDate.dateTime start
                  | None => None
                  end).

(** [isAllDay ? parseDate(arg) : parseDateTime(arg)], for [event.start] and
    [event.end]. *)
Definition readDate (isAllDay : bool) (arg : option GoogleCalendarDate.t)
  : M DateValue :=
  if isAllDay
  then d <- parseDate arg ;; ret (OfPlainDate d)
  else parseDateTime arg.

Definition parseGoogleCalendarEvent (calendar : Calendar.t)
    (accountId : string) (event : GoogleCalendarEvent.t) : M CalendarEvent.t :=
  let isAllDay := isAllDay event in
  let response := parseResponseStatus event in
  start <- readDate isAllDay (GoogleCalendarEvent.start event) ;;
  end_ <- readDate isAllDay (GoogleCalendarEvent.end_ event) ;;
  conference <- parseGoogleCalendarConferenceData event ;;
  ret {| CalendarEvent.id := GoogleCalendarEvent.id event;
         CalendarEvent.title := GoogleCalendarEvent.summary event;
         CalendarEvent.description := GoogleCalendarEvent.description event;
         CalendarEvent.start := start;
         CalendarEvent.end_ := end_;
         CalendarEvent.allDay := isAllDay;
         CalendarEvent.location := GoogleCalendarEvent.location event;
         CalendarEvent.status := GoogleCalendarEvent.status event;
         CalendarEvent.attendees :=
           match GoogleCalendarEvent.attendees event with
           | Some l => map parseGoogleCalendarAttendee l
           | None => []
           end;
         CalendarEvent.url := GoogleCalendarEvent.htmlLink event;
         CalendarEvent.providerId := "google";
         CalendarEvent.accountId := accountId;
         CalendarEvent.calendarId := Calendar.id calendar;
         CalendarEvent.readOnly := Calendar.readOnly calendar;
         CalendarEvent.conference := conference;
         CalendarEvent.response := response |}.

(** [Temporal.PlainDate.from(date.split(T)[0])]. *)
Definition parseGoogleTaskDate (date : string) : M PlainDate :=
  PlainDate_from_value (Some (Js.split_head "T" date)).

(** [x ? parseGoogleTaskDate(x) : undefined]. *)
Definition parseOptionalTaskDate (x : option string) : M (option PlainDate) :=
  match x with
  | Some (String _ _ as date) =>
      d <- parseGoogleTaskDate date ;; ret (Some d)
  | _ => ret None
  end.

Definition parseGoogleTask (task : GoogleTask.t) (collectionId : string)
    (accountId : string) : M Task.t :=
  completed <- parseOptionalTaskDate (GoogleTask.completed task) ;;
  due <- parseOptionalTaskDate (GoogleTask.due task) ;;
  ret {| Task.id := GoogleTask.id task;
         Task.title := GoogleTask.title task;
         Task.completed := completed;
         Task.description := GoogleTask.notes task;
         Task.due := due;
         Task.providerId := "google";
         Task.accountId := accountId;
         Task.taskCollectionId := collectionId |}.

Definition toGoogleTask (task : TaskInput.t) : GoogleTaskUpdateParams.t :=
  {| GoogleTaskUpdateParams.id := TaskInput.id task;
     GoogleTaskUpdateParams.title := TaskInput.title task;
     GoogleTaskUpdateParams.notes := TaskInput.description task;
     GoogleTaskUpdateParams.due :=
       option_map PlainDate_toString (TaskInput.due task);
     GoogleTaskUpdateParams.status :=
       match TaskInput.completed task with
       | Some _ => "completed"
       | None => "needsAction"
       end;
     GoogleTaskUpdateParams.completed :=
       option_map PlainDate_toString (TaskInput.completed task);
     GoogleTaskUpdateParams.tasklist := TaskInput.taskCollectionId task |}.

End Adapter.


(** ** Stand-ins for the collaborators

    Small implementations of the three interfaces, used to run the
    conversions on concrete payloads. *)
Module Sample.

(** Dates are kept as their text; a plain date is ten units long, an instant
    is longer, and the only unknown zone id is [Nowhere]. *)
Definition temporal : Temporal :=
  {| PlainDate := string;
     Instant := string;
     ZonedDateTime := string * string;
     PlainDate_from := fun s => if (String.length s =? 10)%nat then Some s else None;
     Instant_from := fun s => if (10 <? String.length s)%nat then Some s else None;
     toZonedDateTimeISO :=
       fun i zone => if String.eqb zone "Nowhere" then None else Some (i, zone);
     PlainDate_toString := fun d => d;
     Instant_toString := fun i => i;
     ZonedDateTime_toString := fun z => fst z;
     timeZoneId := fun z => snd z |}.

(** Only Google Meet links are recognised. *)
Definition links : MeetingLinks :=
  {| detectMeetingLink :=
       fun url =>
         if Js.startsWith url "https://meet.google.com/"
         then Some {| MeetingService.id := "google-meet";
                      MeetingService.name := "Google Meet";
                      MeetingService.joinUrl := url |}
         else None |}.

(** Only https URLs parse; the host name ends at the first slash. *)
Definition runtime : Runtime :=
  {| Unknown := string;
     String_ := fun v => v;
     new_URL :=
       fun url =>
         match UrlRegex.strip "https://" url with
         | Some rest =>
             let host := Js.split_head "/" rest in
             Some {| URL.hostname := host;
                     URL.pathname :=
                       match UrlRegex.strip host rest with
                       | Some (String _ _ as path) => path
                       | _ => "/"
                       end |}
         | None => None
         end |}.

End Sample.

(** ** Concrete payloads *)

Section Payloads.

Context {R : Runtime}.

(** A domain entry point with a join URL and nothing else. *)
Definition entry_at (value : string) : ConferenceEntryPoint.t :=
  {| ConferenceEntryPoint.joinUrl := {| JoinUrl.label := None; JoinUrl.value := value |};
     ConferenceEntryPoint.meetingCode := None;
     ConferenceEntryPoint.accessCode := None;
     ConferenceEntryPoint.password := None |}.

(** A conference with the given name and entries. *)
Definition conference_of (name : option string)
    (video sip : option ConferenceEntryPoint.t)
    (phone : option (list ConferenceEntryPoint.t)) : Conference.t :=
  {| Conference.id := None;
     Conference.conferenceId := None;
     Conference.name := name;
     Conference.video := video;
     Conference.sip := sip;
     Conference.phone := phone;
     Conference.extra := None |}.

(** Two dial-in numbers, one bare and one already in the tel scheme. *)
Definition dial_in : Conference.t :=
  conference_of None None None
                (Some [entry_at "15551234567"; entry_at "tel:555"]).

(** The phone entry points of an outbound payload. *)
Definition phone_entry_points (data : GoogleCalendarEventConferenceData.t)
  : list EntryPoint.t :=
  filter (has_type "phone")
         (Js.nullish (GoogleCalendarEventConferenceData.entryPoints data) []).

End Payloads.

(** A conference that has only a name. *)
Definition named {R : Runtime} (name : string) : Conference.t :=
  conference_of (Some name) None None None.

(** A video entry protected by a password. *)
Definition locked_entry : ConferenceEntryPoint.t :=
  {| ConferenceEntryPoint.joinUrl :=
       {| JoinUrl.label := None;
          JoinUrl.value := "https://meet.google.com/abc-defg-hij" |};
     ConferenceEntryPoint.meetingCode := Some "abc-defg-hij";
     ConferenceEntryPoint.accessCode := None;
     ConferenceEntryPoint.password := Some "secret" |}.

(** A conference with that video entry only. *)
Definition locked_video {R : Runtime} : Conference.t :=
  conference_of None (Some locked_entry) None None.

(** The service the stand-in detector reports for a Meet link. *)
Definition meet_service (url : string) : MeetingService.t :=
  {| MeetingService.id := "google-meet";
     MeetingService.name := "Google Meet";
     MeetingService.joinUrl := url |}.

(** A provider date without a time. *)
Definition on_day (date : string) : GoogleCalendarDate.t :=
  {| GoogleCalendarDate.date := Some date;
     GoogleCalendarDate.dateTime := None;
     GoogleCalendarDate.timeZone := None |}.

(** A provider date-time. *)
Definition at_time (dateTime : string) (timeZone : option string)
  : GoogleCalendarDate.t :=
  {| GoogleCalendarDate.date := None;
     GoogleCalendarDate.dateTime := Some dateTime;
     GoogleCalendarDate.timeZone := timeZone |}.

(** A provider date that has a date and an empty dateTime. *)
Definition blank_time (date : string) : GoogleCalendarDate.t :=
  {| GoogleCalendarDate.date := Some date;
     GoogleCalendarDate.dateTime := Some "";
     GoogleCalendarDate.timeZone := None |}.

Definition guest (email : string) (self : option bool)
    (responseStatus comment : option string) : GoogleCalendarEventAttendee.t :=
  {| GoogleCalendarEventAttendee.id := None;
     GoogleCalendarEventAttendee.email := Some email;
     GoogleCalendarEventAttendee.displayName := None;
     GoogleCalendarEventAttendee.self := self;
     GoogleCalendarEventAttendee.responseStatus := responseStatus;
     GoogleCalendarEventAttendee.comment := comment;
     GoogleCalendarEventAttendee.resource := None;
     GoogleCalendarEventAttendee.optional := None;
     GoogleCalendarEventAttendee.additionalGuests := None |}.

(** A provider event without conference data. *)
Definition wire_event (start end_ : option GoogleCalendarDate.t)
    (attendees : option (list GoogleCalendarEventAttendee.t))
    (hangoutLink description : option string) : GoogleCalendarEvent.t :=
  {| GoogleCalendarEvent.id := Some "evt-1";
     GoogleCalendarEvent.summary := Some "Weekly sync";
     GoogleCalendarEvent.description := description;
     GoogleCalendarEvent.start := start;
     GoogleCalendarEvent.end_ := end_;
     GoogleCalendarEvent.location := None;
     GoogleCalendarEvent.status := Some "confirmed";
     GoogleCalendarEvent.attendees := attendees;
     GoogleCalendarEvent.htmlLink := None;
     GoogleCalendarEvent.conferenceData := None;
     GoogleCalendarEvent.hangoutLink := hangoutLink;
     GoogleCalendarEvent.source_url := None;
     GoogleCalendarEvent.attachments := None;
     GoogleCalendarEvent.gadget_link := None |}.

Definition work_calendar : Calendar.t :=
  {| Calendar.id := "work";
     Calendar.providerId := "google";
     Calendar.name := Some "Work";
     Calendar.description := None;
     Calendar.timeZone := None;
     Calendar.primary := Some true;
     Calendar.accountId := "account-1";
     Calendar.color := None;
     Calendar.readOnly := false |}.

(** An all-day event of one day. *)
Definition holiday : GoogleCalendarEvent.t :=
  wire_event (Some (on_day "2024-05-01")) (Some (on_day "2024-05-02"))
             None None None.

(** A timed event; its start carries a zone, its end does not.  The user has
    declined it. *)
Definition standup : GoogleCalendarEvent.t :=
  wire_event (Some (at_time "2024-05-01T09:00:00Z" (Some "Europe/Paris")))
             (Some (at_time "2024-05-01T09:15:00Z" None))
             (Some [guest "ann@example.com" None (Some "accepted") None;
                    guest "me@example.com" (Some true) (Some "needsAction")
                          (Some "running late");
                    guest "bob@example.com" (Some false) (Some "declined") None])
             None None.

(** An event whose start and end have a date and an empty dateTime. *)
Definition blank_time_event : GoogleCalendarEvent.t :=
  wire_event (Some (blank_time "2024-05-01")) (Some (blank_time "2024-05-02"))
             None None None.

(** An event with a Meet link as hangout link and another in its
    description. *)
Definition two_links : GoogleCalendarEvent.t :=
  wire_event (Some (on_day "2024-05-01")) (Some (on_day "2024-05-02")) None
             (Some "https://meet.google.com/aaa-bbbb-ccc")
             (Some "Join at https://meet.google.com/xxx-yyyy-zzz today").

(** An event whose description holds an unknown link followed by a Meet
    link. *)
Definition links_in_description : GoogleCalendarEvent.t :=
  wire_event (Some (on_day "2024-05-01")) (Some (on_day "2024-05-02")) None
             None
             (Some "Notes: http://example.com/doc, call: <https://meet.google.com/xxx-yyyy-zzz>").

(** A calendar-list entry with the given id. *)
Definition list_entry (id : option string) : GoogleCalendarCalendarListEntry.t :=
  {| GoogleCalendarCalendarListEntry.id := id;
     GoogleCalendarCalendarListEntry.summary := Some "Team";
     GoogleCalendarCalendarListEntry.summaryOverride := None;
     GoogleCalendarCalendarListEntry.description := None;
     GoogleCalendarCalendarListEntry.timeZone := None;
     GoogleCalendarCalendarListEntry.primary := Some false;
     GoogleCalendarCalendarListEntry.accessRole := Some "reader";
     GoogleCalendarCalendarListEntry.backgroundColor := None |}.

(** A provider entry point with a type and a URI and nothing else. *)
Definition wire_entry (kind : string) (uri : option string) : EntryPoint.t :=
  {| EntryPoint.entryPointType := Some kind;
     EntryPoint.uri := uri;
     EntryPoint.label := None;
     EntryPoint.meetingCode := None;
     EntryPoint.accessCode := None;
     EntryPoint.password := None;
     EntryPoint.passcode := None;
     EntryPoint.pin := None |}.

(** Conference data whose first video entry point has no URI. *)
Definition hidden_video_data : GoogleCalendarEventConferenceData.t :=
  {| GoogleCalendarEventConferenceData.conferenceId := Some "abc-defg-hij";
     GoogleCalendarEventConferenceData.conferenceSolution :=
       Some {| ConferenceSolution.name := Some "Google Meet";
               ConferenceSolution.key_type := Some "hangoutsMeet" |};
     GoogleCalendarEventConferenceData.entryPoints :=
       Some [wire_entry "more" (Some "https://tel.meet/abc");
             wire_entry "video" None;
             wire_entry "video" (Some "https://meet.google.com/abc-defg-hij");
             wire_entry "phone" (Some "tel:+15551234567");
             wire_entry "phone" None];
     GoogleCalendarEventConferenceData.parameters := None |}.

(** An event that starts on a day and ends at an instant. *)
Definition mixed_event : GoogleCalendarEvent.t :=
  wire_event (Some (on_day "2024-05-01"))
             (Some (at_time "2024-05-01T09:15:00Z" None)) None None None.

(** ** Wording of the specification *)

(** The capital of a small letter. *)
Definition capital (letter : ascii) : ascii :=
  ascii_of_nat (nat_of_ascii letter - 32).

(** [text] reads as [word] when the case of its letters is ignored; [word]
    is written in small letters. *)
Fixpoint reads_as (word text : string) : Prop :=
  match word, text with
  | EmptyString, EmptyString => True
  | String letter word', String c text' =>
      (c = letter \/ c = capital letter) /\ reads_as word' text'
  | _, _ => False
  end.

(** [text] contains [word] case-insensitively. *)
Definition contains_ignoring_case (word text : string) : Prop :=
  exists before stretch after,
    text = before ++ stretch ++ after /\ reads_as word stretch.

(** The value of a field, when it is a non-empty string. *)
Definition present (x : option string) : list string :=
  match x with
  | Some (String _ _ as v) => [v]
  | _ => []
  end.

(** The URLs the fallback scan considers, in its priority order: the hangout
    link, the URLs in the description, the URLs in the location, the source
    URL, the file URLs of the attachments, the gadget link. *)
Definition candidates (event : GoogleCalendarEvent.t) : list string :=
  (present (GoogleCalendarEvent.hangoutLink event) ++
   flat_map extractUrls (present (GoogleCalendarEvent.description event)) ++
   flat_map extractUrls (present (GoogleCalendarEvent.location event)) ++
   present (GoogleCalendarEvent.source_url event) ++
   flat_map present (Js.nullish (GoogleCalendarEvent.attachments event) []) ++
   present (GoogleCalendarEvent.gadget_link event))%list.

(** The structured entry points of an event: [event.conferenceData?.entryPoints],
    empty when there are none. *)
Definition entry_points_of (event : GoogleCalendarEvent.t) : list EntryPoint.t :=
  match GoogleCalendarEvent.conferenceData event with
  | Some conferenceData =>
      Js.nullish (GoogleCalendarEventConferenceData.entryPoints conferenceData) []
  | None => []
  end.

(** The event with [conferenceData] replaced. *)
Definition withConferenceData (event : GoogleCalendarEvent.t)
    (data : GoogleCalendarEventConferenceData.t) : GoogleCalendarEvent.t :=
  {| GoogleCalendarEvent.id := GoogleCalendarEvent.id event;
     GoogleCalendarEvent.summary := GoogleCalendarEvent.summary event;
     GoogleCalendarEvent.description := GoogleCalendarEvent.description event;
     GoogleCalendarEvent.start := GoogleCalendarEvent.start event;
     GoogleCalendarEvent.end_ := GoogleCalendarEvent.end_ event;
     GoogleCalendarEvent.location := GoogleCalendarEvent.location event;
     GoogleCalendarEvent.status := GoogleCalendarEvent.status event;
     GoogleCalendarEvent.attendees := GoogleCalendarEvent.attendees event;
     GoogleCalendarEvent.htmlLink := GoogleCalendarEvent.htmlLink event;
     GoogleCalendarEvent.conferenceData := Some data;
     GoogleCalendarEvent.hangoutLink := GoogleCalendarEvent.hangoutLink event;
     GoogleCalendarEvent.source_url := GoogleCalendarEvent.source_url event;
     GoogleCalendarEvent.attachments := GoogleCalendarEvent.attachments event;
     GoogleCalendarEvent.gadget_link := GoogleCalendarEvent.gadget_link event |}.

(** A conference sent out and read back on an event. *)
Definition roundTrip {L : MeetingLinks} {R : Runtime}
    (event : GoogleCalendarEvent.t) (conference : Conference.t)
  : M (option Conference.t) :=
  parseGoogleCalendarConferenceData
    (withConferenceData event (toGoogleCalendarConferenceData conference)).

(** A video or sip entry the outbound mapping sends: one whose join URL is
    not empty. *)
Definition sent (entry : option ConferenceEntryPoint.t)
  : option ConferenceEntryPoint.t :=
  match entry with
  | Some e =>
      if Js.truthy (Some (JoinUrl.value (ConferenceEntryPoint.joinUrl e)))
      then Some e else None
  | None => None
  end.

(** A code as it survives the trip: an empty one counts as absent. *)
Definition kept (code : option string) : option string :=
  match code with
  | Some (String _ _) => code
  | _ => None
  end.

(** The join URL value and the codes of a video or sip entry that came
    back. *)
Definition back_as_video_or_sip (entry back : ConferenceEntryPoint.t) : Prop :=
  JoinUrl.value (ConferenceEntryPoint.joinUrl back) =
    JoinUrl.value (ConferenceEntryPoint.joinUrl entry) /\
  ConferenceEntryPoint.meetingCode back =
    kept (ConferenceEntryPoint.meetingCode entry) /\
  ConferenceEntryPoint.accessCode back =
    kept (ConferenceEntryPoint.meetingCode entry) /\
  ConferenceEntryPoint.password back =
    kept (ConferenceEntryPoint.password entry).

(** What a video entry comes back as: its label is the one it had, or the
    host and path of its join URL when it had none. *)
Definition back_as_video {R : Runtime} (entry back : ConferenceEntryPoint.t)
  : Prop :=
  back_as_video_or_sip entry back /\
  JoinUrl.label (ConferenceEntryPoint.joinUrl back) =
    Js.or_else (JoinUrl.label (ConferenceEntryPoint.joinUrl entry))
               (Some (toJoinUrl (JoinUrl.value (ConferenceEntryPoint.joinUrl entry)))).

(** What a sip entry comes back as. *)
Definition back_as_sip (entry back : ConferenceEntryPoint.t) : Prop :=
  back_as_video_or_sip entry back /\
  JoinUrl.label (ConferenceEntryPoint.joinUrl back) =
    JoinUrl.label (ConferenceEntryPoint.joinUrl entry).

(** What a phone entry comes back as. *)
Definition back_as_phone (entry back : ConferenceEntryPoint.t) : Prop :=
  let value := JoinUrl.value (ConferenceEntryPoint.joinUrl entry) in
  JoinUrl.value (ConferenceEntryPoint.joinUrl back) =
    (if Js.startsWith value "tel:" then value else "tel:" ++ value) /\
  JoinUrl.label (ConferenceEntryPoint.joinUrl back) =
    Js.or_else (JoinUrl.label (ConferenceEntryPoint.joinUrl entry)) (Some value) /\
  ConferenceEntryPoint.accessCode back =
    kept (ConferenceEntryPoint.accessCode entry) /\
  ConferenceEntryPoint.meetingCode back = None /\
  ConferenceEntryPoint.password back = None.

(** The relation of the specification: the same join URL and the same three
    codes. *)
Definition same_entry_data (entry back : ConferenceEntryPoint.t) : Prop :=
  JoinUrl.value (ConferenceEntryPoint.joinUrl back) =
    JoinUrl.value (ConferenceEntryPoint.joinUrl entry) /\
  ConferenceEntryPoint.meetingCode back = ConferenceEntryPoint.meetingCode entry /\
  ConferenceEntryPoint.accessCode back = ConferenceEntryPoint.accessCode entry /\
  ConferenceEntryPoint.password back = ConferenceEntryPoint.password entry.

(** Every code unit below 256. *)
Definition all_units : list ascii := map ascii_of_nat (seq 0 256).

(** The small letters of the word google. *)
Definition google_letters : list ascii := ["g"; "o"; "l"; "e"]%char.

(** The solution an outbound payload always carries. *)
Definition solution_of (data : GoogleCalendarEventConferenceData.t)
  : ConferenceSolution.t :=
  Js.nullish (GoogleCalendarEventConferenceData.conferenceSolution data)
             {| ConferenceSolution.name := None;
                ConferenceSolution.key_type := None |}.

(** [event.start?.dateTime]. *)
Definition start_dateTime (event : GoogleCalendarEvent.t) : option string :=
  match GoogleCalendarEvent.start event with
  | Some start => GoogleCalendarDate.dateTime start
  | None => None
  end.

(** The three fields of a returned event that depend on the dates. *)
Definition dates_of {T : Temporal} {R : Runtime}
    (event : option CalendarEvent.t)
  : option (bool * DateValue * DateValue) :=
  option_map (fun e => (CalendarEvent.allDay e, CalendarEvent.start e,
                        CalendarEvent.end_ e)) event.

(** A text has the shape of the URL pattern: http or https in any letter
    case, a colon and two slashes, then one or more units that are neither
    white space nor delimiters. *)
Definition url_shaped (m : string) : Prop :=
  exists scheme run,
    m = scheme ++ "://" ++ run /\
    (reads_as "http" scheme \/ reads_as "https" scheme) /\
    run <> "" /\
    forall c, In c (list_ascii_of_string run) -> UrlRegex.url_unit c = true.

(** The text stops, or goes on with a unit that no URL can hold. *)
Definition url_ends (rest : string) : Prop :=
  match rest with
  | EmptyString => True
  | String c _ => UrlRegex.url_unit c = false
  end.

(** A text cut into stretches: a gap and a match, a gap and a match, and so
    on, then what is left. *)
Fixpoint weave (pieces : list (string * string)) (tail : string) : string :=
  match pieces with
  | [] => tail
  | (gap, m) :: rest => gap ++ m ++ weave rest tail
  end.

(** Every match of a cut has the URL shape and cannot be extended: what
    follows it stops or goes on with a unit no URL can hold. *)
Fixpoint well_cut (pieces : list (string * string)) (tail : string) : Prop :=
  match pieces with
  | [] => True
  | (gap, m) :: rest =>
      url_shaped m /\ url_ends (weave rest tail) /\ well_cut rest tail
  end.

(** The letters of the scheme. *)
Definition scheme_letters : list ascii := ["h"; "t"; "p"; "s"]%char.

(** The URI of the first entry point of a kind, when it is not empty. *)
Definition first_uri (kind : string) (entryPoints : list EntryPoint.t)
  : list string :=
  match find (has_type kind) entryPoints with
  | Some e => present (EntryPoint.uri e)
  | None => []
  end.

(** Whether a date value is a plain date. *)
Definition is_plain {T : Temporal} (v : DateValue) : bool :=
  match v with
  | OfPlainDate _ => true
  | _ => false
  end.

(** What has to hold of Temporal for a value to be read back from the text
    it is sent as: the text is not empty and parses to the value; for a zoned
    date-time the text parses to an instant that its zone takes back to it. *)
Definition reads_back {T : Temporal} (v : DateValue) : Prop :=
  match v with
  | OfPlainDate d => PlainDate_from (PlainDate_toString d) = Some d
  | OfInstant i =>
      Instant_toString i <> "" /\ Instant_from (Instant_toString i) = Some i
  | OfZonedDateTime z =>
      ZonedDateTime_toString z <> "" /\ timeZoneId z <> "" /\
      exists i, Instant_from (ZonedDateTime_toString z) = Some i /\
                toZonedDateTimeISO i (timeZoneId z) = Some z
  end.

(** The object [parseGoogleCalendarEvent] returns, given its dates and its
    conference. *)
Definition eventObject {T : Temporal} {R : Runtime} (calendar : Calendar.t)
    (accountId : string) (event : GoogleCalendarEvent.t)
    (start end_ : DateValue) (conference : option Conference.t)
  : CalendarEvent.t :=
  {| CalendarEvent.id := GoogleCalendarEvent.id event;
     CalendarEvent.title := GoogleCalendarEvent.summary event;
     CalendarEvent.description := GoogleCalendarEvent.description event;
     CalendarEvent.start := start;
     CalendarEvent.end_ := end_;
     CalendarEvent.allDay := isAllDay event;
     CalendarEvent.location := GoogleCalendarEvent.location event;
     CalendarEvent.status := GoogleCalendarEvent.status event;
     CalendarEvent.attendees :=
       match GoogleCalendarEvent.attendees event with
       | Some l => map parseGoogleCalendarAttendee l
       | None => []
       end;
     CalendarEvent.url := GoogleCalendarEvent.htmlLink event;
     CalendarEvent.providerId := "google";
     CalendarEvent.accountId := accountId;
     CalendarEvent.calendarId := Calendar.id calendar;
     CalendarEvent.readOnly := Calendar.readOnly calendar;
     CalendarEvent.conference := conference;
     CalendarEvent.response := parseResponseStatus event |}.

(** A text without the letter T. *)
Definition no_T (text : string) : Prop :=
  forall c, In c (list_ascii_of_string text) -> c <> "T"%char.

(** A date or timestamp of a provider task that is there, is not empty and
    whose part before the first T is no plain date. *)
Definition unreadable {T : Temporal} (x : option string) : Prop :=
  exists s, x = Some s /\ s <> "" /\ PlainDate_from (Js.split_head "T" s) = None.

(** What has to hold of Temporal for a plain date to be read back from the
    text it is sent as: the text is not empty, has no T, and parses to the
    date. *)
Definition plain_date_reads_back {T : Temporal} (d : PlainDate) : Prop :=
  PlainDate_toString d <> "" /\ no_T (PlainDate_toString d) /\
  PlainDate_from (PlainDate_toString d) = Some d.

(** An event with that conference data, a hangout link and a link in its
    description. *)
Definition hidden_video_event : GoogleCalendarEvent.t :=
  withConferenceData two_links hidden_video_data.

(** A text goes on with a URL: some stretch at its head has the shape of the
    pattern. *)
Definition starts_url (s : string) : Prop :=
  exists u rest, s = u ++ rest /\ url_shaped u.

(** No URL starts inside the gap, [after] being the text behind it. *)
Definition url_free (gap after : string) : Prop :=
  forall a b, gap = a ++ b -> b <> "" -> ~ starts_url (b ++ after).

(** No URL of the text is missed by a cut: none starts inside a gap or in
    what is left. *)
Fixpoint complete_cut (pieces : list (string * string)) (tail : string) : Prop :=
  match pieces with
  | [] => url_free tail ""
  | (gap, m) :: rest =>
      url_free gap (m ++ weave rest tail) /\ complete_cut rest tail
  end.

(** The URLs of a text, as the pattern defines them: the matches of the one
    cut of the text whose matches are URL-shaped and maximal and whose gaps
    hold no start of a URL. *)
Definition urls_of (text : string) (urls : list string) : Prop :=
  exists pieces tail,
    text = weave pieces tail /\ map snd pieces = urls /\
    well_cut pieces tail /\ complete_cut pieces tail.

(** The URLs of a text field: those of its text, none when the field is
    missing or empty. *)
Definition field_urls (field : option string) (urls : list string) : Prop :=
  match field with
  | Some (String _ _ as text) => urls_of text urls
  | _ => urls = []
  end.

(** The codes a video or sip entry point carries for an entry: the meeting
    code under meetingCode and accessCode, the password under password and
    passcode, an empty one counting as absent, and no pin. *)
Definition carries_video_or_sip_codes (entry : ConferenceEntryPoint.t)
    (e : EntryPoint.t) : Prop :=
  EntryPoint.meetingCode e = kept (ConferenceEntryPoint.meetingCode entry) /\
  EntryPoint.accessCode e = kept (ConferenceEntryPoint.meetingCode entry) /\
  EntryPoint.password e = kept (ConferenceEntryPoint.password entry) /\
  EntryPoint.passcode e = kept (ConferenceEntryPoint.password entry) /\
  EntryPoint.pin e = None.

(** The codes a phone entry point carries for an entry: the access code under
    accessCode and pin, and nothing under meetingCode, password, passcode. *)
Definition carries_phone_codes (entry : ConferenceEntryPoint.t)
    (e : EntryPoint.t) : Prop :=
  EntryPoint.accessCode e = kept (ConferenceEntryPoint.accessCode entry) /\
  EntryPoint.pin e = kept (ConferenceEntryPoint.accessCode entry) /\
  EntryPoint.meetingCode e = None /\
  EntryPoint.password e = None /\
  EntryPoint.passcode e = None.

(** The entry points of a kind in an outbound payload. *)
Definition entry_points_of_kind (kind : string)
    (data : GoogleCalendarEventConferenceData.t) : list EntryPoint.t :=
  filter (has_type kind)
         (Js.nullish (GoogleCalendarEventConferenceData.entryPoints data) []).

(** An entry with a join URL and the three codes. *)
Definition coded_entry (value : string) (meetingCode accessCode password : option string)
  : ConferenceEntryPoint.t :=
  {| ConferenceEntryPoint.joinUrl := {| JoinUrl.label := None; JoinUrl.value := value |};
     ConferenceEntryPoint.meetingCode := meetingCode;
     ConferenceEntryPoint.accessCode := accessCode;
     ConferenceEntryPoint.password := password |}.

(** A conference with a video, a sip and two phone entries, each with its
    codes; the second phone entry has an empty access code. *)
Definition bridge {R : Runtime} : Conference.t :=
  conference_of (Some "Bridge")
    (Some (coded_entry "https://meet.google.com/abc-defg-hij"
                       (Some "abc-defg-hij") (Some "other") (Some "secret")))
    (Some (coded_entry "sip:room@example.com" (Some "4242") None (Some "sip-word")))
    (Some [coded_entry "+15551234567" (Some "unused") (Some "9876") (Some "unused");
           coded_entry "tel:555" None (Some "") None]).

(** The conference a Meet link stands for with the stand-in detector. *)
Definition meet_conference {R : Runtime} (url : string) : Conference.t :=
  {| Conference.id := Some "google-meet";
     Conference.conferenceId := None;
     Conference.name := Some "Google Meet";
     Conference.video := Some (coded_entry url (Some "google-meet") None None);
     Conference.sip := None;
     Conference.phone := None;
     Conference.extra := None |}.

(** ** Properties *)

Section StatusMaps.

(** C6. The outbound status map sends unknown to needsAction and leaves every
    other status as it is; the inbound map sends needsAction to unknown and
    leaves every other status as it is; on the attendee statuses the inbound
    map undoes the outbound one, and on the provider statuses the outbound map
    undoes the inbound one. *)
Theorem attendee_status_maps_inverse :
  toGoogleCalendarAttendeeResponseStatus "unknown" = "needsAction" /\
  (forall s, s <> "unknown" -> toGoogleCalendarAttendeeResponseStatus s = s) /\
  parseGoogleCalendarAttendeeStatus "needsAction" = "unknown" /\
  (forall g, g <> "needsAction" -> parseGoogleCalendarAttendeeStatus g = g) /\
  (forall s, In s AttendeeStatus ->
     In (toGoogleCalendarAttendeeResponseStatus s)
        GoogleCalendarEventAttendeeResponseStatus /\
     parseGoogleCalendarAttendeeStatus
       (toGoogleCalendarAttendeeResponseStatus s) = s) /\
  (forall g, In g GoogleCalendarEventAttendeeResponseStatus ->
     In (parseGoogleCalendarAttendeeStatus g) AttendeeStatus /\
     toGoogleCalendarAttendeeResponseStatus
       (parseGoogleCalendarAttendeeStatus g) = g).
Proof.
  split; [reflexivity |].
  split.
  { intros s Hs. unfold toGoogleCalendarAttendeeResponseStatus.
    destruct (String.eqb_spec s "unknown"); congruence. }
  split; [reflexivity |].
  split.
  { intros g Hg. unfold parseGoogleCalendarAttendeeStatus.
    destruct (String.eqb_spec g "needsAction"); congruence. }
  split.
  - intros s Hs. simpl in Hs.
    repeat (destruct Hs as [<- | Hs]; [split; [simpl; tauto | reflexivity] |]).
    contradiction.
  - intros g Hg. simpl in Hg.
    repeat (destruct Hg as [<- | Hg]; [split; [simpl; tauto | reflexivity] |]).
    contradiction.
Qed.

Lemma attendee_status_maps_inverse_witness :
  toGoogleCalendarAttendeeResponseStatus "accepted" = "accepted" /\
  parseGoogleCalendarAttendeeStatus "declined" = "declined" /\
  parseGoogleCalendarAttendeeStatus
    (toGoogleCalendarAttendeeResponseStatus "unknown") = "unknown" /\
  toGoogleCalendarAttendeeResponseStatus
    (parseGoogleCalendarAttendeeStatus "needsAction") = "needsAction".
Proof.
  destruct attendee_status_maps_inverse as (_ & Hout & _ & Hin & Hio & Hoi).
  split; [apply Hout; discriminate |].
  split; [apply Hin; discriminate |].
  split.
  - apply (Hio "unknown"). simpl. tauto.
  - apply (Hoi "needsAction"). simpl. tauto.
Defined.

End StatusMaps.

Section Outbound.

Context {T : Temporal} {R : Runtime}.

(** C10. The request body of every create or update input carries
    conferenceDataVersion 1, whether the input has a conference, which is then
    sent as conferenceData, or has none. *)
Theorem conferenceDataVersion_always_1 :
  forall event : EventInput.t,
    GoogleCalendarEventCreateParams.conferenceDataVersion
      (toGoogleCalendarEvent event) = 1%Z /\
    GoogleCalendarEventCreateParams.conferenceData (toGoogleCalendarEvent event) =
    match EventInput.conference event with
    | Some conference => Some (toGoogleCalendarConferenceData conference)
    | None => None
    end.
Proof.
  intro event. split; [reflexivity |].
  unfold toGoogleCalendarEvent. simpl.
  now destruct (EventInput.conference event).
Qed.

End Outbound.


Section StringFacts.

Lemma prefix_iff_append (p s : string) :
  String.prefix p s = true <-> exists rest, s = p ++ rest.
Proof.
  revert s. induction p as [| a p IH]; intro s.
  - split; [intros _; now exists s | intros _; now destruct s].
  - destruct s as [| b s]; simpl.
    + split; [discriminate | intros [rest Hrest]; discriminate].
    + destruct (Ascii.ascii_dec a b) as [-> | Hne].
      * rewrite IH. split; intros [rest Hrest]; exists rest.
        -- now rewrite Hrest.
        -- now inversion Hrest.
      * split; [discriminate |].
        intros [rest Hrest]. inversion Hrest. congruence.
Qed.

End StringFacts.

Section OutboundConference.

Context {R : Runtime}.

Lemma phone_entries_are_phone (phones : list ConferenceEntryPoint.t) :
  filter (has_type "phone") (map phoneEntryPoint phones) =
  map phoneEntryPoint phones.
Proof.
  induction phones as [| p phones IH]; simpl; [reflexivity |].
  now rewrite IH.
Qed.

Lemma entryPoints_of_outbound (conference : Conference.t) :
  Js.nullish (GoogleCalendarEventConferenceData.entryPoints
                (toGoogleCalendarConferenceData conference)) [] =
  outboundEntryPoints conference.
Proof.
  unfold toGoogleCalendarConferenceData. simpl.
  now destruct (outboundEntryPoints conference).
Qed.

Lemma phone_entry_points_of_outbound (conference : Conference.t) :
  phone_entry_points (toGoogleCalendarConferenceData conference) =
  map phoneEntryPoint (Js.nullish (Conference.phone conference) []).
Proof.
  unfold phone_entry_points. rewrite entryPoints_of_outbound.
  unfold outboundEntryPoints. rewrite !filter_app.
  assert (Hv : forall v, filter (has_type "phone")
                 (if Js.truthy (Some (JoinUrl.value (ConferenceEntryPoint.joinUrl v)))
                  then [videoEntryPoint v] else []) = []).
  { intro v. now destruct (Js.truthy _). }
  assert (Hs : forall v, filter (has_type "phone")
                 (if Js.truthy (Some (JoinUrl.value (ConferenceEntryPoint.joinUrl v)))
                  then [sipEntryPoint v] else []) = []).
  { intro v. now destruct (Js.truthy _). }
  destruct (Conference.video conference) as [v |];
    destruct (Conference.sip conference) as [sp |];
    rewrite ?Hv, ?Hs; simpl;
    (destruct (Conference.phone conference) as [phones |];
     [apply phone_entries_are_phone | reflexivity]).
Qed.

(** C7. The phone entry points of an outbound payload are, in order, those of
    the phone entries of the input; the URI of each is the input join URL
    value when that value starts with tel:, and tel: followed by the value
    otherwise.  The number 15551234567 is sent as tel:15551234567 and tel:555
    as it is. *)
Theorem phone_uri_tel_scheme :
  (forall conference : Conference.t,
     Forall2
       (fun (phoneEntry : ConferenceEntryPoint.t) (entryPoint : EntryPoint.t) =>
          let value := JoinUrl.value (ConferenceEntryPoint.joinUrl phoneEntry) in
          ((exists rest, value = "tel:" ++ rest) ->
           EntryPoint.uri entryPoint = Some value) /\
          (~ (exists rest, value = "tel:" ++ rest) ->
           EntryPoint.uri entryPoint = Some ("tel:" ++ value)))
       (Js.nullish (Conference.phone conference) [])
       (phone_entry_points (toGoogleCalendarConferenceData conference))) /\
  map EntryPoint.uri
      (phone_entry_points (toGoogleCalendarConferenceData dial_in)) =
  [Some "tel:15551234567"; Some "tel:555"].
Proof.
  split; [| reflexivity].
  intro conference. rewrite phone_entry_points_of_outbound.
  induction (Js.nullish (Conference.phone conference) []) as [| p phones IH];
    constructor; [| exact IH].
  unfold phoneEntryPoint, Js.startsWith. cbn [EntryPoint.uri].
  destruct (String.prefix "tel:" (JoinUrl.value (ConferenceEntryPoint.joinUrl p)))
    eqn:Hprefix.
  - split; [reflexivity |].
    intro Hnot. exfalso. apply Hnot.
    exact (proj1 (prefix_iff_append _ _) Hprefix).
  - split; [| reflexivity].
    intro Hyes. apply (proj2 (prefix_iff_append _ _)) in Hyes. congruence.
Qed.

End OutboundConference.

Section CaseFacts.

Lemma in_all_units (c : ascii) : In c all_units.
Proof.
  unfold all_units. rewrite <- (ascii_nat_embedding c).
  apply in_map, in_seq. pose proof (nat_ascii_bounded c). lia.
Qed.

Lemma for_all_units (P : ascii -> bool) :
  forallb P all_units = true -> forall c, P c = true.
Proof.
  intros Hall c. rewrite forallb_forall in Hall. apply Hall, in_all_units.
Qed.

Lemma lower_unit_google_letter (letter c : ascii) :
  In letter google_letters ->
  (Js.lower_unit c = letter <-> c = letter \/ c = capital letter).
Proof.
  intro Hletter.
  assert (Hcheck : forallb (fun l => forallb (fun u =>
            Bool.eqb (Ascii.eqb (Js.lower_unit u) l)
                     (Ascii.eqb u l || Ascii.eqb u (capital l))) all_units)
            google_letters = true) by (vm_compute; reflexivity).
  rewrite forallb_forall in Hcheck. specialize (Hcheck letter Hletter).
  pose proof (for_all_units _ Hcheck c) as Hc. cbv beta in Hc.
  apply Bool.eqb_prop in Hc.
  rewrite <- Ascii.eqb_eq, Hc, Bool.orb_true_iff, !Ascii.eqb_eq. tauto.
Qed.

Lemma toLowerCase_app (s t : string) :
  Js.toLowerCase (s ++ t) = Js.toLowerCase s ++ Js.toLowerCase t.
Proof.
  induction s as [| c s IH]; simpl; [reflexivity | now rewrite IH].
Qed.

(** A text whose lower-casing is a concatenation splits the same way. *)
Lemma toLowerCase_split (s a b : string) :
  Js.toLowerCase s = a ++ b ->
  exists s1 s2, s = s1 ++ s2 /\ Js.toLowerCase s1 = a /\ Js.toLowerCase s2 = b.
Proof.
  revert s. induction a as [| x a IH]; intros s Heq.
  - exists EmptyString, s. now split.
  - destruct s as [| c s]; simpl in Heq; [discriminate |].
    inversion Heq as [[Hx Hrest]].
    destruct (IH s Hrest) as (s1 & s2 & -> & H1 & H2).
    exists (String c s1), s2. simpl. now rewrite H1, H2.
Qed.

Lemma includes_iff_append (s sub : string) :
  Js.includes s sub = true <-> exists before after, s = before ++ sub ++ after.
Proof.
  induction s as [| c s IH]; cbn [Js.includes].
  - rewrite Bool.orb_false_r, prefix_iff_append. split.
    + intros [rest Hrest]. now exists EmptyString, rest.
    + intros (before & after & Heq).
      destruct before as [| x before]; [now exists after | discriminate].
  - rewrite Bool.orb_true_iff, IH.
    rewrite prefix_iff_append. split.
    + intros [[rest Hrest] | (before & after & ->)].
      * now exists EmptyString, rest.
      * now exists (String c before), after.
    + intros (before & after & Heq). destruct before as [| x before].
      * left. now exists after.
      * right. inversion Heq. now exists before, after.
Qed.

Lemma lowers_to_google_iff (stretch : string) :
  Js.toLowerCase stretch = "google" <-> reads_as "google" stretch.
Proof.
  assert (Hin : forall l, In l ["g"; "o"; "o"; "g"; "l"; "e"]%char ->
                          In l google_letters).
  { intros l Hl. simpl in Hl. unfold google_letters. simpl. tauto. }
  assert (Hgen : forall word, (forall l, In l (list_ascii_of_string word) ->
                                         In l google_letters) ->
                 forall text, Js.toLowerCase text = word <-> reads_as word text).
  { induction word as [| l word IH]; intros Hword text.
    - destruct text; simpl; split; try tauto; discriminate.
    - destruct text as [| c text]; simpl; [split; [discriminate | tauto] |].
      rewrite <- (IH (fun x Hx => Hword x (or_intror Hx)) text).
      rewrite <- (lower_unit_google_letter l c (Hword l (or_introl eq_refl))).
      split; [intros Heq; inversion Heq; tauto | intros [-> ->]; reflexivity]. }
  apply Hgen. exact Hin.
Qed.

Lemma includes_google_iff (name : string) :
  Js.includes (Js.toLowerCase name) "google" = true <->
  contains_ignoring_case "google" name.
Proof.
  rewrite includes_iff_append. unfold contains_ignoring_case. split.
  - intros (before & after & Heq).
    apply toLowerCase_split in Heq as (s1 & rest & -> & H1 & Hrest).
    apply toLowerCase_split in Hrest as (s2 & s3 & -> & H2 & H3).
    exists s1, s2, s3. split; [reflexivity |]. now apply lowers_to_google_iff.
  - intros (before & stretch & after & -> & Hreads).
    apply lowers_to_google_iff in Hreads.
    exists (Js.toLowerCase before), (Js.toLowerCase after).
    now rewrite !toLowerCase_app, Hreads.
Qed.

End CaseFacts.

Section ConferenceSolutionFacts.

Context {R : Runtime}.

(** C5, amended.  The solution name is the input name when one is supplied,
    the empty name included, and Google Meet otherwise.  The type key is
    hangoutsMeet when the name is absent or empty, hangoutsMeet when the name
    contains google case-insensitively, and addOn for every other non-empty
    name. *)
Theorem conference_solution_of_name :
  forall conference : Conference.t,
    let solution := solution_of (toGoogleCalendarConferenceData conference) in
    (forall name, Conference.name conference = Some name ->
                  ConferenceSolution.name solution = Some name) /\
    (Conference.name conference = None ->
     ConferenceSolution.name solution = Some "Google Meet") /\
    (Conference.name conference = None \/ Conference.name conference = Some "" ->
     ConferenceSolution.key_type solution = Some "hangoutsMeet") /\
    (forall name, Conference.name conference = Some name ->
                  contains_ignoring_case "google" name ->
                  ConferenceSolution.key_type solution = Some "hangoutsMeet") /\
    (forall name, Conference.name conference = Some name ->
                  name <> "" ->
                  ~ contains_ignoring_case "google" name ->
                  ConferenceSolution.key_type solution = Some "addOn").
Proof.
  intro conference. cbn. unfold conferenceSolutionType.
  repeat split.
  - intros name ->. reflexivity.
  - intros ->. reflexivity.
  - intros [-> | ->]; reflexivity.
  - intros name -> Hgoogle. apply includes_google_iff in Hgoogle.
    destruct name; [reflexivity | now rewrite Hgoogle].
  - intros name -> Hname Hgoogle. destruct name as [| c name]; [congruence |].
    destruct (Js.includes (Js.toLowerCase (String c name)) "google") eqn:Hinc;
      [| reflexivity].
    apply includes_google_iff in Hinc. contradiction.
Qed.

End ConferenceSolutionFacts.

Section OutboundCodes.

Context {R : Runtime}.

Lemma outbound_entry_origin (conference : Conference.t) (e : EntryPoint.t) :
  In e (outboundEntryPoints conference) ->
  (exists video, Conference.video conference = Some video /\
                 e = videoEntryPoint video) \/
  (exists sip, Conference.sip conference = Some sip /\ e = sipEntryPoint sip) \/
  (exists phoneEntry,
      In phoneEntry (Js.nullish (Conference.phone conference) []) /\
      e = phoneEntryPoint phoneEntry).
Proof.
  unfold outboundEntryPoints. rewrite !in_app_iff.
  intros [Hvideo | [Hsip | Hphone]].
  - left. destruct (Conference.video conference) as [video |]; [| contradiction].
    destruct (Js.truthy _); [| contradiction].
    destruct Hvideo as [<- | []]. now exists video.
  - right. left.
    destruct (Conference.sip conference) as [sip |]; [| contradiction].
    destruct (Js.truthy _); [| contradiction].
    destruct Hsip as [<- | []]. now exists sip.
  - right. right.
    destruct (Conference.phone conference) as [phone |]; [| contradiction].
    apply in_map_iff in Hphone as (phoneEntry & <- & Hin). now exists phoneEntry.
Qed.

End OutboundCodes.

Section ComputationFacts.

#[local] Arguments or_continue : simpl never.

Lemma or_continue_ret_None {A : Type} (next : M (option A)) :
  or_continue (ret None) next = next.
Proof. unfold or_continue, bind, ret. now destruct next. Qed.

Lemma or_continue_nothing {A : Type} (step : M (option A)) :
  or_continue step (ret None) = step.
Proof.
  unfold or_continue, bind, ret.
  destruct step as [t [e | [a |]]]; simpl; now rewrite ?app_nil_r.
Qed.

Lemma or_continue_assoc {A : Type} (a b c : M (option A)) :
  or_continue (or_continue a b) c = or_continue a (or_continue b c).
Proof.
  unfold or_continue, bind, ret.
  destruct a as [ta [ea | [va |]]]; simpl; try reflexivity.
  - now rewrite !app_nil_r.
  - destruct b as [tb [eb | [vb |]]]; simpl; try reflexivity.
    + now rewrite !app_nil_r.
    + destruct c as [tc rc]. now rewrite app_assoc.
Qed.

End ComputationFacts.

Section Fallback.

Context {L : MeetingLinks} {R : Runtime}.

#[local] Arguments or_continue : simpl never.
#[local] Arguments checkMeetingLink : simpl never.

Lemma check_each_app (xs ys : list string) :
  check_each (xs ++ ys) = or_continue (check_each xs) (check_each ys).
Proof.
  induction xs as [| x xs IH]; simpl.
  - now rewrite or_continue_ret_None.
  - now rewrite IH, or_continue_assoc.
Qed.

Lemma if_truthy_check (x : option string) :
  if_truthy x checkMeetingLink = check_each (present x).
Proof.
  destruct x as [[| c s] |]; simpl; try reflexivity.
  now rewrite or_continue_nothing.
Qed.

Lemma if_truthy_check_text (x : option string) :
  if_truthy x (fun text => check_each (extractUrls text)) =
  check_each (flat_map extractUrls (present x)).
Proof.
  destruct x as [[| c s] |]; cbn [if_truthy present flat_map];
    try reflexivity.
  now rewrite app_nil_r.
Qed.

Lemma check_attachments_each (attachments : list (option string)) :
  check_attachments attachments = check_each (flat_map present attachments).
Proof.
  induction attachments as [| a attachments IH]; simpl; [reflexivity |].
  now rewrite check_each_app, IH, if_truthy_check.
Qed.

(** The fallback is one pass over the candidates. *)
Lemma fallback_scans_candidates (event : GoogleCalendarEvent.t) :
  parseGoogleCalendarConferenceFallback event = check_each (candidates event).
Proof.
  unfold parseGoogleCalendarConferenceFallback, candidates.
  rewrite !check_each_app, !if_truthy_check, !if_truthy_check_text.
  rewrite or_continue_nothing.
  repeat f_equal.
  destruct (GoogleCalendarEvent.attachments event); simpl;
    [apply check_attachments_each | reflexivity].
Qed.

Lemma check_each_miss (urls : list string) :
  (forall u, In u urls -> detectMeetingLink u = None) ->
  check_each urls = (map Detect urls, inr None).
Proof.
  induction urls as [| u urls IH]; intro Hmiss; [reflexivity |].
  simpl. rewrite IH by (intros v Hv; apply Hmiss; now right).
  unfold or_continue, checkMeetingLink, detect, bind, ret.
  now rewrite (Hmiss u (or_introl eq_refl)).
Qed.

Lemma check_each_hit (before : list string) (url : string)
    (after : list string) (service : MeetingService.t) :
  (forall u, In u before -> detectMeetingLink u = None) ->
  detectMeetingLink url = Some service ->
  check_each (before ++ url :: after) =
  (map Detect (before ++ [url]), inr (Some (meetingLinkConference service))).
Proof.
  intros Hmiss Hhit. rewrite check_each_app, (check_each_miss before Hmiss).
  simpl. unfold or_continue, checkMeetingLink, detect, bind, ret.
  rewrite Hhit. simpl. now rewrite map_app.
Qed.

Lemma detector_calls_of_detects {A : Type} (urls : list string)
    (r : exn + A) :
  detector_calls (map Detect urls, r) = urls.
Proof.
  unfold detector_calls, trace. simpl.
  induction urls as [| u urls IH]; simpl; [reflexivity | now rewrite IH].
Qed.

Lemma unstructured_is_fallback (event : GoogleCalendarEvent.t) :
  entry_points_of event = [] ->
  parseGoogleCalendarConferenceData event =
  (ConsoleLog (GoogleCalendarEvent.conferenceData event)
     :: fst (parseGoogleCalendarConferenceFallback event),
   snd (parseGoogleCalendarConferenceFallback event)).
Proof.
  unfold entry_points_of, parseGoogleCalendarConferenceData, console_log, bind.
  intro Hnone.
  destruct (GoogleCalendarEvent.conferenceData event) as [data |];
    [destruct (GoogleCalendarEventConferenceData.entryPoints data)
       as [[| e es] |]; [| discriminate |] |];
    now destruct (parseGoogleCalendarConferenceFallback event).
Qed.

End Fallback.

Section RoundTrip.

Context {L : MeetingLinks} {R : Runtime}.

Lemma outboundEntryPoints_sent (conference : Conference.t) :
  outboundEntryPoints conference =
  (match sent (Conference.video conference) with
   | Some video => [videoEntryPoint video]
   | None => []
   end ++
   match sent (Conference.sip conference) with
   | Some sip => [sipEntryPoint sip]
   | None => []
   end ++
   map phoneEntryPoint (Js.nullish (Conference.phone conference) []))%list.
Proof.
  unfold outboundEntryPoints, sent.
  destruct (Conference.video conference) as [v |],
           (Conference.sip conference) as [sp |],
           (Conference.phone conference) as [phones |];
    repeat match goal with
           | |- context [Js.truthy ?x] => destruct (Js.truthy x)
           end; reflexivity.
Qed.

Lemma find_none_in_phones (kind : string) (phones : list ConferenceEntryPoint.t) :
  String.eqb "phone" kind = false ->
  find (has_type kind) (map phoneEntryPoint phones) = None.
Proof.
  intro Hkind. induction phones as [| p phones IH]; [reflexivity |].
  cbn [map find]. unfold has_type at 1. cbn [phoneEntryPoint EntryPoint.entryPointType].
  now rewrite Hkind.
Qed.

Lemma find_video_outbound (conference : Conference.t) :
  find (has_type "video") (outboundEntryPoints conference) =
  option_map videoEntryPoint (sent (Conference.video conference)).
Proof.
  rewrite outboundEntryPoints_sent.
  destruct (sent (Conference.video conference)) as [v |]; [reflexivity |].
  destruct (sent (Conference.sip conference)) as [sp |];
    cbn [app find option_map]; now apply find_none_in_phones.
Qed.

Lemma find_sip_outbound (conference : Conference.t) :
  find (has_type "sip") (outboundEntryPoints conference) =
  option_map sipEntryPoint (sent (Conference.sip conference)).
Proof.
  rewrite outboundEntryPoints_sent.
  destruct (sent (Conference.video conference)) as [v |],
           (sent (Conference.sip conference)) as [sp |];
    try reflexivity; cbn [app find option_map]; now apply find_none_in_phones.
Qed.

Lemma phone_uri_truthy (phoneEntry : ConferenceEntryPoint.t) :
  Js.truthy (EntryPoint.uri (phoneEntryPoint phoneEntry)) = true.
Proof.
  unfold phoneEntryPoint. cbn [EntryPoint.uri].
  destruct (JoinUrl.value (ConferenceEntryPoint.joinUrl phoneEntry))
    as [| c value]; [reflexivity |].
  now destruct (Js.startsWith (String c value) "tel:").
Qed.

Lemma filter_phone_outbound (conference : Conference.t) :
  filter (fun e => has_type "phone" e && Js.truthy (EntryPoint.uri e))
         (outboundEntryPoints conference) =
  map phoneEntryPoint (Js.nullish (Conference.phone conference) []).
Proof.
  rewrite <- phone_entry_points_of_outbound.
  unfold phone_entry_points. rewrite entryPoints_of_outbound.
  apply filter_ext_in. intros e He.
  destruct (has_type "phone" e) eqn:Hphone; [| reflexivity].
  apply outbound_entry_origin in He.
  destruct He as [(v & _ & ->) | [(v & _ & ->) | (v & _ & ->)]];
    try discriminate.
  now rewrite phone_uri_truthy.
Qed.

Lemma parseStructured_returns
    (data : GoogleCalendarEventConferenceData.t) (entryPoints : list EntryPoint.t) :
  exists back,
    returned (parseStructured data entryPoints) = Some (Some back) /\
    Conference.video back =
      inboundOptional (find (has_type "video") entryPoints) /\
    Conference.sip back = inboundOptional (find (has_type "sip") entryPoints) /\
    Js.nullish (Conference.phone back) [] =
      map (fun e => inboundEntryPoint (Js.nullish (EntryPoint.uri e) "") e)
          (filter (fun e => has_type "phone" e && Js.truthy (EntryPoint.uri e))
                  entryPoints).
Proof.
  unfold parseStructured.
  set (phones := filter _ entryPoints).
  assert (Hphones :
            Js.nullish
              match phones with
              | [] => None
              | _ :: _ =>
                  Some (map (fun e => inboundEntryPoint
                                        (Js.nullish (EntryPoint.uri e) "") e)
                            phones)
              end [] =
            map (fun e => inboundEntryPoint (Js.nullish (EntryPoint.uri e) "") e)
                phones) by now destruct phones.
  destruct (find (has_type "video") entryPoints) as [v |];
    [destruct (EntryPoint.uri v) as [[| c uri] |] |];
    eexists; (split; [reflexivity |]); simpl; auto.
Qed.

Lemma roundTrip_is_structured (event : GoogleCalendarEvent.t)
    (conference : Conference.t) :
  GoogleCalendarEventConferenceData.entryPoints
    (toGoogleCalendarConferenceData conference) <> None ->
  returned (roundTrip event conference) =
  returned (parseStructured (toGoogleCalendarConferenceData conference)
                            (outboundEntryPoints conference)).
Proof.
  unfold roundTrip, parseGoogleCalendarConferenceData, bind, console_log.
  cbn [GoogleCalendarEvent.conferenceData withConferenceData].
  intro Hsome.
  assert (Hpoints : GoogleCalendarEventConferenceData.entryPoints
                      (toGoogleCalendarConferenceData conference) =
                    match outboundEntryPoints conference with
                    | [] => None
                    | _ :: _ => Some (outboundEntryPoints conference)
                    end) by reflexivity.
  rewrite Hpoints in *.
  destruct (outboundEntryPoints conference) as [| e es] eqn:Hout;
    [congruence |].
  now destruct (parseStructured _ _).
Qed.

Lemma kept_is_spread (code : option string) : Js.spread_if code code = kept code.
Proof. now destruct code as [[| c code] |]. Qed.

Lemma video_comes_back (video : ConferenceEntryPoint.t) :
  sent (Some video) = Some video ->
  exists back,
    inboundOptional (Some (videoEntryPoint video)) = Some back /\
    back_as_video video back.
Proof.
  unfold sent, inboundOptional. cbn [videoEntryPoint EntryPoint.uri].
  destruct (JoinUrl.value (ConferenceEntryPoint.joinUrl video)) as [| c value]
    eqn:Hvalue; [discriminate |].
  intros _. eexists. split; [reflexivity |].
  unfold back_as_video, back_as_video_or_sip. cbn.
  rewrite Hvalue, !kept_is_spread. tauto.
Qed.

Lemma sip_comes_back (sip : ConferenceEntryPoint.t) :
  sent (Some sip) = Some sip ->
  exists back,
    inboundOptional (Some (sipEntryPoint sip)) = Some back /\
    back_as_sip sip back.
Proof.
  unfold sent, inboundOptional. cbn [sipEntryPoint EntryPoint.uri].
  destruct (JoinUrl.value (ConferenceEntryPoint.joinUrl sip)) as [| c value]
    eqn:Hvalue; [discriminate |].
  intros _. eexists. split; [reflexivity |].
  unfold back_as_sip, back_as_video_or_sip. cbn.
  rewrite Hvalue, !kept_is_spread. tauto.
Qed.

Lemma sent_cases (entry : option ConferenceEntryPoint.t) :
  match sent entry with
  | Some e => entry = Some e /\ sent (Some e) = Some e
  | None => True
  end.
Proof.
  destruct entry as [e |]; [| exact I]. unfold sent.
  destruct (Js.truthy _) eqn:Htruthy; [| exact I].
  now rewrite Htruthy.
Qed.

(** C1, amended.  When the outbound payload of a conference carries entry
    points, reading it back gives a conference in which: the video and the sip
    entry are present exactly when they were sent, with the same join URL,
    the same meetingCode and the same password, an empty code counting as
    absent, and with the meetingCode as accessCode; the phone entries are, in
    order, those of the input, each with its join URL in the tel scheme and
    its accessCode, and without meetingCode or password.  A video or phone
    entry without a label comes back labelled, a sip entry keeps its label. *)
Theorem conference_round_trip :
  forall (event : GoogleCalendarEvent.t) (conference : Conference.t),
    GoogleCalendarEventConferenceData.entryPoints
      (toGoogleCalendarConferenceData conference) <> None ->
    exists back,
      returned (roundTrip event conference) = Some (Some back) /\
      match sent (Conference.video conference) with
      | Some video =>
          exists video', Conference.video back = Some video' /\
                         back_as_video video video'
      | None => Conference.video back = None
      end /\
      match sent (Conference.sip conference) with
      | Some sip =>
          exists sip', Conference.sip back = Some sip' /\
                       back_as_sip sip sip'
      | None => Conference.sip back = None
      end /\
      Forall2 back_as_phone
              (Js.nullish (Conference.phone conference) [])
              (Js.nullish (Conference.phone back) []).
Proof.
  intros event conference Hpoints.
  rewrite (roundTrip_is_structured event conference Hpoints).
  destruct (parseStructured_returns (toGoogleCalendarConferenceData conference)
              (outboundEntryPoints conference))
    as (back & Hback & Hvideo & Hsip & Hphone).
  exists back. split; [exact Hback |].
  rewrite find_video_outbound in Hvideo. rewrite find_sip_outbound in Hsip.
  rewrite filter_phone_outbound in Hphone.
  split; [| split].
  - pose proof (sent_cases (Conference.video conference)) as Hsent.
    destruct (sent (Conference.video conference)) as [video |]; [| exact Hvideo].
    destruct (video_comes_back video (proj2 Hsent)) as (video' & Hin & Hrel).
    exists video'. split; [now rewrite Hvideo | exact Hrel].
  - pose proof (sent_cases (Conference.sip conference)) as Hsent.
    destruct (sent (Conference.sip conference)) as [sip |]; [| exact Hsip].
    destruct (sip_comes_back sip (proj2 Hsent)) as (sip' & Hin & Hrel).
    exists sip'. split; [now rewrite Hsip | exact Hrel].
  - rewrite Hphone, map_map. clear Hphone.
    induction (Js.nullish (Conference.phone conference) []) as [| p phones IH];
      [apply Forall2_nil | apply Forall2_cons; [| exact IH]].
    unfold back_as_phone. cbn. rewrite kept_is_spread. tauto.
Qed.

End RoundTrip.

Section Throwing.

Lemma total_no_Error {A : Type} (c : M A) : total c -> no_Error c.
Proof. intros [a Ha] message. rewrite Ha. discriminate. Qed.

Lemma ret_total {A : Type} (a : A) : total (ret a).
Proof. now exists a. Qed.

Lemma bind_total {A B : Type} (c : M A) (k : A -> M B) :
  total c -> (forall a, total (k a)) -> total (bind c k).
Proof.
  intros [a Ha] Hk. destruct c as [t r]. simpl in Ha. subst r.
  destruct (Hk a) as [b Hb]. exists b. unfold bind.
  destruct (k a) as [t' r']. exact Hb.
Qed.

Lemma bind_no_Error {A B : Type} (c : M A) (k : A -> M B) :
  no_Error c -> (forall a, no_Error (k a)) -> no_Error (bind c k).
Proof.
  intros Hc Hk message. destruct c as [t [e | a]]; simpl.
  - intro Heq. apply (Hc message). simpl. now inversion Heq.
  - specialize (Hk a message). now destruct (k a).
Qed.

Lemma returned_bind {A B : Type} (c : M A) (k : A -> M B) :
  returned (bind c k) =
  match returned c with
  | Some a => returned (k a)
  | None => None
  end.
Proof.
  destruct c as [t [e | a]]; [reflexivity |].
  unfold bind, returned. simpl. now destruct (k a).
Qed.

Lemma or_continue_total {A : Type} (step next : M (option A)) :
  total step -> total next -> total (or_continue step next).
Proof.
  intros Hstep Hnext. apply bind_total; [exact Hstep |].
  intros [a |]; [apply ret_total | exact Hnext].
Qed.

End Throwing.

Section InboundTotality.

Context {L : MeetingLinks} {R : Runtime}.

Lemma check_each_total (urls : list string) : total (check_each urls).
Proof.
  induction urls as [| u urls IH]; [apply ret_total |].
  apply or_continue_total; [| exact IH].
  unfold checkMeetingLink, detect, bind, ret, total. simpl.
  destruct (detectMeetingLink u); eexists; reflexivity.
Qed.

Lemma parseStructured_total (data : GoogleCalendarEventConferenceData.t)
    (entryPoints : list EntryPoint.t) :
  total (parseStructured data entryPoints).
Proof.
  destruct (parseStructured_returns data entryPoints) as (back & Hback & _).
  unfold returned in Hback. unfold total.
  destruct (snd (parseStructured data entryPoints)) as [e | a];
    [discriminate | now exists a].
Qed.

(** Reading the conference of an event never throws. *)
Lemma parseGoogleCalendarConferenceData_total (event : GoogleCalendarEvent.t) :
  total (parseGoogleCalendarConferenceData event).
Proof.
  unfold parseGoogleCalendarConferenceData.
  apply bind_total; [now exists tt |]. intros _.
  assert (Hfallback : total (parseGoogleCalendarConferenceFallback event)).
  { rewrite fallback_scans_candidates. apply check_each_total. }
  destruct (GoogleCalendarEvent.conferenceData event) as [data |];
    [| exact Hfallback].
  destruct (GoogleCalendarEventConferenceData.entryPoints data) as [[| e es] |];
    try exact Hfallback.
  apply parseStructured_total.
Qed.

End InboundTotality.

Section InboundEvent.

Context {T : Temporal} {L : MeetingLinks} {R : Runtime}.

Lemma PlainDate_from_value_no_Error (x : option string) :
  no_Error (PlainDate_from_value x).
Proof.
  intro message. unfold PlainDate_from_value.
  destruct x as [s |]; [destruct (PlainDate_from s) |]; discriminate.
Qed.

Lemma parseDate_no_Error (arg : option GoogleCalendarDate.t) :
  no_Error (parseDate arg).
Proof.
  destruct arg as [d |]; [apply PlainDate_from_value_no_Error |].
  intro message. discriminate.
Qed.

Lemma parseDateTime_no_Error (arg : option GoogleCalendarDate.t) :
  no_Error (parseDateTime arg).
Proof.
  destruct arg as [d |]; [| intro message; discriminate].
  unfold parseDateTime. apply bind_no_Error.
  - intro message. unfold Instant_from_value.
    destruct (GoogleCalendarDate.dateTime d) as [s |];
      [destruct (Instant_from s) |]; discriminate.
  - intros i message.
    destruct (GoogleCalendarDate.timeZone d) as [[| c z] |]; try discriminate.
    destruct (toZonedDateTimeISO i (String c z)); discriminate.
Qed.

Lemma readDate_no_Error (allDay : bool) (arg : option GoogleCalendarDate.t) :
  no_Error (readDate allDay arg).
Proof.
  destruct allDay; simpl.
  - apply bind_no_Error; [apply parseDate_no_Error |].
    intros d message. discriminate.
  - apply parseDateTime_no_Error.
Qed.

(** What [parseGoogleCalendarEvent] returns: the event exists exactly when
    both dates could be read. *)
Lemma parseGoogleCalendarEvent_returned (calendar : Calendar.t)
    (accountId : string) (event : GoogleCalendarEvent.t) :
  option_map
    (fun e => (CalendarEvent.allDay e, CalendarEvent.start e,
               CalendarEvent.end_ e, CalendarEvent.response e))
    (returned (parseGoogleCalendarEvent calendar accountId event)) =
  match returned (readDate (isAllDay event) (GoogleCalendarEvent.start event)),
        returned (readDate (isAllDay event) (GoogleCalendarEvent.end_ event))
  with
  | Some start, Some end_ =>
      Some (isAllDay event, start, end_, parseResponseStatus event)
  | _, _ => None
  end.
Proof.
  unfold parseGoogleCalendarEvent.
  rewrite returned_bind.
  destruct (returned (readDate (isAllDay event) (GoogleCalendarEvent.start event)))
    as [start |]; [| reflexivity].
  rewrite returned_bind.
  destruct (returned (readDate (isAllDay event) (GoogleCalendarEvent.end_ event)))
    as [end_ |]; [| reflexivity].
  rewrite returned_bind.
  destruct (parseGoogleCalendarConferenceData_total event) as [conference Hc].
  unfold returned at 1. rewrite Hc. reflexivity.
Qed.

Lemma returned_parseDate (d : GoogleCalendarDate.t) (text : string) :
  GoogleCalendarDate.date d = Some text ->
  returned (parseDate (Some d)) = PlainDate_from text.
Proof.
  intro Hdate. unfold parseDate, PlainDate_from_value. rewrite Hdate.
  now destruct (PlainDate_from text).
Qed.

Lemma returned_parseDateTime_zoned (d : GoogleCalendarDate.t)
    (text zone : string) (instant : Instant) :
  GoogleCalendarDate.dateTime d = Some text ->
  Instant_from text = Some instant ->
  GoogleCalendarDate.timeZone d = Some zone -> zone <> "" ->
  returned (parseDateTime (Some d)) =
  option_map OfZonedDateTime (toZonedDateTimeISO instant zone).
Proof.
  intros Htext Hinstant Hzone Hne.
  unfold parseDateTime, Instant_from_value. rewrite Htext, Hinstant, Hzone.
  destruct zone as [| c zone]; [congruence |].
  unfold bind, ret. simpl. now destruct (toZonedDateTimeISO instant (String c zone)).
Qed.

Lemma returned_parseDateTime_instant (d : GoogleCalendarDate.t)
    (text : string) (instant : Instant) :
  GoogleCalendarDate.dateTime d = Some text ->
  Instant_from text = Some instant ->
  GoogleCalendarDate.timeZone d = None \/
  GoogleCalendarDate.timeZone d = Some "" ->
  returned (parseDateTime (Some d)) = Some (OfInstant instant).
Proof.
  intros Htext Hinstant Hzone.
  unfold parseDateTime, Instant_from_value. rewrite Htext, Hinstant.
  now destruct Hzone as [-> | ->].
Qed.

Lemma returned_readDate_allDay (arg : option GoogleCalendarDate.t) :
  returned (readDate true arg) = option_map OfPlainDate (returned (parseDate arg)).
Proof.
  unfold readDate. rewrite returned_bind.
  now destruct (returned (parseDate arg)).
Qed.

(** C3, amended.  When the start of the payload has no dateTime, or an empty
    one, the event is all-day: it is returned exactly when the date of the
    start and the date of the end both parse as plain dates, with allDay true
    and these two plain dates.  When the start has a non-empty dateTime the
    event is returned exactly when start and end both parse as date-times,
    with allDay false; a date-time is the instant of its dateTime, taken to
    its zone when it carries a non-empty timeZone and left a bare instant
    when the timeZone is absent or empty. *)
Theorem all_day_detection :
  forall (calendar : Calendar.t) (accountId : string)
         (event : GoogleCalendarEvent.t),
    let result := returned (parseGoogleCalendarEvent calendar accountId event) in
    (start_dateTime event = None \/ start_dateTime event = Some "" ->
     dates_of result =
     match returned (parseDate (GoogleCalendarEvent.start event)),
           returned (parseDate (GoogleCalendarEvent.end_ event)) with
     | Some start, Some end_ => Some (true, OfPlainDate start, OfPlainDate end_)
     | _, _ => None
     end) /\
    (forall text, start_dateTime event = Some text -> text <> "" ->
     dates_of result =
     match returned (parseDateTime (GoogleCalendarEvent.start event)),
           returned (parseDateTime (GoogleCalendarEvent.end_ event)) with
     | Some start, Some end_ => Some (false, start, end_)
     | _, _ => None
     end) /\
    (forall d text, GoogleCalendarDate.date d = Some text ->
                    returned (parseDate (Some d)) = PlainDate_from text) /\
    (forall d text instant,
        GoogleCalendarDate.dateTime d = Some text ->
        Instant_from text = Some instant ->
        (forall zone, GoogleCalendarDate.timeZone d = Some zone -> zone <> "" ->
                      returned (parseDateTime (Some d)) =
                      option_map OfZonedDateTime (toZonedDateTimeISO instant zone)) /\
        (GoogleCalendarDate.timeZone d = None \/
         GoogleCalendarDate.timeZone d = Some "" ->
         returned (parseDateTime (Some d)) = Some (OfInstant instant))).
Proof.
  intros calendar accountId event result.
  pose proof (parseGoogleCalendarEvent_returned calendar accountId event) as Hret.
  fold result in Hret.
  assert (Hdates : dates_of result =
                   option_map (fun q => (fst (fst (fst q)), snd (fst (fst q)),
                                         snd (fst q)))
                     (option_map
                        (fun e => (CalendarEvent.allDay e, CalendarEvent.start e,
                                   CalendarEvent.end_ e, CalendarEvent.response e))
                        result)) by now destruct result.
  rewrite Hret in Hdates. clear Hret.
  assert (Hall : isAllDay event = negb (Js.truthy (start_dateTime event)))
    by reflexivity.
  split; [| split; [| split]].
  - intros Hempty. rewrite Hdates.
    assert (Htrue : isAllDay event = true)
      by (rewrite Hall; now destruct Hempty as [-> | ->]).
    rewrite Htrue, !returned_readDate_allDay.
    destruct (returned (parseDate (GoogleCalendarEvent.start event)));
      [| reflexivity].
    now destruct (returned (parseDate (GoogleCalendarEvent.end_ event))).
  - intros text Htext Hne. rewrite Hdates.
    assert (Hfalse : isAllDay event = false).
    { rewrite Hall, Htext. destruct text; [congruence | reflexivity]. }
    rewrite Hfalse. cbn [readDate].
    destruct (returned (parseDateTime (GoogleCalendarEvent.start event)));
      [| reflexivity].
    now destruct (returned (parseDateTime (GoogleCalendarEvent.end_ event))).
  - exact returned_parseDate.
  - intros d text instant Htext Hinstant. split.
    + intros zone. now apply returned_parseDateTime_zoned with (text := text).
    + now apply returned_parseDateTime_instant with (text := text).
Qed.

(** C9. In the event returned for a payload none of whose attendees is
    flagged self there is no response; when some attendee is flagged self the
    response carries the parsed status and the comment of the first one. *)
Theorem response_of_self_attendee :
  forall (calendar : Calendar.t) (accountId : string)
         (event : GoogleCalendarEvent.t) (parsed : CalendarEvent.t),
    returned (parseGoogleCalendarEvent calendar accountId event) = Some parsed ->
    let attendees := Js.nullish (GoogleCalendarEvent.attendees event) [] in
    ((forall a, In a attendees ->
                GoogleCalendarEventAttendee.self a <> Some true) ->
     CalendarEvent.response parsed = None) /\
    (forall before a after,
        attendees = (before ++ a :: after)%list ->
        (forall b, In b before ->
                   GoogleCalendarEventAttendee.self b <> Some true) ->
        GoogleCalendarEventAttendee.self a = Some true ->
        CalendarEvent.response parsed =
        Some {| Response.status :=
                  option_map parseGoogleCalendarAttendeeStatus
                             (GoogleCalendarEventAttendee.responseStatus a);
                Response.comment := GoogleCalendarEventAttendee.comment a |}).
Proof.
  intros calendar accountId event parsed Hparsed attendees.
  pose proof (parseGoogleCalendarEvent_returned calendar accountId event) as Hret.
  rewrite Hparsed in Hret. cbn [option_map] in Hret.
  assert (Hresponse : CalendarEvent.response parsed = parseResponseStatus event).
  { destruct (returned (readDate _ (GoogleCalendarEvent.start event)));
      [| discriminate].
    destruct (returned (readDate _ (GoogleCalendarEvent.end_ event)));
      [| discriminate].
    now inversion Hret. }
  rewrite Hresponse. clear Hret Hresponse Hparsed.
  assert (Hfind : parseResponseStatus event =
                  match find (fun a => Js.truthyb (GoogleCalendarEventAttendee.self a))
                             attendees with
                  | None => None
                  | Some a =>
                      Some {| Response.status :=
                                option_map parseGoogleCalendarAttendeeStatus
                                  (GoogleCalendarEventAttendee.responseStatus a);
                              Response.comment :=
                                GoogleCalendarEventAttendee.comment a |}
                  end).
  { unfold parseResponseStatus, attendees.
    now destruct (GoogleCalendarEvent.attendees event). }
  rewrite Hfind. clear Hfind.
  assert (Hnot : forall l,
             (forall b, In b l -> GoogleCalendarEventAttendee.self b <> Some true) ->
             forall rest,
               find (fun a => Js.truthyb (GoogleCalendarEventAttendee.self a))
                    (l ++ rest) =
               find (fun a => Js.truthyb (GoogleCalendarEventAttendee.self a)) rest).
  { induction l as [| b l IH]; intros Hl rest; [reflexivity |].
    simpl. pose proof (Hl b (or_introl eq_refl)) as Hb.
    destruct (GoogleCalendarEventAttendee.self b) as [[|] |]; try congruence;
      simpl; apply IH; intros x Hx; apply Hl; now right. }
  split.
  - intro Hnone. rewrite <- (app_nil_r attendees), (Hnot attendees Hnone).
    reflexivity.
  - intros before a after -> Hbefore Hself.
    rewrite (Hnot before Hbefore). simpl. now rewrite Hself.
Qed.

End InboundEvent.

Section Validation.

Context {T : Temporal} {L : MeetingLinks} {R : Runtime}.

Lemma parseOptionalTaskDate_no_Error (x : option string) :
  no_Error (parseOptionalTaskDate x).
Proof.
  destruct x as [[| c s] |]; try (intro message; discriminate).
  apply bind_no_Error; [apply PlainDate_from_value_no_Error |].
  intros d message. discriminate.
Qed.

(** C8, amended.  Reading a calendar-list entry fails exactly when its id is
    missing or empty, and then with the error Calendar ID is missing.  No
    other conversion throws an error of its own: reading an event or a task
    raises only what Temporal or the runtime raise, and reading the conference
    of an event never throws. *)
Theorem calendar_id_is_the_only_validation :
  (forall (accountId : string) (entry : GoogleCalendarCalendarListEntry.t),
      let missing := GoogleCalendarCalendarListEntry.id entry = None \/
                     GoogleCalendarCalendarListEntry.id entry = Some "" in
      (returned (parseGoogleCalendarCalendarListEntry accountId entry) = None
       <-> missing) /\
      (parseGoogleCalendarCalendarListEntry accountId entry =
       throw (Error "Calendar ID is missing") <-> missing)) /\
  (forall calendar accountId event,
      no_Error (parseGoogleCalendarEvent calendar accountId event)) /\
  (forall task collectionId accountId,
      no_Error (parseGoogleTask task collectionId accountId)) /\
  (forall event, total (parseGoogleCalendarConferenceData event)).
Proof.
  split; [| split; [| split]].
  - intros accountId entry missing. subst missing.
    unfold parseGoogleCalendarCalendarListEntry.
    destruct (GoogleCalendarCalendarListEntry.id entry) as [[| c id] |];
      (split; split; try discriminate; try tauto);
      intros [Hid | Hid]; discriminate.
  - intros calendar accountId event. unfold parseGoogleCalendarEvent.
    apply bind_no_Error; [apply readDate_no_Error | intro start].
    apply bind_no_Error; [apply readDate_no_Error | intro end_].
    apply bind_no_Error;
      [apply total_no_Error, parseGoogleCalendarConferenceData_total |].
    intros conference message. discriminate.
  - intros task collectionId accountId. unfold parseGoogleTask.
    apply bind_no_Error; [apply parseOptionalTaskDate_no_Error | intro completed].
    apply bind_no_Error; [apply parseOptionalTaskDate_no_Error | intro due].
    intro message. discriminate.
  - exact parseGoogleCalendarConferenceData_total.
Qed.

End Validation.

(** ** The conversions on concrete payloads *)

Section Examples.

#[local] Existing Instance Sample.temporal.
#[local] Existing Instance Sample.links.
#[local] Existing Instance Sample.runtime.

Example extractUrls_description :
  extractUrls "Notes: http://example.com/doc, call: <https://meet.google.com/xxx-yyyy-zzz>" =
  ["http://example.com/doc,"; "https://meet.google.com/xxx-yyyy-zzz"].
Proof. reflexivity. Qed.

Example extractUrls_case_and_bounds :
  extractUrls "HTTPS://A.example/x y httpx://no http:// https://b[c]" =
  ["HTTPS://A.example/x"; "https://b"].
Proof. reflexivity. Qed.

Example toJoinUrl_meet :
  toJoinUrl "https://meet.google.com/abc-defg-hij" =
  "meet.google.com/abc-defg-hij" /\
  toJoinUrl "not a url" = "not a url".
Proof. split; reflexivity. Qed.

Example outbound_locked_video :
  GoogleCalendarEventConferenceData.entryPoints
    (toGoogleCalendarConferenceData locked_video) =
  Some [{| EntryPoint.entryPointType := Some "video";
           EntryPoint.uri := Some "https://meet.google.com/abc-defg-hij";
           EntryPoint.label := Some "meet.google.com/abc-defg-hij";
           EntryPoint.meetingCode := Some "abc-defg-hij";
           EntryPoint.accessCode := Some "abc-defg-hij";
           EntryPoint.password := Some "secret";
           EntryPoint.passcode := Some "secret";
           EntryPoint.pin := None |}].
Proof. reflexivity. Qed.

Example standup_parsed :
  option_map (fun e => (CalendarEvent.allDay e, CalendarEvent.start e,
                        CalendarEvent.end_ e, CalendarEvent.response e,
                        map Attendee.status (CalendarEvent.attendees e)))
             (returned (parseGoogleCalendarEvent work_calendar "account-1" standup)) =
  Some (false,
        OfZonedDateTime ("2024-05-01T09:00:00Z", "Europe/Paris"),
        OfInstant "2024-05-01T09:15:00Z",
        Some {| Response.status := Some "unknown";
                Response.comment := Some "running late" |},
        [Some "accepted"; Some "unknown"; Some "declined"]).
Proof. reflexivity. Qed.

Example task_dates_lose_their_time :
  option_map (fun t => (Task.due t, Task.completed t))
    (returned (parseGoogleTask
                 {| GoogleTask.id := Some "t1";
                    GoogleTask.title := Some "Write report";
                    GoogleTask.completed := None;
                    GoogleTask.notes := None;
                    GoogleTask.due := Some "2024-05-01T00:00:00.000Z" |}
                 "list-1" "account-1")) =
  Some (Some "2024-05-01", None).
Proof. reflexivity. Qed.

Example update_without_conference :
  toGoogleCalendarEvent
    {| EventInput.id := Some "evt-1";
       EventInput.title := Some "Retro";
       EventInput.description := None;
       EventInput.location := None;
       EventInput.start := OfPlainDate "2024-05-01";
       EventInput.end_ := OfZonedDateTime ("2024-05-01T10:00:00+02:00", "Europe/Paris");
       EventInput.conference := None |} =
  {| GoogleCalendarEventCreateParams.id := Some "evt-1";
     GoogleCalendarEventCreateParams.summary := Some "Retro";
     GoogleCalendarEventCreateParams.description := None;
     GoogleCalendarEventCreateParams.location := None;
     GoogleCalendarEventCreateParams.start := on_day "2024-05-01";
     GoogleCalendarEventCreateParams.end_ :=
       at_time "2024-05-01T10:00:00+02:00" (Some "Europe/Paris");
     GoogleCalendarEventCreateParams.conferenceData := None;
     GoogleCalendarEventCreateParams.conferenceDataVersion := 1%Z |}.
Proof. reflexivity. Qed.

Example read_only_calendar :
  option_map (fun c => (Calendar.id c, Calendar.name c, Calendar.readOnly c))
    (returned (parseGoogleCalendarCalendarListEntry "account-1"
                                                   (list_entry (Some "team")))) =
  Some ("team", Some "Team", true).
Proof. reflexivity. Qed.

Example links_in_description_scanned :
  detector_calls (parseGoogleCalendarConferenceData links_in_description) =
  ["http://example.com/doc,"; "https://meet.google.com/xxx-yyyy-zzz"] /\
  option_map (option_map Conference.id)
    (returned (parseGoogleCalendarConferenceData links_in_description)) =
  Some (Some (Some "google-meet")).
Proof. split; reflexivity. Qed.

Lemma conference_round_trip_witness :
  exists back,
    returned (roundTrip holiday locked_video) = Some (Some back) /\
    (exists video',
        Conference.video back = Some video' /\
        (JoinUrl.value (ConferenceEntryPoint.joinUrl video') =
           "https://meet.google.com/abc-defg-hij" /\
         ConferenceEntryPoint.meetingCode video' = Some "abc-defg-hij" /\
         ConferenceEntryPoint.accessCode video' = Some "abc-defg-hij" /\
         ConferenceEntryPoint.password video' = Some "secret") /\
        JoinUrl.label (ConferenceEntryPoint.joinUrl video') =
          Some "meet.google.com/abc-defg-hij") /\
    Conference.sip back = None /\
    Forall2 back_as_phone [] (Js.nullish (Conference.phone back) []).
Proof.
  destruct (conference_round_trip holiday locked_video)
    as (back & Hback & Hvideo & Hsip & Hphone); [discriminate |].
  exists back. split; [exact Hback |].
  split; [exact Hvideo |]. split; [exact Hsip | exact Hphone].
Defined.

(** C1 as stated fails on the dial-in numbers: the bare number comes back in
    the tel scheme, so the join URLs are not the same. *)
Lemma round_trip_rewrites_dial_in :
  exists back,
    returned (roundTrip holiday dial_in) = Some (Some back) /\
    map (fun p => JoinUrl.value (ConferenceEntryPoint.joinUrl p))
        (Js.nullish (Conference.phone back) []) =
      ["tel:15551234567"; "tel:555"] /\
    ~ Forall2 same_entry_data
              (Js.nullish (Conference.phone dial_in) [])
              (Js.nullish (Conference.phone back) []).
Proof.
  eexists. split; [reflexivity |]. split; [reflexivity |].
  intro Hsame. inversion Hsame as [| p p' ps ps' Hhead Htail]. subst.
  destruct Hhead as [Hvalue _]. discriminate Hvalue.
Qed.

Lemma all_day_detection_witness :
  dates_of (returned (parseGoogleCalendarEvent work_calendar "account-1" holiday)) =
    Some (true, OfPlainDate "2024-05-01", OfPlainDate "2024-05-02") /\
  dates_of (returned (parseGoogleCalendarEvent work_calendar "account-1" standup)) =
    Some (false, OfZonedDateTime ("2024-05-01T09:00:00Z", "Europe/Paris"),
          OfInstant "2024-05-01T09:15:00Z").
Proof.
  split.
  - rewrite (proj1 (all_day_detection work_calendar "account-1" holiday)
                   (or_introl eq_refl)).
    reflexivity.
  - assert (Hne : "2024-05-01T09:00:00Z" <> "") by discriminate.
    rewrite (proj1 (proj2 (all_day_detection work_calendar "account-1" standup))
                   "2024-05-01T09:00:00Z" eq_refl Hne).
    reflexivity.
Defined.

(** C3 as stated fails on a start that has a dateTime, the empty one: the
    event is all-day. *)
Lemma empty_dateTime_is_all_day :
  start_dateTime blank_time_event = Some "" /\
  dates_of (returned (parseGoogleCalendarEvent work_calendar "account-1"
                                               blank_time_event)) =
    Some (true, OfPlainDate "2024-05-01", OfPlainDate "2024-05-02").
Proof. split; reflexivity. Qed.

(** C4 as stated fails on a video entry with a password: the password is
    sent as password and passcode, and no pin is sent. *)
Lemma password_is_not_sent_as_pin :
  map (fun e => (EntryPoint.password e, EntryPoint.passcode e, EntryPoint.pin e))
      (Js.nullish (GoogleCalendarEventConferenceData.entryPoints
                     (toGoogleCalendarConferenceData locked_video)) []) =
  [(Some "secret", Some "secret", None)].
Proof. reflexivity. Qed.

Lemma includes_google_false (name : string) :
  Js.includes (Js.toLowerCase name) "google" = false ->
  ~ contains_ignoring_case "google" name.
Proof.
  intros Hfalse Hcontains. apply includes_google_iff in Hcontains. congruence.
Qed.

Lemma conference_solution_of_name_witness :
  ConferenceSolution.key_type
    (solution_of (toGoogleCalendarConferenceData (named "Zoom"))) = Some "addOn" /\
  ConferenceSolution.name
    (solution_of (toGoogleCalendarConferenceData (named "Zoom"))) = Some "Zoom" /\
  ConferenceSolution.key_type
    (solution_of (toGoogleCalendarConferenceData (named "")))
    = Some "hangoutsMeet".
Proof.
  split; [| split].
  - apply (proj2 (proj2 (proj2 (proj2
             (conference_solution_of_name (named "Zoom"))))) "Zoom").
    + reflexivity.
    + discriminate.
    + apply includes_google_false. reflexivity.
  - apply (proj1 (conference_solution_of_name (named "Zoom")) "Zoom").
    reflexivity.
  - apply (proj1 (proj2 (proj2 (conference_solution_of_name (named ""))))).
    right. reflexivity.
Defined.

(** C5 as stated fails on the empty name: it is supplied, and sent as the
    solution name, it does not contain google, and the type key is not
    addOn. *)
Lemma empty_name_is_not_addOn :
  Conference.name (named "") = Some "" /\
  ~ contains_ignoring_case "google" "" /\
  ConferenceSolution.name
    (solution_of (toGoogleCalendarConferenceData (named ""))) = Some "" /\
  ConferenceSolution.key_type
    (solution_of (toGoogleCalendarConferenceData (named ""))) <> Some "addOn".
Proof.
  split; [reflexivity |].
  split; [apply includes_google_false; reflexivity |].
  split; [reflexivity | discriminate].
Qed.

Lemma calendar_id_is_the_only_validation_witness :
  returned (parseGoogleCalendarCalendarListEntry "account-1" (list_entry None)) =
    None /\
  returned (parseGoogleCalendarCalendarListEntry "account-1"
                                                 (list_entry (Some "team"))) <>
    None.
Proof.
  destruct calendar_id_is_the_only_validation as (Hentry & _).
  split.
  - apply (proj1 (Hentry "account-1" (list_entry None))). left. reflexivity.
  - intro Hnone.
    apply (proj1 (Hentry "account-1" (list_entry (Some "team")))) in Hnone.
    destruct Hnone as [Hid | Hid]; discriminate Hid.
Defined.

(** C8 as stated fails on an entry whose id is there and empty: reading it
    fails although the id is not missing. *)
Lemma empty_calendar_id_fails :
  GoogleCalendarCalendarListEntry.id (list_entry (Some "")) <> None /\
  parseGoogleCalendarCalendarListEntry "account-1" (list_entry (Some "")) =
    throw (Error "Calendar ID is missing").
Proof. split; [discriminate | reflexivity]. Qed.

Lemma response_of_self_attendee_witness :
  exists parsed,
    returned (parseGoogleCalendarEvent work_calendar "account-1" standup) =
      Some parsed /\
    CalendarEvent.response parsed =
      Some {| Response.status := Some "unknown";
              Response.comment := Some "running late" |}.
Proof.
  destruct (returned (parseGoogleCalendarEvent work_calendar "account-1" standup))
    as [parsed |] eqn:Hparsed; [| vm_compute in Hparsed; discriminate Hparsed].
  exists parsed. split; [reflexivity |].
  apply (proj2 (response_of_self_attendee work_calendar "account-1" standup
                                          parsed Hparsed)
               [guest "ann@example.com" None (Some "accepted") None]
               (guest "me@example.com" (Some true) (Some "needsAction")
                      (Some "running late"))
               [guest "bob@example.com" (Some false) (Some "declined") None]).
  - reflexivity.
  - intros b [<- | []]. discriminate.
  - reflexivity.
Defined.

End Examples.

(** ** The URL pattern *)

Section UrlPattern.

Lemma string_app_assoc (a b c : string) : (a ++ b) ++ c = a ++ b ++ c.
Proof. induction a as [| x a IH]; simpl; [reflexivity | now rewrite IH]. Qed.

Lemma string_app_nil_r (a : string) : a ++ "" = a.
Proof. induction a as [| x a IH]; simpl; [reflexivity | now rewrite IH]. Qed.

Lemma string_length_app (a b : string) :
  String.length (a ++ b) = String.length a + String.length b.
Proof. induction a as [| x a IH]; simpl; [reflexivity | now rewrite IH]. Qed.

Lemma same_letter_iff (letter c : ascii) :
  In letter scheme_letters ->
  (UrlRegex.same_letter letter c = true <-> c = letter \/ c = capital letter).
Proof.
  intro Hletter. unfold UrlRegex.same_letter.
  assert (Hcheck : forallb (fun l => forallb (fun u =>
            Bool.eqb (Ascii.eqb (Js.lower_unit u) l)
                     (Ascii.eqb u l || Ascii.eqb u (capital l))) all_units)
            scheme_letters = true) by (vm_compute; reflexivity).
  rewrite forallb_forall in Hcheck. specialize (Hcheck letter Hletter).
  pose proof (for_all_units _ Hcheck c) as Hc. cbv beta in Hc.
  apply Bool.eqb_prop in Hc.
  rewrite Hc, Bool.orb_true_iff, !Ascii.eqb_eq. tauto.
Qed.

Lemma strip_app (p rest : string) : UrlRegex.strip p (p ++ rest) = Some rest.
Proof.
  induction p as [| a p IH]; simpl; [now destruct rest |].
  now rewrite Ascii.eqb_refl.
Qed.

Lemma strip_Some (p s rest : string) :
  UrlRegex.strip p s = Some rest -> s = p ++ rest.
Proof.
  revert s. induction p as [| a p IH]; intros s Hstrip.
  - destruct s; simpl in Hstrip; now inversion Hstrip.
  - destruct s as [| b s]; simpl in Hstrip; [discriminate |].
    destruct (Ascii.eqb a b) eqn:Hab; [| discriminate].
    apply Ascii.eqb_eq in Hab. subst b. simpl. now rewrite (IH s Hstrip).
Qed.

Lemma http_at_Some (s letters rest : string) :
  UrlRegex.http_at s = Some (letters, rest) <->
  s = letters ++ rest /\ reads_as "http" letters.
Proof.
  assert (Hh : In "h"%char scheme_letters) by (simpl; tauto).
  assert (Ht : In "t"%char scheme_letters) by (simpl; tauto).
  assert (Hp : In "p"%char scheme_letters) by (simpl; tauto).
  split.
  - unfold UrlRegex.http_at.
    destruct s as [| c1 [| c2 [| c3 [| c4 s]]]]; try discriminate.
    destruct (UrlRegex.same_letter "h" c1) eqn:H1; [| discriminate].
    destruct (UrlRegex.same_letter "t" c2) eqn:H2; [| discriminate].
    destruct (UrlRegex.same_letter "t" c3) eqn:H3; [| discriminate].
    destruct (UrlRegex.same_letter "p" c4) eqn:H4; [| discriminate].
    cbn [andb]. intro Heq. inversion Heq. subst letters rest.
    split; [reflexivity |]. cbn [reads_as].
    apply (same_letter_iff _ _ Hh) in H1. apply (same_letter_iff _ _ Ht) in H2.
    apply (same_letter_iff _ _ Ht) in H3. apply (same_letter_iff _ _ Hp) in H4.
    tauto.
  - intros [-> Hreads].
    destruct letters as [| c1 [| c2 [| c3 [| c4 [| c5 letters]]]]];
      cbn [reads_as] in Hreads; try tauto.
    destruct Hreads as (H1 & H2 & H3 & H4 & _).
    apply (same_letter_iff _ _ Hh) in H1. apply (same_letter_iff _ _ Ht) in H2.
    apply (same_letter_iff _ _ Ht) in H3. apply (same_letter_iff _ _ Hp) in H4.
    cbn [append UrlRegex.http_at]. now rewrite H1, H2, H3, H4.
Qed.

Lemma colon_slashes_at_Some (s sep rest : string) :
  UrlRegex.colon_slashes_at s = Some (sep, rest) ->
  s = sep ++ rest /\
  (sep = "://" \/
   exists c, sep = String c "://" /\ (c = "s" \/ c = capital "s")%char).
Proof.
  assert (Hs : In "s"%char scheme_letters) by (simpl; tauto).
  unfold UrlRegex.colon_slashes_at.
  destruct s as [| c s'].
  - cbn. discriminate.
  - destruct (UrlRegex.same_letter "s" c) eqn:Hc.
    + destruct (UrlRegex.strip "://" s') as [r |] eqn:Hstrip; cbn [option_map].
      * intro Heq. inversion Heq. subst sep rest.
        apply strip_Some in Hstrip. subst s'. split; [reflexivity |].
        right. exists c. split; [reflexivity |].
        now apply (same_letter_iff _ _ Hs).
      * destruct (UrlRegex.strip "://" (String c s')) as [r |] eqn:Hplain;
          cbn [option_map]; [| discriminate].
        intro Heq. inversion Heq. subst sep rest.
        apply strip_Some in Hplain. split; [exact Hplain | now left].
    + destruct (UrlRegex.strip "://" (String c s')) as [r |] eqn:Hplain;
        cbn [option_map]; [| discriminate].
      intro Heq. inversion Heq. subst sep rest.
      apply strip_Some in Hplain. split; [exact Hplain | now left].
Qed.

Lemma colon_slashes_at_plain (rest : string) :
  UrlRegex.colon_slashes_at ("://" ++ rest) = Some ("://", rest).
Proof.
  unfold UrlRegex.colon_slashes_at. cbn [append].
  replace (UrlRegex.same_letter "s" ":") with false by reflexivity.
  change (String ":" (String "/" (String "/" rest))) with ("://" ++ rest).
  now rewrite strip_app.
Qed.

Lemma colon_slashes_at_s (c : ascii) (rest : string) :
  (c = "s" \/ c = capital "s")%char ->
  UrlRegex.colon_slashes_at (String c ("://" ++ rest)) =
  Some (String c "://", rest).
Proof.
  assert (Hs : In "s"%char scheme_letters) by (simpl; tauto).
  intro Hc. apply (same_letter_iff _ _ Hs) in Hc.
  unfold UrlRegex.colon_slashes_at. now rewrite Hc, strip_app.
Qed.

Lemma url_run_units (s : string) :
  forall c, In c (list_ascii_of_string (UrlRegex.url_run s)) ->
            UrlRegex.url_unit c = true.
Proof.
  induction s as [| x s IH]; simpl; [tauto |].
  destruct (UrlRegex.url_unit x) eqn:Hx; simpl; [| tauto].
  intros c [<- | Hc]; [exact Hx | now apply IH].
Qed.

Lemma url_run_split (s : string) :
  exists rest, s = UrlRegex.url_run s ++ rest /\ url_ends rest.
Proof.
  induction s as [| x s (rest & Hsplit & Hends)]; simpl.
  - now exists EmptyString.
  - destruct (UrlRegex.url_unit x) eqn:Hx.
    + exists rest. simpl. now rewrite <- Hsplit.
    + exists (String x s). now split.
Qed.

Lemma url_run_app (run rest : string) :
  (forall c, In c (list_ascii_of_string run) -> UrlRegex.url_unit c = true) ->
  url_ends rest ->
  UrlRegex.url_run (run ++ rest) = run.
Proof.
  intros Hrun Hends. induction run as [| x run IH]; simpl.
  - destruct rest as [| c rest]; [reflexivity |]. simpl in *. now rewrite Hends.
  - rewrite (Hrun x (or_introl eq_refl)), IH; [reflexivity |].
    intros c Hc. apply Hrun. now right.
Qed.

(** What a match at the head of a text is. *)
Lemma match_at_Some (s m : string) :
  UrlRegex.match_at s = Some m ->
  exists rest, s = m ++ rest /\ url_shaped m /\ url_ends rest.
Proof.
  unfold UrlRegex.match_at.
  destruct (UrlRegex.http_at s) as [[letters after] |] eqn:Hhttp;
    [| discriminate].
  apply http_at_Some in Hhttp as [-> Hletters].
  destruct (UrlRegex.colon_slashes_at after) as [[sep after'] |] eqn:Hsep;
    [| discriminate].
  apply colon_slashes_at_Some in Hsep as [-> Hsep].
  destruct (url_run_split after') as (rest & Hsplit & Hends).
  pose proof (url_run_units after') as Hunits.
  destruct (UrlRegex.url_run after') as [| x run] eqn:Hrun; [discriminate |].
  intro Heq. inversion Heq. subst m. clear Heq.
  exists rest. split; [| split; [| exact Hends]].
  - rewrite Hsplit at 1. now rewrite !string_app_assoc.
  - destruct Hsep as [-> | (c & -> & Hc)].
    + exists letters, (String x run). repeat split; try tauto. discriminate.
    + exists (letters ++ String c ""), (String x run).
      split; [now rewrite !string_app_assoc |].
      split; [| split; [discriminate | exact Hunits]].
      right.
      destruct letters as [| c1 [| c2 [| c3 [| c4 [| c5 letters]]]]];
        cbn [reads_as] in Hletters; try tauto.
      cbn [append reads_as]. tauto.
Qed.

(** A text of the URL shape, followed by nothing that could extend it, is
    matched whole. *)
Lemma match_at_shaped (m rest : string) :
  url_shaped m -> url_ends rest -> UrlRegex.match_at (m ++ rest) = Some m.
Proof.
  intros (scheme & run & -> & Hscheme & Hrun & Hunits) Hends.
  assert (Hletters : exists letters tail,
             scheme = letters ++ tail /\ reads_as "http" letters /\
             (tail = "" \/ exists c, tail = String c "" /\
                                      (c = "s" \/ c = capital "s")%char)).
  { destruct Hscheme as [Hhttp | Hhttps].
    - exists scheme, EmptyString. rewrite string_app_nil_r. tauto.
    - destruct scheme as [| c1 [| c2 [| c3 [| c4 [| c5 [| c6 scheme]]]]]];
        cbn [reads_as] in Hhttps; try tauto.
      exists (String c1 (String c2 (String c3 (String c4 "")))), (String c5 "").
      split; [reflexivity |]. split; [cbn [reads_as]; tauto |].
      right. exists c5. tauto. }
  destruct Hletters as (letters & tail & -> & Hreads & Htail).
  unfold UrlRegex.match_at.
  rewrite !string_app_assoc.
  rewrite (proj2 (http_at_Some _ letters _) (conj eq_refl Hreads)).
  destruct Htail as [-> | (c & -> & Hc)].
  - cbn [append]. change (String ":" (String "/" (String "/" (run ++ rest))))
      with ("://" ++ run ++ rest).
    rewrite colon_slashes_at_plain, (url_run_app run rest Hunits Hends).
    destruct run; [congruence | reflexivity].
  - cbn [append]. change (String c (String ":" (String "/" (String "/" (run ++ rest)))))
      with (String c ("://" ++ run ++ rest)).
    rewrite (colon_slashes_at_s c _ Hc), (url_run_app run rest Hunits Hends).
    destruct run; [congruence |]. now rewrite ?string_app_assoc.
Qed.

Lemma url_shaped_nonempty (m : string) :
  url_shaped m -> exists c m', m = String c m'.
Proof.
  intros (scheme & run & -> & Hscheme & _).
  destruct scheme as [| c scheme].
  - destruct Hscheme as [H | H]; cbn in H; contradiction.
  - now exists c, (scheme ++ "://" ++ run).
Qed.

Lemma scan_skip (pre rest : string) :
  UrlRegex.scan (String.length pre) (pre ++ rest) = UrlRegex.scan 0 rest.
Proof. induction pre as [| c pre IH]; simpl; [reflexivity | exact IH]. Qed.

Lemma scan_at_match (m rest : string) :
  UrlRegex.match_at (m ++ rest) = Some m ->
  UrlRegex.scan 0 (m ++ rest) = m :: UrlRegex.scan 0 rest.
Proof.
  intro Hmatch.
  destruct (match_at_Some _ _ Hmatch) as (_ & _ & Hshape & _).
  destruct (url_shaped_nonempty m Hshape) as (c & m' & ->).
  cbn [append UrlRegex.scan]. cbn [append] in Hmatch. rewrite Hmatch.
  cbn [String.length]. rewrite Nat.sub_1_r. cbn [Nat.pred].
  now rewrite scan_skip.
Qed.

Lemma scan_weave (s : string) :
  forall k pre rest,
    s = pre ++ rest -> String.length pre = k ->
    exists pieces tail,
      rest = weave pieces tail /\ map snd pieces = UrlRegex.scan k s /\
      well_cut pieces tail.
Proof.
  induction s as [| c s IH]; intros k pre rest Hsplit Hlen.
  - destruct pre; [| discriminate]. simpl in Hsplit. subst rest.
    exists [], EmptyString. now repeat split.
  - destruct pre as [| x pre]; simpl in Hlen; subst k.
    + simpl in Hsplit. subst rest. cbn [UrlRegex.scan].
      destruct (UrlRegex.match_at (String c s)) as [m |] eqn:Hmatch.
      * destruct (match_at_Some _ _ Hmatch) as (after & Hafter & Hshape & Hends).
        destruct (url_shaped_nonempty m Hshape) as (c' & m' & ->).
        cbn [append] in Hafter. inversion Hafter. subst c' s.
        destruct (IH (String.length m') m' after eq_refl eq_refl)
          as (pieces & tail & Htail & Hmap & Hcut).
        exists (("", String c m') :: pieces), tail.
        cbn [weave map snd well_cut String.length append].
        rewrite Nat.sub_1_r. cbn [Nat.pred]. rewrite <- Hmap, <- Htail.
        repeat split; auto.
      * destruct (IH 0 EmptyString s eq_refl eq_refl)
          as (pieces & tail & Htail & Hmap & Hcut).
        destruct pieces as [| [gap m] pieces].
        -- exists [], (String c tail). cbn [weave] in *. subst s.
           now repeat split.
        -- exists ((String c gap, m) :: pieces), tail.
           cbn [weave map snd well_cut append] in *. subst s.
           now repeat split.
    + inversion Hsplit. subst x s. cbn [UrlRegex.scan].
      exact (IH (String.length pre) pre rest eq_refl eq_refl).
Qed.

(** X1. The URLs extracted from a text are stretches of it, in the order of
    the text and without overlap: the text is a gap, the first URL, a gap, the
    second URL, and so on.  Each URL has the shape of the pattern and is as
    long as it can be: behind it the text stops or goes on with white space or
    a delimiter. *)
Theorem extractUrls_cut :
  forall text : string,
    exists pieces tail,
      text = weave pieces tail /\
      map snd pieces = extractUrls text /\
      well_cut pieces tail.
Proof.
  intro text. exact (scan_weave text 0 EmptyString text eq_refl eq_refl).
Qed.

(** X2. A text that starts with a URL-shaped stretch, followed by the end of
    the text or by a unit no URL can hold, yields that stretch as its first
    URL, and the rest of its URLs are those of what follows. *)
Theorem extractUrls_whole :
  forall m rest : string,
    url_shaped m -> url_ends rest ->
    extractUrls (m ++ rest) = m :: extractUrls rest.
Proof.
  intros m rest Hshape Hends. unfold extractUrls, UrlRegex.extractUrls.
  apply scan_at_match. now apply match_at_shaped.
Qed.

End UrlPattern.

(** ** More on reading conference data *)

Section InboundConference.

Context {L : MeetingLinks} {R : Runtime}.

(** A list of URLs either holds none the detector recognises, or has a first
    one. *)
Lemma first_recognised (urls : list string) :
  (forall u, In u urls -> detectMeetingLink u = None) \/
  exists before url after service,
    urls = (before ++ url :: after)%list /\
    (forall u, In u before -> detectMeetingLink u = None) /\
    detectMeetingLink url = Some service.
Proof.
  induction urls as [| u urls IH]; [left; intros u []|].
  destruct (detectMeetingLink u) as [service |] eqn:Hu.
  - right. exists [], u, urls, service. repeat split; auto. intros v [].
  - destruct IH as [Hnone | (before & url & after & service & -> & Hmiss & Hhit)].
    + left. intros v [<- | Hv]; auto.
    + right. exists (u :: before), url, after, service.
      repeat split; auto. intros v [<- | Hv]; auto.
Qed.

(** X3. The fallback scan returns a conference exactly when the detector
    recognises one of the candidates, and the conference is then the one built
    from the first candidate recognised: its id and the meeting code of its
    video entry are the id of the service, its join URL is the one the
    detector reports, and it has no conference id, no sip and no phone
    entry. *)
Theorem fallback_conference_origin :
  forall event : GoogleCalendarEvent.t,
    let result := returned (parseGoogleCalendarConferenceFallback event) in
    (result = Some None <->
     forall u, In u (candidates event) -> detectMeetingLink u = None) /\
    (forall conference, result = Some (Some conference) ->
       exists before url after service,
         candidates event = (before ++ url :: after)%list /\
         (forall u, In u before -> detectMeetingLink u = None) /\
         detectMeetingLink url = Some service /\
         conference = meetingLinkConference service /\
         Conference.id conference = Some (MeetingService.id service) /\
         option_map ConferenceEntryPoint.meetingCode (Conference.video conference) =
           Some (Some (MeetingService.id service)) /\
         option_map (fun v => JoinUrl.value (ConferenceEntryPoint.joinUrl v))
                    (Conference.video conference) =
           Some (MeetingService.joinUrl service) /\
         Conference.conferenceId conference = None /\
         Conference.sip conference = None /\
         Conference.phone conference = None).
Proof.
  intros event result. subst result. rewrite fallback_scans_candidates.
  destruct (first_recognised (candidates event))
    as [Hnone | (before & url & after & service & Hsplit & Hmiss & Hhit)].
  - rewrite (check_each_miss _ Hnone). split.
    + split; [intros _; exact Hnone | reflexivity].
    + intros conference Hsome. discriminate Hsome.
  - rewrite Hsplit, (check_each_hit before url after service Hmiss Hhit).
    split.
    + split; [discriminate |].
      intro Hnone. rewrite Hnone in Hhit; [discriminate |].
      apply in_or_app. right. now left.
    + intros conference Hsome. inversion Hsome. subst conference.
      exists before, url, after, service. now repeat split.
Qed.

(** The conference data and the first entry point of an event that has
    structured entry points. *)
Lemma structured_when_entry_points (event : GoogleCalendarEvent.t) :
  entry_points_of event <> [] ->
  exists data,
    GoogleCalendarEvent.conferenceData event = Some data /\
    parseGoogleCalendarConferenceData event =
    (ConsoleLog (Some data) :: fst (parseStructured data (entry_points_of event)),
     snd (parseStructured data (entry_points_of event))).
Proof.
  unfold entry_points_of, parseGoogleCalendarConferenceData, console_log, bind.
  destruct (GoogleCalendarEvent.conferenceData event) as [data |];
    [| congruence].
  destruct (GoogleCalendarEventConferenceData.entryPoints data)
    as [[| e es] |]; cbn [Js.nullish]; try congruence.
  intros _. exists data. split; [reflexivity |].
  now destruct (parseStructured data (e :: es)).
Qed.

(** Everything [parseStructured] does. *)
Lemma parseStructured_fields (data : GoogleCalendarEventConferenceData.t)
    (entryPoints : list EntryPoint.t) :
  exists back,
    parseStructured data entryPoints =
      (map Detect (first_uri "video" entryPoints), inr (Some back)) /\
    Conference.id back =
      match first_uri "video" entryPoints with
      | [] => None
      | uri :: _ => option_map MeetingService.id (detectMeetingLink uri)
      end /\
    Conference.conferenceId back =
      GoogleCalendarEventConferenceData.conferenceId data /\
    Conference.name back =
      match GoogleCalendarEventConferenceData.conferenceSolution data with
      | Some solution => ConferenceSolution.name solution
      | None => None
      end /\
    Conference.extra back = None /\
    Conference.video back =
      inboundOptional (find (has_type "video") entryPoints) /\
    Conference.sip back = inboundOptional (find (has_type "sip") entryPoints) /\
    Conference.phone back =
      match filter (fun e => has_type "phone" e && Js.truthy (EntryPoint.uri e))
                   entryPoints with
      | [] => None
      | phones =>
          Some (map (fun e => inboundEntryPoint (Js.nullish (EntryPoint.uri e) "") e)
                    phones)
      end.
Proof.
  unfold parseStructured, first_uri.
  destruct (find (has_type "video") entryPoints) as [v |];
    [destruct (EntryPoint.uri v) as [[| c uri] |] |];
    eexists; (split; [reflexivity |]); cbn;
    repeat split; try reflexivity;
    now destruct (filter _ entryPoints).
Qed.

(** X4. An event that has structured entry points always gets a conference,
    read from its conference data alone: the detector is asked at most once,
    about the URI of the first video entry point, and two events with the
    same conference data give the same result whatever their hangout link,
    description, location, source, attachments and gadget hold. *)
Theorem structured_ignores_other_fields :
  forall event : GoogleCalendarEvent.t,
    entry_points_of event <> [] ->
    (exists conference,
        returned (parseGoogleCalendarConferenceData event) =
        Some (Some conference)) /\
    detector_calls (parseGoogleCalendarConferenceData event) =
      first_uri "video" (entry_points_of event) /\
    (forall other : GoogleCalendarEvent.t,
        GoogleCalendarEvent.conferenceData other =
        GoogleCalendarEvent.conferenceData event ->
        parseGoogleCalendarConferenceData other =
        parseGoogleCalendarConferenceData event).
Proof.
  intros event Hpoints.
  destruct (structured_when_entry_points event Hpoints) as (data & Hdata & Hparse).
  destruct (parseStructured_fields data (entry_points_of event))
    as (back & Hback & _).
  split; [| split].
  - exists back. rewrite Hparse, Hback. reflexivity.
  - rewrite Hparse, Hback. unfold detector_calls, trace. cbn [fst flat_map app].
    apply (detector_calls_of_detects (A := unit) _ (inr tt)).
  - intros other Hsame.
    assert (Hother : entry_points_of other = entry_points_of event)
      by (unfold entry_points_of; now rewrite Hsame).
    assert (Hpoints' : entry_points_of other <> []) by now rewrite Hother.
    destruct (structured_when_entry_points other Hpoints')
      as (data' & Hdata' & Hparse').
    rewrite Hparse, Hparse', Hother.
    assert (data' = data) by congruence. now subst data'.
Qed.

Lemma find_first (kind : string) (before : list EntryPoint.t)
    (e : EntryPoint.t) (after : list EntryPoint.t) :
  (forall b, In b before -> has_type kind b = false) ->
  has_type kind e = true ->
  find (has_type kind) (before ++ e :: after) = Some e.
Proof.
  intros Hbefore He. induction before as [| b before IH]; simpl.
  - now rewrite He.
  - rewrite (Hbefore b (or_introl eq_refl)). apply IH.
    intros x Hx. apply Hbefore. now right.
Qed.

(** X5. Among several video entry points only the first counts: with a
    non-empty URI it becomes the video entry of the conference, and without
    one the conference has no video entry, whatever video entry points come
    behind it.  The same holds for sip. *)
Theorem first_entry_point_of_a_kind_wins :
  forall (event : GoogleCalendarEvent.t) (kind : string)
         (before : list EntryPoint.t) (first : EntryPoint.t)
         (after : list EntryPoint.t) (conference : Conference.t),
    entry_points_of event = (before ++ first :: after)%list ->
    (forall b, In b before -> has_type kind b = false) ->
    has_type kind first = true ->
    returned (parseGoogleCalendarConferenceData event) = Some (Some conference) ->
    let entry :=
      match EntryPoint.uri first with
      | Some (String _ _ as uri) => Some (inboundEntryPoint uri first)
      | _ => None
      end in
    (kind = "video" -> Conference.video conference = entry) /\
    (kind = "sip" -> Conference.sip conference = entry).
Proof.
  intros event kind before first after conference Hpoints Hbefore Hfirst Hret entry.
  assert (Hne : entry_points_of event <> [])
    by (rewrite Hpoints; now destruct before).
  destruct (structured_when_entry_points event Hne) as (data & _ & Hparse).
  destruct (parseStructured_fields data (entry_points_of event))
    as (back & Hback & _ & _ & _ & _ & Hvideo & Hsip & _).
  rewrite Hparse, Hback in Hret. inversion Hret. subst conference.
  rewrite Hpoints in Hvideo, Hsip.
  split; intros ->.
  - rewrite (find_first "video" before first after Hbefore Hfirst) in Hvideo.
    exact Hvideo.
  - rewrite (find_first "sip" before first after Hbefore Hfirst) in Hsip.
    exact Hsip.
Qed.

Lemma inboundOptional_value (e : option EntryPoint.t)
    (entry : ConferenceEntryPoint.t) :
  inboundOptional e = Some entry ->
  JoinUrl.value (ConferenceEntryPoint.joinUrl entry) <> "".
Proof.
  destruct e as [e |]; [| discriminate]. unfold inboundOptional.
  destruct (EntryPoint.uri e) as [[| c uri] |]; try discriminate.
  intro Heq. inversion Heq. discriminate.
Qed.

(** X6. In a conference read from structured entry points every join URL is
    non-empty, and every phone entry comes from an entry point of type phone
    with that URI.  Whatever branch a conference comes from, its phone list
    is never the empty list: without a usable phone entry point there is no
    phone list at all. *)
Theorem inbound_join_urls_not_empty :
  forall (event : GoogleCalendarEvent.t) (conference : Conference.t),
    returned (parseGoogleCalendarConferenceData event) = Some (Some conference) ->
    Conference.phone conference <> Some [] /\
    (entry_points_of event <> [] ->
     (forall video, Conference.video conference = Some video ->
        JoinUrl.value (ConferenceEntryPoint.joinUrl video) <> "") /\
     (forall sip, Conference.sip conference = Some sip ->
        JoinUrl.value (ConferenceEntryPoint.joinUrl sip) <> "") /\
     (forall phoneEntry,
        In phoneEntry (Js.nullish (Conference.phone conference) []) ->
        JoinUrl.value (ConferenceEntryPoint.joinUrl phoneEntry) <> "" /\
        exists e, In e (entry_points_of event) /\
                  has_type "phone" e = true /\
                  EntryPoint.uri e =
                    Some (JoinUrl.value (ConferenceEntryPoint.joinUrl phoneEntry)))).
Proof.
  intros event conference Hret.
  assert (Hcases : entry_points_of event = [] \/ entry_points_of event <> [])
    by (destruct (entry_points_of event); [now left | right; discriminate]).
  destruct Hcases as [Hnone | Hpoints].
  - split; [| congruence].
    rewrite (unstructured_is_fallback event Hnone) in Hret.
    unfold returned in Hret. cbn [snd] in Hret.
    pose proof (fallback_scans_candidates event) as Hscan.
    destruct (first_recognised (candidates event))
      as [Hmiss | (before & url & after & service & Hsplit & Hmiss & Hhit)].
    + rewrite Hscan, (check_each_miss _ Hmiss) in Hret. discriminate Hret.
    + rewrite Hscan, Hsplit, (check_each_hit _ _ _ _ Hmiss Hhit) in Hret.
      inversion Hret. discriminate.
  - destruct (structured_when_entry_points event Hpoints) as (data & _ & Hparse).
    destruct (parseStructured_fields data (entry_points_of event))
      as (back & Hback & _ & _ & _ & _ & Hvideo & Hsip & Hphone).
    rewrite Hparse, Hback in Hret. inversion Hret. subst conference.
    split.
    + rewrite Hphone. now destruct (filter _ (entry_points_of event)).
    + intros _. split; [| split].
      * intros video Hv. rewrite Hvideo in Hv.
        exact (inboundOptional_value _ _ Hv).
      * intros sip Hs. rewrite Hsip in Hs. exact (inboundOptional_value _ _ Hs).
      * intros phoneEntry Hin.
        assert (Hin' : In phoneEntry
                         (map (fun e => inboundEntryPoint
                                          (Js.nullish (EntryPoint.uri e) "") e)
                              (filter (fun e => has_type "phone" e &&
                                                Js.truthy (EntryPoint.uri e))
                                      (entry_points_of event)))).
        { rewrite Hphone in Hin.
          destruct (filter _ (entry_points_of event)); [contradiction | exact Hin]. }
        apply in_map_iff in Hin' as (e & <- & He).
        apply filter_In in He as (He & Hkind).
        apply Bool.andb_true_iff in Hkind as (Hkind & Huri).
        destruct (EntryPoint.uri e) as [[| c uri] |] eqn:Hu; try discriminate.
        cbn. split; [discriminate |]. exists e. now repeat split.
Qed.

End InboundConference.

(** ** More on the outbound conference payload *)

Section OutboundShape.

Context {L : MeetingLinks} {R : Runtime}.

Lemma sent_Some (entry : option ConferenceEntryPoint.t)
    (e : ConferenceEntryPoint.t) :
  sent entry = Some e ->
  entry = Some e /\
  exists c value, JoinUrl.value (ConferenceEntryPoint.joinUrl e) = String c value.
Proof.
  unfold sent. destruct entry as [x |]; [| discriminate].
  destruct (JoinUrl.value (ConferenceEntryPoint.joinUrl x)) as [| c value] eqn:Hv;
    cbn [Js.truthy]; [discriminate |].
  intro Heq. inversion Heq. subst x. split; [reflexivity |]. now exists c, value.
Qed.

Lemma or_else_Some (a : option string) (b : string) :
  Js.or_else a (Some b) <> None.
Proof. unfold Js.or_else. destruct a as [[| c a] |]; discriminate. Qed.

(** X7. The entry points of an outbound payload come in the order video,
    sip, phone: at most one video and one sip entry point, sent only for a
    non-empty join URL, then one phone entry point per phone entry.  Every
    entry point has a non-empty URI, every video and phone entry point has a
    label, and the payload never carries an empty list: it has no entryPoints
    key exactly when nothing is sent. *)
Theorem outbound_entry_points_shape :
  forall conference : Conference.t,
    let data := toGoogleCalendarConferenceData conference in
    let points :=
      Js.nullish (GoogleCalendarEventConferenceData.entryPoints data) [] in
    let phones := Js.nullish (Conference.phone conference) [] in
    map EntryPoint.entryPointType points =
      (match sent (Conference.video conference) with
       | Some _ => [Some "video"]
       | None => []
       end ++
       match sent (Conference.sip conference) with
       | Some _ => [Some "sip"]
       | None => []
       end ++
       map (fun _ => Some "phone") phones)%list /\
    (forall e, In e points ->
       Js.truthy (EntryPoint.uri e) = true /\
       (has_type "sip" e = false -> EntryPoint.label e <> None)) /\
    GoogleCalendarEventConferenceData.entryPoints data <> Some [] /\
    (GoogleCalendarEventConferenceData.entryPoints data = None <->
     sent (Conference.video conference) = None /\
     sent (Conference.sip conference) = None /\
     phones = []).
Proof.
  intros conference data points phones. subst data points phones.
  rewrite entryPoints_of_outbound.
  assert (Hkey : GoogleCalendarEventConferenceData.entryPoints
                   (toGoogleCalendarConferenceData conference) =
                 match outboundEntryPoints conference with
                 | [] => None
                 | _ :: _ => Some (outboundEntryPoints conference)
                 end) by reflexivity.
  rewrite Hkey. clear Hkey. rewrite outboundEntryPoints_sent.
  set (phones := Js.nullish (Conference.phone conference) []).
  split; [| split; [| split]].
  - rewrite !map_app, map_map.
    destruct (sent (Conference.video conference)),
             (sent (Conference.sip conference)); reflexivity.
  - intros e He. rewrite !in_app_iff in He. destruct He as [He | [He | He]].
    + destruct (sent (Conference.video conference)) as [v |] eqn:Hv;
        [| contradiction].
      destruct He as [<- | []].
      destruct (sent_Some _ _ Hv) as (_ & c & value & Hvalue).
      split.
      * cbn [videoEntryPoint EntryPoint.uri]. now rewrite Hvalue.
      * intros _. apply or_else_Some.
    + destruct (sent (Conference.sip conference)) as [sp |] eqn:Hs;
        [| contradiction].
      destruct He as [<- | []].
      destruct (sent_Some _ _ Hs) as (_ & c & value & Hvalue).
      split.
      * cbn [sipEntryPoint EntryPoint.uri]. now rewrite Hvalue.
      * intro Hsip. discriminate Hsip.
    + apply in_map_iff in He as (p & <- & _).
      split; [apply phone_uri_truthy |].
      intros _. apply or_else_Some.
  - destruct (sent (Conference.video conference)),
             (sent (Conference.sip conference)), phones; discriminate.
  - destruct (sent (Conference.video conference)),
             (sent (Conference.sip conference)), phones; cbn;
      split; try discriminate; try tauto; intros (? & ? & ?); discriminate.
Qed.

Lemma first_uri_video_outbound (conference : Conference.t) :
  first_uri "video" (outboundEntryPoints conference) =
  match sent (Conference.video conference) with
  | Some video => [JoinUrl.value (ConferenceEntryPoint.joinUrl video)]
  | None => []
  end.
Proof.
  unfold first_uri. rewrite find_video_outbound.
  destruct (sent (Conference.video conference)) as [v |] eqn:Hv; [| reflexivity].
  destruct (sent_Some _ _ Hv) as (_ & c & value & Hvalue).
  cbn [option_map videoEntryPoint EntryPoint.uri]. now rewrite Hvalue.
Qed.

(** X8. Sending a conference out and reading it back keeps its conference
    id, gives it the name Google Meet when it had none, and loses its extra
    parameters.  Its id does not make the trip: the id read back is the one
    the detector finds for the video join URL, the only question the detector
    is asked, and there is none without a video entry. *)
Theorem round_trip_of_identity_fields :
  forall (event : GoogleCalendarEvent.t) (conference : Conference.t),
    GoogleCalendarEventConferenceData.entryPoints
      (toGoogleCalendarConferenceData conference) <> None ->
    exists back,
      returned (roundTrip event conference) = Some (Some back) /\
      Conference.conferenceId back = Conference.conferenceId conference /\
      Conference.name back =
        Some (Js.nullish (Conference.name conference) "Google Meet") /\
      Conference.extra back = None /\
      Conference.id back =
        match sent (Conference.video conference) with
        | Some video =>
            option_map MeetingService.id
              (detectMeetingLink
                 (JoinUrl.value (ConferenceEntryPoint.joinUrl video)))
        | None => None
        end /\
      detector_calls (roundTrip event conference) =
        match sent (Conference.video conference) with
        | Some video => [JoinUrl.value (ConferenceEntryPoint.joinUrl video)]
        | None => []
        end.
Proof.
  intros event conference Hsome. unfold roundTrip.
  set (sent_event := withConferenceData event
                       (toGoogleCalendarConferenceData conference)).
  assert (Hpoints : entry_points_of sent_event = outboundEntryPoints conference).
  { unfold entry_points_of, sent_event.
    cbn [GoogleCalendarEvent.conferenceData withConferenceData].
    apply entryPoints_of_outbound. }
  assert (Hne : entry_points_of sent_event <> []).
  { rewrite Hpoints. intro Hnil. apply Hsome.
    unfold toGoogleCalendarConferenceData.
    cbn [GoogleCalendarEventConferenceData.entryPoints]. now rewrite Hnil. }
  destruct (structured_when_entry_points sent_event Hne) as (data & Hdata & Hparse).
  assert (data = toGoogleCalendarConferenceData conference)
    by (unfold sent_event in Hdata;
        cbn [GoogleCalendarEvent.conferenceData withConferenceData] in Hdata;
        congruence).
  subst data.
  destruct (parseStructured_fields (toGoogleCalendarConferenceData conference)
              (entry_points_of sent_event))
    as (back & Hback & Hid & Hcid & Hname & Hextra & _).
  exists back. rewrite Hparse, Hback.
  rewrite Hpoints, first_uri_video_outbound in *.
  split; [reflexivity |]. split; [exact Hcid |].
  split; [exact Hname |]. split; [exact Hextra |].
  split.
  - rewrite Hid. now destruct (sent (Conference.video conference)).
  - unfold detector_calls, trace. cbn [fst flat_map app].
    apply (detector_calls_of_detects (A := unit) _ (inr tt)).
Qed.

(** X19. A conference of which nothing can be sent, no video or sip entry
    with a join URL and no phone entry, does not come back: its payload has no
    entry points, so reading it on an event is the fallback scan of the other
    fields of that event, and its conference id and its name are not looked
    at. *)
Theorem round_trip_without_entry_points :
  forall (event : GoogleCalendarEvent.t) (conference : Conference.t),
    sent (Conference.video conference) = None ->
    sent (Conference.sip conference) = None ->
    Js.nullish (Conference.phone conference) [] = [] ->
    roundTrip event conference =
    (ConsoleLog (Some (toGoogleCalendarConferenceData conference))
       :: fst (parseGoogleCalendarConferenceFallback event),
     snd (parseGoogleCalendarConferenceFallback event)).
Proof.
  intros event conference Hvideo Hsip Hphone. unfold roundTrip.
  set (sent_event := withConferenceData event
                       (toGoogleCalendarConferenceData conference)).
  assert (Hnone : entry_points_of sent_event = []).
  { unfold entry_points_of, sent_event.
    cbn [GoogleCalendarEvent.conferenceData withConferenceData].
    rewrite entryPoints_of_outbound, outboundEntryPoints_sent.
    now rewrite Hvideo, Hsip, Hphone. }
  rewrite (unstructured_is_fallback sent_event Hnone). reflexivity.
Qed.

End OutboundShape.

(** ** More on reading events *)

Section EventParsing.

Context {T : Temporal} {L : MeetingLinks} {R : Runtime}.

Lemma readDate_silent (allDay : bool) (arg : option GoogleCalendarDate.t) :
  fst (readDate allDay arg) = [].
Proof.
  destruct allDay, arg as [d |]; try reflexivity; cbn.
  - unfold PlainDate_from_value.
    destruct (GoogleCalendarDate.date d) as [s |]; [| reflexivity].
    now destruct (PlainDate_from s).
  - unfold Instant_from_value.
    destruct (GoogleCalendarDate.dateTime d) as [s |]; [| reflexivity].
    destruct (Instant_from s) as [i |]; [| reflexivity]. cbn.
    destruct (GoogleCalendarDate.timeZone d) as [[| c z] |]; try reflexivity.
    now destruct (toZonedDateTimeISO i (String c z)).
Qed.

(** The three ways [parseGoogleCalendarEvent] ends. *)
Lemma parseGoogleCalendarEvent_cases (calendar : Calendar.t)
    (accountId : string) (event : GoogleCalendarEvent.t) :
  parseGoogleCalendarEvent calendar accountId event =
  match snd (readDate (isAllDay event) (GoogleCalendarEvent.start event)) with
  | inl e => throw e
  | inr start =>
      match snd (readDate (isAllDay event) (GoogleCalendarEvent.end_ event)) with
      | inl e => throw e
      | inr end_ =>
          (fst (parseGoogleCalendarConferenceData event),
           match snd (parseGoogleCalendarConferenceData event) with
           | inl e => inl e
           | inr conference =>
               inr (eventObject calendar accountId event start end_ conference)
           end)
      end
  end.
Proof.
  unfold parseGoogleCalendarEvent.
  pose proof (readDate_silent (isAllDay event) (GoogleCalendarEvent.start event))
    as Hs.
  pose proof (readDate_silent (isAllDay event) (GoogleCalendarEvent.end_ event))
    as He.
  destruct (readDate (isAllDay event) (GoogleCalendarEvent.start event))
    as [ts [es | start]]; cbn [fst snd] in *; subst ts; [reflexivity |].
  cbn [bind].
  destruct (readDate (isAllDay event) (GoogleCalendarEvent.end_ event))
    as [te [ee | end_]]; cbn [fst snd] in *; subst te; [reflexivity |].
  cbn [bind].
  destruct (parseGoogleCalendarConferenceData event) as [tc [ec | conference]];
    cbn; now rewrite ?app_nil_r.
Qed.

Lemma readDate_back (v : DateValue) (allDay : bool) :
  reads_back v -> allDay = is_plain v ->
  readDate allDay (Some (toGoogleCalendarDate v)) = ret v.
Proof.
  intros Hback ->. destruct v as [d | i | z]; cbn in *.
  - unfold PlainDate_from_value. now rewrite Hback.
  - destruct Hback as (_ & Hfrom). unfold Instant_from_value.
    now rewrite Hfrom.
  - destruct Hback as (_ & Hzone & i & Hfrom & Hzoned). unfold Instant_from_value.
    rewrite Hfrom. cbn. destruct (timeZoneId z) as [| c zone]; [congruence |].
    now rewrite Hzoned.
Qed.

Lemma isAllDay_of_sent (event : GoogleCalendarEvent.t) (v : DateValue) :
  GoogleCalendarEvent.start event = Some (toGoogleCalendarDate v) ->
  reads_back v -> isAllDay event = is_plain v.
Proof.
  intros Hstart Hback. unfold isAllDay. rewrite Hstart.
  destruct v as [d | i | z]; cbn in *; [reflexivity | |].
  - destruct Hback as (Hne & _). now destruct (Instant_toString i).
  - destruct Hback as (Hne & _). now destruct (ZonedDateTime_toString z).
Qed.

(** X9. Dates survive the trip out and back: when the start and the end of a
    payload are what toGoogleCalendarDate sends for two values of the same
    kind, both plain dates or both date-times, and Temporal reads each value
    back from its own text, the event is returned with exactly these two
    values, and it is all-day exactly when they are plain dates. *)
Theorem event_dates_round_trip :
  forall (calendar : Calendar.t) (accountId : string)
         (event : GoogleCalendarEvent.t) (start end_ : DateValue),
    GoogleCalendarEvent.start event = Some (toGoogleCalendarDate start) ->
    GoogleCalendarEvent.end_ event = Some (toGoogleCalendarDate end_) ->
    reads_back start -> reads_back end_ ->
    is_plain start = is_plain end_ ->
    dates_of (returned (parseGoogleCalendarEvent calendar accountId event)) =
    Some (is_plain start, start, end_).
Proof.
  intros calendar accountId event start end_ Hstart Hend Hbs Hbe Hkind.
  rewrite parseGoogleCalendarEvent_cases.
  rewrite (isAllDay_of_sent event start Hstart Hbs), Hstart, Hend.
  rewrite (readDate_back start _ Hbs eq_refl), (readDate_back end_ _ Hbe Hkind).
  cbn [snd ret].
  destruct (parseGoogleCalendarConferenceData_total event) as [conference Hc].
  unfold returned. cbn [snd]. rewrite Hc. cbn.
  now rewrite (isAllDay_of_sent event start Hstart Hbs).
Qed.

(** X10. A payload that mixes the kinds, a plain date at one end and a
    date-time at the other, is not read: once the start has been read, the end
    lacks the field the start calls for and Temporal raises a TypeError,
    before the console or the detector is touched. *)
Theorem mixed_date_kinds_throw :
  forall (calendar : Calendar.t) (accountId : string)
         (event : GoogleCalendarEvent.t) (start end_ : DateValue),
    GoogleCalendarEvent.start event = Some (toGoogleCalendarDate start) ->
    GoogleCalendarEvent.end_ event = Some (toGoogleCalendarDate end_) ->
    reads_back start ->
    is_plain start <> is_plain end_ ->
    parseGoogleCalendarEvent calendar accountId event = throw TypeError.
Proof.
  intros calendar accountId event start end_ Hstart Hend Hbs Hkind.
  rewrite parseGoogleCalendarEvent_cases.
  rewrite (isAllDay_of_sent event start Hstart Hbs), Hstart, Hend.
  rewrite (readDate_back start _ Hbs eq_refl). cbn [snd ret].
  destruct start as [d | i | z], end_ as [d' | i' | z']; cbn in Hkind;
    try congruence; reflexivity.
Qed.

(** X11. A failed read is silent and the start is judged first.  When the
    start cannot be read the event fails with the error of the start; when the
    start can and the end cannot, with the error of the end.  In both cases
    nothing was printed and the detector was not asked; the conference is only
    looked for once both dates are read. *)
Theorem event_failure_is_silent :
  forall (calendar : Calendar.t) (accountId : string)
         (event : GoogleCalendarEvent.t),
    let result := parseGoogleCalendarEvent calendar accountId event in
    let start := readDate (isAllDay event) (GoogleCalendarEvent.start event) in
    let end_ := readDate (isAllDay event) (GoogleCalendarEvent.end_ event) in
    (forall e, snd start = inl e -> result = throw e) /\
    (forall e, returned start <> None -> snd end_ = inl e -> result = throw e) /\
    (forall e, snd result = inl e -> trace result = []) /\
    (returned start <> None -> returned end_ <> None ->
     returned result <> None /\
     trace result = trace (parseGoogleCalendarConferenceData event)).
Proof.
  intros calendar accountId event result start end_. subst result start end_.
  rewrite parseGoogleCalendarEvent_cases. unfold returned.
  destruct (parseGoogleCalendarConferenceData_total event) as [conference Hc].
  destruct (snd (readDate (isAllDay event) (GoogleCalendarEvent.start event)))
    as [es | start];
    destruct (snd (readDate (isAllDay event) (GoogleCalendarEvent.end_ event)))
      as [ee | end_];
    rewrite ?Hc; cbn;
    repeat split; try congruence; try discriminate; try tauto.
Qed.

Lemma parsed_status_not_needsAction (status : option string) :
  option_map parseGoogleCalendarAttendeeStatus status <> Some "needsAction".
Proof.
  destruct status as [g |]; [| discriminate]. cbn.
  unfold parseGoogleCalendarAttendeeStatus.
  destruct (String.eqb_spec g "needsAction"); [discriminate | congruence].
Qed.

Lemma returned_event_object (calendar : Calendar.t) (accountId : string)
    (event : GoogleCalendarEvent.t) (parsed : CalendarEvent.t) :
  returned (parseGoogleCalendarEvent calendar accountId event) = Some parsed ->
  exists start end_ conference,
    parsed = eventObject calendar accountId event start end_ conference /\
    returned (parseGoogleCalendarConferenceData event) = Some conference /\
    trace (parseGoogleCalendarEvent calendar accountId event) =
    trace (parseGoogleCalendarConferenceData event).
Proof.
  rewrite parseGoogleCalendarEvent_cases. unfold returned, trace.
  destruct (snd (readDate (isAllDay event) (GoogleCalendarEvent.start event)))
    as [es | start]; [discriminate |].
  destruct (snd (readDate (isAllDay event) (GoogleCalendarEvent.end_ event)))
    as [ee | end_]; [discriminate |].
  cbn [fst snd].
  destruct (snd (parseGoogleCalendarConferenceData event)) as [ec | conference];
    [discriminate |].
  intro Heq. inversion Heq. now exists start, end_, conference.
Qed.

(** X12. The attendees of a returned event are those of the payload, one for
    one and in order, and none when the payload has no attendee list.  No
    status that comes out is needsAction, neither on an attendee nor in the
    response, and a response always repeats the status and the comment of one
    of the attendees returned. *)
Theorem event_attendees_and_response :
  forall (calendar : Calendar.t) (accountId : string)
         (event : GoogleCalendarEvent.t) (parsed : CalendarEvent.t),
    returned (parseGoogleCalendarEvent calendar accountId event) = Some parsed ->
    let given := Js.nullish (GoogleCalendarEvent.attendees event) [] in
    Forall2 (fun g a =>
               Attendee.email a = GoogleCalendarEventAttendee.email g /\
               Attendee.name a = GoogleCalendarEventAttendee.displayName g /\
               Attendee.comment a = GoogleCalendarEventAttendee.comment g)
            given (CalendarEvent.attendees parsed) /\
    (forall a, In a (CalendarEvent.attendees parsed) ->
               Attendee.status a <> Some "needsAction") /\
    (forall r, CalendarEvent.response parsed = Some r ->
               Response.status r <> Some "needsAction" /\
               exists a, In a (CalendarEvent.attendees parsed) /\
                         Attendee.status a = Response.status r /\
                         Attendee.comment a = Response.comment r).
Proof.
  intros calendar accountId event parsed Hparsed given.
  destruct (returned_event_object _ _ _ _ Hparsed)
    as (start & end_ & conference & -> & _).
  cbn [eventObject CalendarEvent.attendees CalendarEvent.response].
  assert (Hatt : match GoogleCalendarEvent.attendees event with
                 | Some l => map parseGoogleCalendarAttendee l
                 | None => []
                 end = map parseGoogleCalendarAttendee given)
    by (unfold given; now destruct (GoogleCalendarEvent.attendees event)).
  rewrite Hatt. clear Hatt Hparsed. split; [| split].
  - induction given as [| g given IH]; [apply Forall2_nil |].
    apply Forall2_cons; [now repeat split | exact IH].
  - intros a Ha. apply in_map_iff in Ha as (g & <- & _).
    apply parsed_status_not_needsAction.
  - intros r Hr. unfold parseResponseStatus in Hr.
    fold given in Hr.
    assert (Hfind : match GoogleCalendarEvent.attendees event with
                    | Some l =>
                        find (fun a => Js.truthyb (GoogleCalendarEventAttendee.self a)) l
                    | None => None
                    end =
                    find (fun a => Js.truthyb (GoogleCalendarEventAttendee.self a))
                         given)
      by (unfold given; now destruct (GoogleCalendarEvent.attendees event)).
    rewrite Hfind in Hr.
    destruct (find _ given) as [g |] eqn:Hg; [| discriminate].
    inversion Hr. subst r. cbn [Response.status Response.comment].
    split; [apply parsed_status_not_needsAction |].
    exists (parseGoogleCalendarAttendee g).
    split; [| now split].
    apply in_map. exact (proj1 (find_some _ _ Hg)).
Qed.

(** X13. A returned event belongs to the calendar it was read for: it has
    the id of that calendar as calendarId and is read-only exactly when the
    calendar is; its provider is google and its account the one given.  Its
    conference is what parseGoogleCalendarConferenceData returns for the
    payload, and reading the event asks the detector exactly what reading the
    conference alone asks. *)
Theorem event_inherits_calendar_and_conference :
  forall (calendar : Calendar.t) (accountId : string)
         (event : GoogleCalendarEvent.t) (parsed : CalendarEvent.t),
    returned (parseGoogleCalendarEvent calendar accountId event) = Some parsed ->
    CalendarEvent.calendarId parsed = Calendar.id calendar /\
    CalendarEvent.readOnly parsed = Calendar.readOnly calendar /\
    CalendarEvent.providerId parsed = "google" /\
    CalendarEvent.accountId parsed = accountId /\
    returned (parseGoogleCalendarConferenceData event) =
      Some (CalendarEvent.conference parsed) /\
    detector_calls (parseGoogleCalendarEvent calendar accountId event) =
      detector_calls (parseGoogleCalendarConferenceData event).
Proof.
  intros calendar accountId event parsed Hparsed.
  destruct (returned_event_object _ _ _ _ Hparsed)
    as (start & end_ & conference & -> & Hconference & Htrace).
  unfold detector_calls. rewrite Htrace. now repeat split.
Qed.

End EventParsing.

(** ** Attendees, calendars and tasks *)

Section Attendees.

(** X14. The type of an attendee is resource whenever the resource flag is
    set, optional when only the optional flag is set, and required otherwise.
    Its status is never needsAction; when the response status of the payload
    is one of the four the provider knows, the status is an attendee status
    and the outbound map takes it back to the response status. *)
Theorem attendee_type_and_status :
  forall attendee : GoogleCalendarEventAttendee.t,
    let parsed := parseGoogleCalendarAttendee attendee in
    let is_resource := GoogleCalendarEventAttendee.resource attendee = Some true in
    let is_optional := GoogleCalendarEventAttendee.optional attendee = Some true in
    (is_resource -> Attendee.type parsed = resource) /\
    (~ is_resource -> is_optional -> Attendee.type parsed = optional) /\
    (~ is_resource -> ~ is_optional -> Attendee.type parsed = required) /\
    Attendee.status parsed <> Some "needsAction" /\
    (forall g, GoogleCalendarEventAttendee.responseStatus attendee = Some g ->
               In g GoogleCalendarEventAttendeeResponseStatus ->
               exists s, Attendee.status parsed = Some s /\
                         In s AttendeeStatus /\
                         toGoogleCalendarAttendeeResponseStatus s = g).
Proof.
  intros attendee parsed is_resource is_optional.
  subst parsed is_resource is_optional.
  cbn [parseGoogleCalendarAttendee Attendee.type Attendee.status].
  unfold parseGoogleCalendarAttendeeType.
  split; [| split; [| split; [| split]]].
  - intros ->. reflexivity.
  - intros Hres ->.
    now destruct (GoogleCalendarEventAttendee.resource attendee) as [[|] |].
  - intros Hres Hopt.
    destruct (GoogleCalendarEventAttendee.resource attendee) as [[|] |],
             (GoogleCalendarEventAttendee.optional attendee) as [[|] |];
      try reflexivity; congruence.
  - destruct (GoogleCalendarEventAttendee.responseStatus attendee) as [g |];
      [| discriminate]. cbn. unfold parseGoogleCalendarAttendeeStatus.
    destruct (String.eqb_spec g "needsAction"); [discriminate | congruence].
  - intros g -> Hg. cbn [option_map].
    exists (parseGoogleCalendarAttendeeStatus g). split; [reflexivity |].
    simpl in Hg.
    repeat (destruct Hg as [<- | Hg]; [split; [simpl; tauto | reflexivity] |]).
    contradiction.
Qed.

End Attendees.

Section Tasks.

Context {T : Temporal}.

Lemma split_head_no_sep (sep : ascii) (text : string) :
  (forall c, In c (list_ascii_of_string text) -> c <> sep) ->
  Js.split_head sep text = text.
Proof.
  induction text as [| c text IH]; intro Hno; [reflexivity |]. simpl.
  destruct (Ascii.eqb_spec c sep) as [-> | Hne].
  - exfalso. apply (Hno sep); [now left | reflexivity].
  - rewrite IH; [reflexivity |]. intros x Hx. apply Hno. now right.
Qed.

Lemma split_head_app (sep : ascii) (text rest : string) :
  (forall c, In c (list_ascii_of_string text) -> c <> sep) ->
  Js.split_head sep (text ++ String sep rest) = text.
Proof.
  induction text as [| c text IH]; intro Hno; simpl.
  - now rewrite Ascii.eqb_refl.
  - destruct (Ascii.eqb_spec c sep) as [-> | Hne].
    + exfalso. apply (Hno sep); [now left | reflexivity].
    + rewrite IH; [reflexivity |]. intros x Hx. apply Hno. now right.
Qed.

(** X15. Of a timestamp only the date counts: what follows the first T is
    dropped before parsing, so a date followed by T and anything is read as
    the date alone, and the outcome is the plain date Temporal makes of it or
    a RangeError. *)
Theorem task_timestamp_is_cut_at_T :
  forall date rest : string,
    no_T date ->
    parseGoogleTaskDate (date ++ String "T" rest) = parseGoogleTaskDate date /\
    parseGoogleTaskDate date =
      match PlainDate_from date with
      | Some d => ret d
      | None => throw RangeError
      end.
Proof.
  intros date rest Hno. unfold parseGoogleTaskDate.
  rewrite (split_head_app "T" date rest Hno), (split_head_no_sep "T" date Hno).
  split; reflexivity.
Qed.

Lemma parseOptionalTaskDate_cases (x : option string) :
  parseOptionalTaskDate x =
  match x with
  | Some (String _ _ as s) =>
      match PlainDate_from (Js.split_head "T" s) with
      | Some d => ret (Some d)
      | None => throw RangeError
      end
  | _ => ret None
  end.
Proof.
  destruct x as [[| c s] |]; try reflexivity.
  unfold parseOptionalTaskDate, parseGoogleTaskDate, PlainDate_from_value.
  now destruct (PlainDate_from _).
Qed.

Lemma unreadable_iff (x : option string) :
  unreadable x <-> snd (parseOptionalTaskDate x) = inl RangeError.
Proof.
  rewrite parseOptionalTaskDate_cases. unfold unreadable. split.
  - intros (s & -> & Hne & Hfrom). destruct s as [| c s]; [congruence |].
    now rewrite Hfrom.
  - destruct x as [[| c s] |]; try discriminate.
    destruct (PlainDate_from (Js.split_head "T" (String c s))) eqn:Hfrom;
      [discriminate |].
    intros _. exists (String c s). now repeat split.
Qed.

(** X16. Reading a task touches neither the console nor the detector and
    fails only with a RangeError, exactly when its completed or its due text
    is there, is not empty, and has no plain date before its first T.  A text
    that is missing or empty is not parsed: the task is returned without that
    date.  A date that is returned is the one Temporal reads before the
    first T. *)
Theorem task_dates_read_or_RangeError :
  forall (task : GoogleTask.t) (collectionId accountId : string),
    let result := parseGoogleTask task collectionId accountId in
    trace result = [] /\
    (forall e, snd result = inl e -> e = RangeError) /\
    (returned result = None <->
     unreadable (GoogleTask.completed task) \/ unreadable (GoogleTask.due task)) /\
    (forall parsed, returned result = Some parsed ->
       let read x date :=
         match x with
         | Some (String _ _ as s) => PlainDate_from (Js.split_head "T" s) = date
         | _ => date = None
         end in
       read (GoogleTask.completed task) (Task.completed parsed) /\
       read (GoogleTask.due task) (Task.due parsed) /\
       Task.taskCollectionId parsed = collectionId /\
       Task.accountId parsed = accountId).
Proof.
  intros task collectionId accountId result. subst result.
  unfold parseGoogleTask.
  rewrite (unreadable_iff (GoogleTask.completed task)),
    (unreadable_iff (GoogleTask.due task)).
  rewrite !parseOptionalTaskDate_cases.
  destruct (GoogleTask.completed task) as [[| c1 s1] |],
           (GoogleTask.due task) as [[| c2 s2] |];
    repeat match goal with
           | |- context [PlainDate_from ?x] => destruct (PlainDate_from x) eqn:?
           end;
    cbn; unfold returned; cbn;
    (split; [reflexivity |]);
    (split; [intros e He; congruence |]);
    (split; [split; [try discriminate; tauto
                    | intros [H | H]; congruence] |]);
    intros parsed Hparsed; inversion Hparsed; cbn; auto.
Qed.

(** X17. The status sent for a task is completed exactly when the task has a
    completed date, and needsAction otherwise; the completed text is sent
    exactly then.  When Temporal reads a plain date back from its own text,
    the due and the completed date that are sent are read back as they
    were, and a date that is absent is read back as absent. *)
Theorem task_dates_round_trip :
  forall task : TaskInput.t,
    let sent_task := toGoogleTask task in
    (GoogleTaskUpdateParams.status sent_task = "completed" <->
     TaskInput.completed task <> None) /\
    (GoogleTaskUpdateParams.status sent_task = "needsAction" <->
     TaskInput.completed task = None) /\
    (GoogleTaskUpdateParams.completed sent_task = None <->
     TaskInput.completed task = None) /\
    (forall date,
        match date with Some d => plain_date_reads_back d | None => True end ->
        (TaskInput.due task = date ->
         parseOptionalTaskDate (GoogleTaskUpdateParams.due sent_task) = ret date) /\
        (TaskInput.completed task = date ->
         parseOptionalTaskDate (GoogleTaskUpdateParams.completed sent_task) =
         ret date)).
Proof.
  intros task sent_task. subst sent_task.
  cbn [toGoogleTask GoogleTaskUpdateParams.status GoogleTaskUpdateParams.completed
       GoogleTaskUpdateParams.due].
  split; [| split; [| split]].
  - destruct (TaskInput.completed task); split; congruence.
  - destruct (TaskInput.completed task); split; congruence.
  - destruct (TaskInput.completed task); cbn; split; congruence.
  - intros date Hback.
    assert (Hread : parseOptionalTaskDate (option_map PlainDate_toString date) =
                    ret date).
    { rewrite parseOptionalTaskDate_cases.
      destruct date as [d |]; [| reflexivity]. cbn [option_map].
      destruct Hback as (Hne & Hno & Hfrom).
      destruct (PlainDate_toString d) as [| c s] eqn:Htext; [congruence |].
      now rewrite (split_head_no_sep "T" _ Hno), Hfrom. }
    split; intros ->; exact Hread.
Qed.

End Tasks.

Section CalendarList.

(** X18. A calendar that is returned has the id of its entry, which is not
    empty, the account given and the provider google.  It is read-only
    exactly when the access role is reader or freeBusyReader.  Its name is
    the summary override whenever the entry has one, the empty one included,
    and the summary otherwise.  Reading an entry touches neither the console
    nor the detector. *)
Theorem calendar_of_list_entry :
  forall (accountId : string) (entry : GoogleCalendarCalendarListEntry.t)
         (calendar : Calendar.t),
    returned (parseGoogleCalendarCalendarListEntry accountId entry) =
      Some calendar ->
    GoogleCalendarCalendarListEntry.id entry = Some (Calendar.id calendar) /\
    Calendar.id calendar <> "" /\
    Calendar.accountId calendar = accountId /\
    Calendar.providerId calendar = "google" /\
    (Calendar.readOnly calendar = true <->
     GoogleCalendarCalendarListEntry.accessRole entry = Some "reader" \/
     GoogleCalendarCalendarListEntry.accessRole entry = Some "freeBusyReader") /\
    (forall override,
        GoogleCalendarCalendarListEntry.summaryOverride entry = Some override ->
        Calendar.name calendar = Some override) /\
    (GoogleCalendarCalendarListEntry.summaryOverride entry = None ->
     Calendar.name calendar = GoogleCalendarCalendarListEntry.summary entry) /\
    trace (parseGoogleCalendarCalendarListEntry accountId entry) = [].
Proof.
  intros accountId entry calendar.
  unfold parseGoogleCalendarCalendarListEntry.
  destruct (GoogleCalendarCalendarListEntry.id entry) as [[| c id] |];
    try discriminate.
  intro Heq. inversion Heq. subst calendar. clear Heq. cbn.
  repeat split; try discriminate.
  - destruct (GoogleCalendarCalendarListEntry.accessRole entry) as [role |];
      [| discriminate].
    rewrite Bool.orb_true_iff, !String.eqb_eq.
    intros [-> | ->]; tauto.
  - intros [-> | ->]; reflexivity.
  - intros override ->. reflexivity.
  - intros ->. reflexivity.
Qed.

End CalendarList.

(** ** The URLs of a text field *)

Section UrlCompleteness.

Lemma list_ascii_of_string_app (a b : string) :
  list_ascii_of_string (a ++ b) =
  (list_ascii_of_string a ++ list_ascii_of_string b)%list.
Proof. induction a as [| x a IH]; simpl; [reflexivity | now rewrite IH]. Qed.

(** A URL that starts a text can be extended to the longest one that does. *)
Lemma starts_url_maximal (s : string) :
  starts_url s ->
  exists m rest, s = m ++ rest /\ url_shaped m /\ url_ends rest.
Proof.
  intros (u & r & -> & scheme & run & -> & Hscheme & Hrun & Hunits).
  destruct (url_run_split r) as (rest & Hr & Hends).
  exists ((scheme ++ "://" ++ run) ++ UrlRegex.url_run r), rest.
  split; [| split; [| exact Hends]].
  - rewrite Hr at 1. now rewrite !string_app_assoc.
  - exists scheme, (run ++ UrlRegex.url_run r).
    split; [now rewrite !string_app_assoc |].
    split; [exact Hscheme |].
    split; [destruct run; [congruence | discriminate] |].
    intros c Hc. rewrite list_ascii_of_string_app in Hc.
    apply in_app_or in Hc as [Hc | Hc]; [now apply Hunits |].
    now apply (url_run_units r).
Qed.

Lemma match_at_None_iff (s : string) :
  UrlRegex.match_at s = None <-> ~ starts_url s.
Proof.
  split.
  - intros Hnone Hstarts.
    destruct (starts_url_maximal s Hstarts) as (m & rest & -> & Hshape & Hends).
    rewrite (match_at_shaped m rest Hshape Hends) in Hnone. discriminate.
  - intro Hfree. destruct (UrlRegex.match_at s) as [m |] eqn:Hmatch;
      [| reflexivity].
    exfalso. apply Hfree.
    destruct (match_at_Some s m Hmatch) as (rest & -> & Hshape & _).
    now exists m, rest.
Qed.

Lemma url_free_tail (c : ascii) (gap after : string) :
  url_free (String c gap) after -> url_free gap after.
Proof.
  intros Hfree a b Hsplit Hb. apply (Hfree (String c a) b); [| exact Hb].
  simpl. now rewrite Hsplit.
Qed.

Lemma url_free_cons (c : ascii) (gap after : string) :
  ~ starts_url (String c (gap ++ after)) -> url_free gap after ->
  url_free (String c gap) after.
Proof.
  intros Hhead Hfree a b Hsplit Hb.
  destruct a as [| x a]; simpl in Hsplit.
  - subst b. exact Hhead.
  - inversion Hsplit. now apply (Hfree a b).
Qed.

Lemma url_free_empty (after : string) : url_free "" after.
Proof.
  intros a b Hsplit Hb. destruct a; [| discriminate].
  simpl in Hsplit. congruence.
Qed.

(** The search passes over a gap that holds no start of a URL. *)
Lemma scan_gap (gap after : string) :
  url_free gap after ->
  UrlRegex.scan 0 (gap ++ after) = UrlRegex.scan 0 after.
Proof.
  induction gap as [| c gap IH]; intro Hfree; [reflexivity |].
  cbn [append UrlRegex.scan].
  assert (Hhead : UrlRegex.match_at (String c (gap ++ after)) = None).
  { apply match_at_None_iff. apply (Hfree EmptyString (String c gap));
      [reflexivity | discriminate]. }
  rewrite Hhead. apply IH. exact (url_free_tail c gap after Hfree).
Qed.

(** A text has no other URLs than the ones the search returns. *)
Lemma urls_of_unique (text : string) (urls : list string) :
  urls_of text urls -> extractUrls text = urls.
Proof.
  intros (pieces & tail & -> & <- & Hcut & Hcomplete).
  unfold extractUrls, UrlRegex.extractUrls.
  induction pieces as [| [gap m] pieces IH].
  - cbn [weave map complete_cut] in *.
    rewrite <- (string_app_nil_r tail) at 1.
    now rewrite (scan_gap tail EmptyString Hcomplete).
  - cbn [weave map snd well_cut complete_cut] in *.
    destruct Hcut as (Hshape & Hends & Hcut).
    destruct Hcomplete as (Hfree & Hcomplete).
    rewrite (scan_gap gap _ Hfree).
    rewrite (scan_at_match m _ (match_at_shaped m _ Hshape Hends)).
    now rewrite (IH Hcut Hcomplete).
Qed.

Lemma scan_weave_complete (s : string) :
  forall k pre rest,
    s = pre ++ rest -> String.length pre = k ->
    exists pieces tail,
      rest = weave pieces tail /\ map snd pieces = UrlRegex.scan k s /\
      well_cut pieces tail /\ complete_cut pieces tail.
Proof.
  induction s as [| c s IH]; intros k pre rest Hsplit Hlen.
  - destruct pre; [| discriminate]. simpl in Hsplit. subst rest.
    exists [], EmptyString. repeat split. apply url_free_empty.
  - destruct pre as [| x pre]; simpl in Hlen; subst k.
    + simpl in Hsplit. subst rest. cbn [UrlRegex.scan].
      destruct (UrlRegex.match_at (String c s)) as [m |] eqn:Hmatch.
      * destruct (match_at_Some _ _ Hmatch) as (after & Hafter & Hshape & Hends).
        destruct (url_shaped_nonempty m Hshape) as (c' & m' & ->).
        cbn [append] in Hafter. inversion Hafter. subst c' s.
        destruct (IH (String.length m') m' after eq_refl eq_refl)
          as (pieces & tail & Htail & Hmap & Hcut & Hcomplete).
        exists (("", String c m') :: pieces), tail.
        cbn [weave map snd well_cut complete_cut String.length append].
        rewrite Nat.sub_1_r. cbn [Nat.pred]. rewrite <- Hmap, <- Htail.
        repeat split; auto. apply url_free_empty.
      * apply match_at_None_iff in Hmatch.
        destruct (IH 0 EmptyString s eq_refl eq_refl)
          as (pieces & tail & Htail & Hmap & Hcut & Hcomplete).
        destruct pieces as [| [gap m] pieces].
        -- exists [], (String c tail). cbn [weave complete_cut] in *. subst s.
           repeat split; auto.
           apply url_free_cons; [now rewrite string_app_nil_r | exact Hcomplete].
        -- exists ((String c gap, m) :: pieces), tail.
           cbn [weave map snd well_cut complete_cut append] in *. subst s.
           destruct Hcomplete as (Hfree & Hcomplete).
           repeat split; auto; try tauto.
           now apply url_free_cons.
    + inversion Hsplit. subst x s. cbn [UrlRegex.scan].
      exact (IH (String.length pre) pre rest eq_refl eq_refl).
Qed.

(** The search returns the URLs of the text. *)
Lemma urls_of_extractUrls (text : string) : urls_of text (extractUrls text).
Proof. exact (scan_weave_complete text 0 EmptyString text eq_refl eq_refl). Qed.

Lemma field_urls_present (field : option string) (urls : list string) :
  field_urls field urls -> flat_map extractUrls (present field) = urls.
Proof.
  destruct field as [[| c text] |]; cbn [field_urls present flat_map];
    try congruence.
  intro Hurls. rewrite app_nil_r. now apply urls_of_unique.
Qed.

Lemma field_urls_exist (field : option string) :
  field_urls field (flat_map extractUrls (present field)).
Proof.
  destruct field as [[| c text] |]; cbn [field_urls present flat_map];
    try reflexivity.
  rewrite app_nil_r. apply urls_of_extractUrls.
Qed.

(** A URL starts with the letter h, small or capital. *)
Lemma starts_url_head (c : ascii) (s : string) :
  starts_url (String c s) -> (c = "h" \/ c = capital "h")%char.
Proof.
  intros (u & rest & Heq & scheme & run & -> & Hscheme & _).
  destruct scheme as [| x scheme].
  - destruct Hscheme as [H | H]; cbn in H; contradiction.
  - cbn [append] in Heq. inversion Heq. subst x.
    destruct Hscheme as [H | H]; cbn [reads_as] in H; tauto.
Qed.

(** A gap without the letter h holds no start of a URL. *)
Lemma url_free_without_h (gap after : string) :
  forallb (fun c => negb (Ascii.eqb c "h" || Ascii.eqb c (capital "h")))
          (list_ascii_of_string gap) = true ->
  url_free gap after.
Proof.
  induction gap as [| c gap IH]; intro Hgap; [apply url_free_empty |].
  cbn [list_ascii_of_string forallb] in Hgap.
  apply Bool.andb_true_iff in Hgap as (Hc & Hgap).
  apply url_free_cons; [| now apply IH].
  intro Hstarts. apply starts_url_head in Hstarts.
  apply Bool.negb_true_iff, Bool.orb_false_iff in Hc as (Hh & HH).
  apply Ascii.eqb_neq in Hh, HH. tauto.
Qed.

(** A text whose units all pass the check of the class is a run of a URL. *)
Lemma url_units_checked (run : string) :
  forallb UrlRegex.url_unit (list_ascii_of_string run) = true ->
  forall c, In c (list_ascii_of_string run) -> UrlRegex.url_unit c = true.
Proof. intro Hall. now apply forallb_forall. Qed.

End UrlCompleteness.

Section FallbackOrder.

Context {L : MeetingLinks} {R : Runtime}.

(** C2. For an event without structured entry points the conference comes
    from the fallback scan.  The scan asks the detector about, in this order:
    the hangout link, the URLs of the description, the URLs of the location,
    the source URL, the file URLs of the attachments, the gadget link; the
    URLs of a text being all the stretches of it that match the pattern, from
    left to right.  It stops at the first one the detector recognises: the
    detector is asked about nothing behind it, and the conference returned
    has the id and the name of the service, a video entry with the join URL
    the detector reports and the id of the service as meeting code, and
    nothing else.  When nothing is recognised every one has been asked about
    and there is no conference.  A recognised hangout link wins whatever the
    other fields hold. *)
Theorem fallback_first_recognised_wins :
  forall event : GoogleCalendarEvent.t,
    entry_points_of event = [] ->
    let result := parseGoogleCalendarConferenceData event in
    let built (service : MeetingService.t) : Conference.t :=
      {| Conference.id := Some (MeetingService.id service);
         Conference.conferenceId := None;
         Conference.name := Some (MeetingService.name service);
         Conference.video :=
           Some {| ConferenceEntryPoint.joinUrl :=
                     {| JoinUrl.label := None;
                        JoinUrl.value := MeetingService.joinUrl service |};
                   ConferenceEntryPoint.meetingCode :=
                     Some (MeetingService.id service);
                   ConferenceEntryPoint.accessCode := None;
                   ConferenceEntryPoint.password := None |};
         Conference.sip := None;
         Conference.phone := None;
         Conference.extra := None |} in
    (exists in_description in_location,
        field_urls (GoogleCalendarEvent.description event) in_description /\
        field_urls (GoogleCalendarEvent.location event) in_location) /\
    forall in_description in_location,
      field_urls (GoogleCalendarEvent.description event) in_description ->
      field_urls (GoogleCalendarEvent.location event) in_location ->
      let scanned :=
        (present (GoogleCalendarEvent.hangoutLink event) ++
         in_description ++
         in_location ++
         present (GoogleCalendarEvent.source_url event) ++
         flat_map present (Js.nullish (GoogleCalendarEvent.attachments event) []) ++
         present (GoogleCalendarEvent.gadget_link event))%list in
      (forall before url after service,
          scanned = (before ++ url :: after)%list ->
          (forall u, In u before -> detectMeetingLink u = None) ->
          detectMeetingLink url = Some service ->
          detector_calls result = (before ++ [url])%list /\
          returned result = Some (Some (built service))) /\
      ((forall u, In u scanned -> detectMeetingLink u = None) ->
       detector_calls result = scanned /\
       returned result = Some None) /\
      (forall link service,
          GoogleCalendarEvent.hangoutLink event = Some link ->
          link <> "" ->
          detectMeetingLink link = Some service ->
          detector_calls result = [link] /\
          returned result = Some (Some (built service))).
Proof.
  intros event Hnone result built.
  split.
  { exists (flat_map extractUrls (present (GoogleCalendarEvent.description event))),
           (flat_map extractUrls (present (GoogleCalendarEvent.location event))).
    split; apply field_urls_exist. }
  intros in_description in_location Hdescription Hlocation scanned.
  assert (Hscanned : scanned = candidates event).
  { unfold scanned, candidates.
    now rewrite (field_urls_present _ _ Hdescription),
      (field_urls_present _ _ Hlocation). }
  assert (Hresult : forall urls r,
             check_each scanned = (map Detect urls, inr r) ->
             detector_calls result = urls /\ returned result = Some r).
  { intros urls r Hscan. subst result.
    rewrite (unstructured_is_fallback event Hnone), fallback_scans_candidates,
      <- Hscanned, Hscan.
    split; [| reflexivity].
    unfold detector_calls, trace. cbn [fst flat_map app].
    apply (detector_calls_of_detects (A := unit) urls (inr tt)). }
  split; [| split].
  - intros before url after service Hsplit Hmiss Hhit.
    apply Hresult. rewrite Hsplit.
    exact (check_each_hit before url after service Hmiss Hhit).
  - intro Hmiss. apply Hresult. now apply check_each_miss.
  - intros link service Hlink Hlink_ne Hhit.
    apply (Hresult [link]). unfold scanned. rewrite Hlink.
    destruct link as [| c link]; [congruence |].
    exact (check_each_hit [] (String c link) _ service
                          (fun u Hu => match Hu with end) Hhit).
Qed.

End FallbackOrder.

Section OutboundCodePairs.

Context {R : Runtime}.

Lemma filter_kind_phones (kind : string) (phones : list ConferenceEntryPoint.t) :
  String.eqb "phone" kind = false ->
  filter (has_type kind) (map phoneEntryPoint phones) = [].
Proof.
  intro Hkind. induction phones as [| p phones IH]; [reflexivity |].
  cbn [map filter]. unfold has_type at 1.
  cbn [phoneEntryPoint EntryPoint.entryPointType]. now rewrite Hkind.
Qed.

Lemma entry_points_of_video (conference : Conference.t) :
  entry_points_of_kind "video" (toGoogleCalendarConferenceData conference) =
  match sent (Conference.video conference) with
  | Some video => [videoEntryPoint video]
  | None => []
  end.
Proof.
  unfold entry_points_of_kind.
  rewrite entryPoints_of_outbound, outboundEntryPoints_sent, !filter_app.
  rewrite (filter_kind_phones "video") by reflexivity.
  destruct (sent (Conference.video conference)),
           (sent (Conference.sip conference)); reflexivity.
Qed.

Lemma entry_points_of_sip (conference : Conference.t) :
  entry_points_of_kind "sip" (toGoogleCalendarConferenceData conference) =
  match sent (Conference.sip conference) with
  | Some sip => [sipEntryPoint sip]
  | None => []
  end.
Proof.
  unfold entry_points_of_kind.
  rewrite entryPoints_of_outbound, outboundEntryPoints_sent, !filter_app.
  rewrite (filter_kind_phones "sip") by reflexivity.
  destruct (sent (Conference.video conference)),
           (sent (Conference.sip conference)); reflexivity.
Qed.

Lemma entry_points_of_phone (conference : Conference.t) :
  entry_points_of_kind "phone" (toGoogleCalendarConferenceData conference) =
  map phoneEntryPoint (Js.nullish (Conference.phone conference) []).
Proof. exact (phone_entry_points_of_outbound conference). Qed.

(** C4, amended.  Every entry point of an outbound payload is a video, a sip
    or a phone entry point.  The video entry point, sent when the video entry
    has a join URL, carries the meeting code of that entry under meetingCode
    and under accessCode, and its password under password and under passcode;
    an empty code is not sent, and there is no pin.  The same holds of the sip
    entry point.  The phone entry points are those of the phone entries, in
    order; each carries the access code of its entry under accessCode and
    under pin, and nothing under meetingCode, password or passcode. *)
Theorem outbound_codes_twice :
  forall conference : Conference.t,
    let data := toGoogleCalendarConferenceData conference in
    (forall e,
        In e (Js.nullish (GoogleCalendarEventConferenceData.entryPoints data) []) ->
        In e (entry_points_of_kind "video" data) \/
        In e (entry_points_of_kind "sip" data) \/
        In e (entry_points_of_kind "phone" data)) /\
    match sent (Conference.video conference) with
    | Some video =>
        exists e, entry_points_of_kind "video" data = [e] /\
                  carries_video_or_sip_codes video e
    | None => entry_points_of_kind "video" data = []
    end /\
    match sent (Conference.sip conference) with
    | Some sip =>
        exists e, entry_points_of_kind "sip" data = [e] /\
                  carries_video_or_sip_codes sip e
    | None => entry_points_of_kind "sip" data = []
    end /\
    Forall2 carries_phone_codes
            (Js.nullish (Conference.phone conference) [])
            (entry_points_of_kind "phone" data).
Proof.
  intros conference data. subst data.
  rewrite entry_points_of_video, entry_points_of_sip, entry_points_of_phone.
  split; [| split; [| split]].
  - intros e He. rewrite entryPoints_of_outbound, outboundEntryPoints_sent in He.
    rewrite !in_app_iff in He. tauto.
  - destruct (sent (Conference.video conference)) as [video |]; [| reflexivity].
    exists (videoEntryPoint video). split; [reflexivity |].
    unfold carries_video_or_sip_codes. cbn. rewrite !kept_is_spread. tauto.
  - destruct (sent (Conference.sip conference)) as [sip |]; [| reflexivity].
    exists (sipEntryPoint sip). split; [reflexivity |].
    unfold carries_video_or_sip_codes. cbn. rewrite !kept_is_spread. tauto.
  - induction (Js.nullish (Conference.phone conference) []) as [| p phones IH];
      [apply Forall2_nil | apply Forall2_cons; [| exact IH]].
    unfold carries_phone_codes. cbn. rewrite !kept_is_spread. tauto.
Qed.

End OutboundCodePairs.

(** ** The further properties on concrete payloads *)

Section MoreExamples.

#[local] Existing Instance Sample.temporal.
#[local] Existing Instance Sample.links.
#[local] Existing Instance Sample.runtime.

Example hidden_video_parsed :
  option_map (option_map (fun c =>
     (Conference.id c, Conference.conferenceId c, Conference.name c,
      Conference.video c, Conference.sip c,
      option_map (map (fun p => JoinUrl.value (ConferenceEntryPoint.joinUrl p)))
                 (Conference.phone c))))
    (returned (parseGoogleCalendarConferenceData hidden_video_event)) =
  Some (Some (None, Some "abc-defg-hij", Some "Google Meet", None, None,
              Some ["tel:+15551234567"])).
Proof. reflexivity. Qed.

Lemma meet_link_shaped : url_shaped "https://meet.google.com/abc-defg-hij".
Proof.
  exists "https", "meet.google.com/abc-defg-hij".
  split; [reflexivity |]. split; [right; cbn; tauto |].
  split; [discriminate |].
  intros c Hc. simpl in Hc.
  repeat (destruct Hc as [<- | Hc]; [reflexivity |]). contradiction.
Qed.

Lemma extractUrls_whole_witness :
  extractUrls "https://meet.google.com/abc-defg-hij today" =
  "https://meet.google.com/abc-defg-hij" :: extractUrls " today".
Proof.
  apply (extractUrls_whole "https://meet.google.com/abc-defg-hij" " today").
  - exact meet_link_shaped.
  - reflexivity.
Defined.

Lemma structured_ignores_other_fields_witness :
  detector_calls (parseGoogleCalendarConferenceData hidden_video_event) = [] /\
  parseGoogleCalendarConferenceData
    (withConferenceData holiday hidden_video_data) =
  parseGoogleCalendarConferenceData hidden_video_event.
Proof.
  assert (Hpoints : entry_points_of hidden_video_event <> []) by discriminate.
  destruct (structured_ignores_other_fields hidden_video_event Hpoints)
    as (_ & Hcalls & Hsame).
  split; [exact Hcalls | apply Hsame; reflexivity].
Defined.

Lemma first_entry_point_of_a_kind_wins_witness :
  exists conference,
    returned (parseGoogleCalendarConferenceData hidden_video_event) =
      Some (Some conference) /\
    Conference.video conference = None.
Proof.
  destruct (returned (parseGoogleCalendarConferenceData hidden_video_event))
    as [[conference |] |] eqn:Hret;
    try (vm_compute in Hret; discriminate Hret).
  exists conference. split; [reflexivity |].
  assert (Hbefore : forall b,
             In b [wire_entry "more" (Some "https://tel.meet/abc")] ->
             has_type "video" b = false).
  { intros b [<- | []]. reflexivity. }
  apply (proj1 (first_entry_point_of_a_kind_wins
                  hidden_video_event "video"
                  [wire_entry "more" (Some "https://tel.meet/abc")]
                  (wire_entry "video" None)
                  [wire_entry "video" (Some "https://meet.google.com/abc-defg-hij");
                   wire_entry "phone" (Some "tel:+15551234567");
                   wire_entry "phone" None]
                  conference eq_refl Hbefore eq_refl Hret)).
  reflexivity.
Defined.

Lemma inbound_join_urls_not_empty_witness :
  exists conference,
    returned (parseGoogleCalendarConferenceData hidden_video_event) =
      Some (Some conference) /\
    Conference.phone conference <> Some [].
Proof.
  destruct (returned (parseGoogleCalendarConferenceData hidden_video_event))
    as [[conference |] |] eqn:Hret;
    try (vm_compute in Hret; discriminate Hret).
  exists conference. split; [reflexivity |].
  exact (proj1 (inbound_join_urls_not_empty hidden_video_event conference Hret)).
Defined.

Lemma round_trip_of_identity_fields_witness :
  exists back,
    returned (roundTrip holiday locked_video) = Some (Some back) /\
    Conference.conferenceId back = None /\
    Conference.name back = Some "Google Meet" /\
    Conference.extra back = None /\
    Conference.id back = Some "google-meet" /\
    detector_calls (roundTrip holiday locked_video) =
      ["https://meet.google.com/abc-defg-hij"].
Proof.
  destruct (round_trip_of_identity_fields holiday locked_video)
    as (back & Hback & Hcid & Hname & Hextra & Hid & Hcalls); [discriminate |].
  exists back. split; [exact Hback |]. split; [exact Hcid |].
  split; [exact Hname |]. split; [exact Hextra |].
  split; [exact Hid | exact Hcalls].
Defined.

Lemma event_dates_round_trip_witness :
  dates_of (returned (parseGoogleCalendarEvent work_calendar "account-1" standup)) =
  Some (false, OfZonedDateTime ("2024-05-01T09:00:00Z", "Europe/Paris"),
        OfInstant "2024-05-01T09:15:00Z").
Proof.
  apply (event_dates_round_trip (T := Sample.temporal)
           work_calendar "account-1" standup
           (@OfZonedDateTime Sample.temporal
                             ("2024-05-01T09:00:00Z", "Europe/Paris"))
           (@OfInstant Sample.temporal "2024-05-01T09:15:00Z")).
  - reflexivity.
  - reflexivity.
  - split; [discriminate |]. split; [discriminate |].
    exists "2024-05-01T09:00:00Z". split; reflexivity.
  - split; [discriminate | reflexivity].
  - reflexivity.
Defined.

Lemma mixed_date_kinds_throw_witness :
  parseGoogleCalendarEvent work_calendar "account-1" mixed_event =
  throw TypeError.
Proof.
  apply (mixed_date_kinds_throw (T := Sample.temporal)
           work_calendar "account-1" mixed_event
           (@OfPlainDate Sample.temporal "2024-05-01")
           (@OfInstant Sample.temporal "2024-05-01T09:15:00Z")).
  - reflexivity.
  - reflexivity.
  - reflexivity.
  - discriminate.
Defined.

Lemma event_attendees_and_response_witness :
  exists parsed,
    returned (parseGoogleCalendarEvent work_calendar "account-1" standup) =
      Some parsed /\
    forall a, In a (CalendarEvent.attendees parsed) ->
              Attendee.status a <> Some "needsAction".
Proof.
  destruct (returned (parseGoogleCalendarEvent work_calendar "account-1" standup))
    as [parsed |] eqn:Hparsed; [| vm_compute in Hparsed; discriminate Hparsed].
  exists parsed. split; [reflexivity |].
  exact (proj1 (proj2 (event_attendees_and_response
                         work_calendar "account-1" standup parsed Hparsed))).
Defined.

Lemma event_inherits_calendar_and_conference_witness :
  exists parsed,
    returned (parseGoogleCalendarEvent work_calendar "account-1" two_links) =
      Some parsed /\
    CalendarEvent.calendarId parsed = "work" /\
    CalendarEvent.readOnly parsed = false /\
    detector_calls (parseGoogleCalendarEvent work_calendar "account-1" two_links) =
      detector_calls (parseGoogleCalendarConferenceData two_links).
Proof.
  destruct (returned (parseGoogleCalendarEvent work_calendar "account-1" two_links))
    as [parsed |] eqn:Hparsed; [| vm_compute in Hparsed; discriminate Hparsed].
  exists parsed. split; [reflexivity |].
  destruct (event_inherits_calendar_and_conference
              work_calendar "account-1" two_links parsed Hparsed)
    as (Hid & Hro & _ & _ & _ & Hcalls).
  split; [exact Hid |]. split; [exact Hro | exact Hcalls].
Defined.

Lemma task_timestamp_is_cut_at_T_witness :
  parseGoogleTaskDate "2024-05-01T00:00:00.000Z" = parseGoogleTaskDate "2024-05-01".
Proof.
  assert (Hno : no_T "2024-05-01").
  { intros c Hc. simpl in Hc.
    repeat (destruct Hc as [<- | Hc]; [discriminate |]). contradiction. }
  exact (proj1 (task_timestamp_is_cut_at_T "2024-05-01" "00:00:00.000Z" Hno)).
Defined.

Lemma calendar_of_list_entry_witness :
  exists calendar,
    returned (parseGoogleCalendarCalendarListEntry "account-1"
                (list_entry (Some "team"))) = Some calendar /\
    Calendar.id calendar <> "" /\
    Calendar.readOnly calendar = true.
Proof.
  destruct (returned (parseGoogleCalendarCalendarListEntry "account-1"
                        (list_entry (Some "team"))))
    as [calendar |] eqn:Hret; [| vm_compute in Hret; discriminate Hret].
  exists calendar. split; [reflexivity |].
  destruct (calendar_of_list_entry "account-1" (list_entry (Some "team"))
                                   calendar Hret)
    as (_ & Hid & _ & _ & Hro & _).
  split; [exact Hid |]. apply Hro. left. reflexivity.
Defined.

Example outbound_bridge_codes :
  map (fun e => (EntryPoint.entryPointType e, EntryPoint.meetingCode e,
                 EntryPoint.accessCode e, EntryPoint.password e,
                 EntryPoint.passcode e, EntryPoint.pin e))
      (Js.nullish (GoogleCalendarEventConferenceData.entryPoints
                     (toGoogleCalendarConferenceData bridge)) []) =
  [(Some "video", Some "abc-defg-hij", Some "abc-defg-hij",
    Some "secret", Some "secret", None);
   (Some "sip", Some "4242", Some "4242", Some "sip-word", Some "sip-word", None);
   (Some "phone", None, Some "9876", None, None, Some "9876");
   (Some "phone", None, None, None, None, None)].
Proof. reflexivity. Qed.

Lemma outbound_codes_twice_witness :
  (exists e,
      entry_points_of_kind "video" (toGoogleCalendarConferenceData bridge) = [e] /\
      carries_video_or_sip_codes
        (coded_entry "https://meet.google.com/abc-defg-hij"
                     (Some "abc-defg-hij") (Some "other") (Some "secret")) e) /\
  (exists e,
      entry_points_of_kind "sip" (toGoogleCalendarConferenceData bridge) = [e] /\
      carries_video_or_sip_codes
        (coded_entry "sip:room@example.com" (Some "4242") None (Some "sip-word"))
        e) /\
  Forall2 carries_phone_codes
          [coded_entry "+15551234567" (Some "unused") (Some "9876") (Some "unused");
           coded_entry "tel:555" None (Some "") None]
          (entry_points_of_kind "phone" (toGoogleCalendarConferenceData bridge)).
Proof.
  destruct (outbound_codes_twice bridge) as (_ & Hvideo & Hsip & Hphone).
  split; [exact Hvideo |]. split; [exact Hsip | exact Hphone].
Defined.

Lemma example_doc_shaped : url_shaped "http://example.com/doc,".
Proof.
  exists "http", "example.com/doc,".
  split; [reflexivity |]. split; [left; cbn; tauto |].
  split; [discriminate | now apply url_units_checked].
Qed.

Lemma meet_xyz_shaped : url_shaped "https://meet.google.com/xxx-yyyy-zzz".
Proof.
  exists "https", "meet.google.com/xxx-yyyy-zzz".
  split; [reflexivity |]. split; [right; cbn; tauto |].
  split; [discriminate | now apply url_units_checked].
Qed.

(** The URLs of the description of [links_in_description], read off the
    text. *)
Lemma urls_of_notes :
  field_urls (GoogleCalendarEvent.description links_in_description)
             ["http://example.com/doc,"; "https://meet.google.com/xxx-yyyy-zzz"].
Proof.
  exists [("Notes: ", "http://example.com/doc,");
          (" call: <", "https://meet.google.com/xxx-yyyy-zzz")], ">".
  split; [reflexivity |]. split; [reflexivity |]. split.
  - cbn [well_cut]. split; [exact example_doc_shaped |].
    split; [reflexivity |]. split; [exact meet_xyz_shaped |].
    split; [reflexivity | exact I].
  - cbn [complete_cut]. repeat split; now apply url_free_without_h.
Qed.

(** The URLs of the description of [two_links]. *)
Lemma urls_of_invitation :
  field_urls (GoogleCalendarEvent.description two_links)
             ["https://meet.google.com/xxx-yyyy-zzz"].
Proof.
  exists [("Join at ", "https://meet.google.com/xxx-yyyy-zzz")], " today".
  split; [reflexivity |]. split; [reflexivity |]. split.
  - cbn [well_cut]. split; [exact meet_xyz_shaped |].
    split; [reflexivity | exact I].
  - cbn [complete_cut]. split; now apply url_free_without_h.
Qed.

Lemma fallback_first_recognised_wins_witness :
  (detector_calls (parseGoogleCalendarConferenceData links_in_description) =
     ["http://example.com/doc,"; "https://meet.google.com/xxx-yyyy-zzz"] /\
   returned (parseGoogleCalendarConferenceData links_in_description) =
     Some (Some (meet_conference "https://meet.google.com/xxx-yyyy-zzz"))) /\
  (detector_calls (parseGoogleCalendarConferenceData two_links) =
     ["https://meet.google.com/aaa-bbbb-ccc"] /\
   returned (parseGoogleCalendarConferenceData two_links) =
     Some (Some (meet_conference "https://meet.google.com/aaa-bbbb-ccc"))).
Proof.
  split.
  - destruct (proj2 (fallback_first_recognised_wins links_in_description eq_refl)
                    _ [] urls_of_notes eq_refl)
      as (Hhit & _ & _).
    apply (Hhit ["http://example.com/doc,"]
                "https://meet.google.com/xxx-yyyy-zzz" []
                (meet_service "https://meet.google.com/xxx-yyyy-zzz")).
    + reflexivity.
    + intros u [<- | []]. reflexivity.
    + reflexivity.
  - destruct (proj2 (fallback_first_recognised_wins two_links eq_refl)
                    _ [] urls_of_invitation eq_refl)
      as (_ & _ & Hhangout).
    apply (Hhangout "https://meet.google.com/aaa-bbbb-ccc"
                    (meet_service "https://meet.google.com/aaa-bbbb-ccc")).
    + reflexivity.
    + discriminate.
    + reflexivity.
Defined.

Lemma round_trip_without_entry_points_witness :
  returned (roundTrip two_links (named "Zoom")) =
  Some (Some (meetingLinkConference
                (meet_service "https://meet.google.com/aaa-bbbb-ccc"))).
Proof.
  rewrite (round_trip_without_entry_points two_links (named "Zoom")
             eq_refl eq_refl eq_refl).
  reflexivity.
Defined.

End MoreExamples.
